(** * XTERNAL download manager: the segmented / resumable download engine

    A shallow embedding of [XTERNAL/main.py]:
    - [validate_url] (URL and policy validator),
    - [simple_download_advanced] (single-stream fallback with resume and
      rate limiting),
    - [threaded_download_advanced] (segment planner, segment workers and
      reassembly),
    - the validation gate and the routing of [professional_download],
    - the conversions of [load_config] and [save_config], the thread-count
      prompt of [configure_download_behavior] and
      [configure_system_resources], the blocked-extension prompt of
      [configure_security], the size label of [get_file_info_advanced] and
      the batch mode of [main].

    Python integers are [Z]; [//] is [Z.div] (both floor, and the source
    divides by a possibly-zero value, which is made explicit as a raised
    [ZeroDivisionError]).  Files are byte lists in a finite map keyed by path.
    Effects (file system, clock, network requests) are threaded through a
    small state-and-exception monad that also records a trace of the
    observable operations.

    Conventions of the model:
    - strings are byte strings and [lower] is the ASCII lower-casing;
    - [time.time()] is a rational number of seconds; waiting for a chunk
      and sleeping advance the clock;
    - the server is a function from requests to responses, a response being
      a refusal or a list of chunks with their arrival delays, possibly
      ending in an exception;
    - the thread pool runs the workers one after the other in a completion
      order given as an argument (workers write to pairwise distinct sinks,
      so the files they leave do not depend on how their steps interleave);
    - the file system refuses only what a missing file explains
      ([getsize], an open for reading, [os.remove]): an open for writing
      and a write always succeed, so the statements about a call that
      returns say nothing of the [OSError] that the source lets through
      when the disk or the directory fails;
    - console output (banners, the loading animation, the progress bar that
      the main thread redraws while it polls the pool), the progress
      counters that only feed it, statistics and history are not
      modelled. *)

From Stdlib Require Import ZArith QArith Lia Lqa List Ascii String.
From Stdlib.Strings Require Import Byte.
From stdpp Require Import base tactics option list gmap strings pretty.

Local Open Scope string_scope.
Local Open Scope list_scope.
Local Open Scope Z_scope.

(* ===================================================================== *)
(** ** Python primitives used by the source *)
(* ===================================================================== *)

Module Py.

(** Exceptions that the modelled code can raise (all of them subclasses of
    [Exception]). *)
Inductive exn : Type :=
| ZeroDivisionError
| ValueError (msg : string)
| RequestException (msg : string)
| OSError (msg : string).

Inductive result (A : Type) : Type :=
| Ok (a : A)
| Raise (e : exn).
Global Arguments Ok {A} a.
Global Arguments Raise {A} e.

(** [range(n)] for an integer [n]; empty when [n <= 0]. *)
Definition range (n : Z) : list Z := map Z.of_nat (seq 0 (Z.to_nat n)).

(** [a // b] on integers. *)
Definition floordiv (a b : Z) : result Z :=
  if b =? 0 then Raise ZeroDivisionError else Ok (a / b).

(** [s.startswith(p)]. *)
Definition startswith (s p : string) : bool := String.prefix p s.

(** [s.endswith(suf)]. *)
Definition endswith (s suf : string) : bool :=
  (String.length suf <=? String.length s)%nat &&
  String.eqb
    (substring (String.length s - String.length suf) (String.length suf) s)
    suf.

(** [c.lower()] on one character, for the ASCII range (characters outside
    ['A'..'Z'] are left as they are). *)
Definition lower_ascii (c : ascii) : ascii :=
  let n := nat_of_ascii c in
  if ((65 <=? n) && (n <=? 90))%nat then ascii_of_nat (n + 32) else c.

(** [s.lower()]. *)
Fixpoint lower (s : string) : string :=
  match s with
  | EmptyString => EmptyString
  | String c r => String (lower_ascii c) (lower r)
  end.

(** [x in l] for a list of strings. *)
Definition str_in (x : string) (l : list string) : bool :=
  existsb (String.eqb x) l.

End Py.
Import Py.

(* ===================================================================== *)
(** ** Configuration ([CONFIG]) *)
(* ===================================================================== *)

(** The keys of the process-wide [CONFIG] dictionary read by the modelled
    functions. *)
Record config : Type := Config {
  max_threads : Z;
  user_agent : string;
  proxy_enabled : bool;
  proxy_type : string;
  proxy_auth : bool;
  proxy_username : string;
  proxy_password : string;
  proxy_host : string;
  proxy_port : string;
  blocked_extensions : list string;
  allowed_protocols : list string;
  resume_downloads : bool;
  download_rate_limit_kbps : Z
}.

(** [DEFAULT_CONFIG]. *)
Definition DEFAULT_CONFIG : config := {|
  max_threads := 16;
  user_agent := "Xternal-DownloadManager/1.0.0f2";
  proxy_enabled := false;
  proxy_type := "http";
  proxy_auth := false;
  proxy_username := "";
  proxy_password := "";
  proxy_host := "";
  proxy_port := "8080";
  blocked_extensions := [".exe"; ".scr"; ".bat"; ".cmd"];
  allowed_protocols := ["http"; "https"; "ftp"; "ftps"; "sftp"];
  resume_downloads := true;
  download_rate_limit_kbps := 0
|}.

(* ===================================================================== *)
(** ** Segment planner (first lines of [threaded_download_advanced]) *)
(* ===================================================================== *)

(** A planned task [(start, end, thread_id)]. *)
Definition task : Type := (Z * Z * Z)%type.

Definition task_start (t : task) : Z := t.1.1.
Definition task_end (t : task) : Z := t.1.2.
Definition task_id (t : task) : Z := t.2.

(** Number of bytes of the inclusive range of a task. *)
Definition task_len (t : task) : Z := task_end t - task_start t + 1.

(** [num_threads = min(CONFIG['max_threads'], 16)]. *)
Definition num_threads_of (cfg : config) : Z := Z.min (max_threads cfg) 16.

(** The body of the loop building [download_tasks]: the task of index [i]. *)
Definition task_of (num_threads chunk_size file_size i : Z) : task :=
  let start := i * chunk_size in
  let end_ := if i <? num_threads - 1
              then start + chunk_size - 1
              else file_size - 1 in
  (start, end_, i).

(** The loop building [download_tasks], for a given [num_threads] and
    [chunk_size]. *)
Definition download_tasks (num_threads chunk_size file_size : Z) : list task :=
  map (task_of num_threads chunk_size file_size) (range num_threads).

(** The plan for [n] workers: [chunk_size = file_size // n], then the loop. *)
Definition plan_segments (n file_size : Z) : result (list task) :=
  match floordiv file_size n with
  | Raise e => Raise e
  | Ok chunk_size => Ok (download_tasks n chunk_size file_size)
  end.

(** The plan as the source computes it from the configuration. *)
Definition plan (cfg : config) (file_size : Z) : result (list task) :=
  plan_segments (num_threads_of cfg) file_size.

(** Total number of bytes covered by a list of tasks. *)
Definition total_len (segs : list task) : Z :=
  foldr Z.add 0 (map task_len segs).

(** [CONFIG] after [CONFIG['max_threads'] = m] (what [load_config] does with
    the integer read from the configuration file). *)
Definition with_max_threads (m : Z) (cfg : config) : config :=
  {| max_threads := m;
     user_agent := user_agent cfg;
     proxy_enabled := proxy_enabled cfg;
     proxy_type := proxy_type cfg;
     proxy_auth := proxy_auth cfg;
     proxy_username := proxy_username cfg;
     proxy_password := proxy_password cfg;
     proxy_host := proxy_host cfg;
     proxy_port := proxy_port cfg;
     blocked_extensions := blocked_extensions cfg;
     allowed_protocols := allowed_protocols cfg;
     resume_downloads := resume_downloads cfg;
     download_rate_limit_kbps := download_rate_limit_kbps cfg |}.

(** [CONFIG] after [CONFIG['download_rate_limit_kbps'] = k]. *)
Definition with_rate_limit (k : Z) (cfg : config) : config :=
  {| max_threads := max_threads cfg;
     user_agent := user_agent cfg;
     proxy_enabled := proxy_enabled cfg;
     proxy_type := proxy_type cfg;
     proxy_auth := proxy_auth cfg;
     proxy_username := proxy_username cfg;
     proxy_password := proxy_password cfg;
     proxy_host := proxy_host cfg;
     proxy_port := proxy_port cfg;
     blocked_extensions := blocked_extensions cfg;
     allowed_protocols := allowed_protocols cfg;
     resume_downloads := resume_downloads cfg;
     download_rate_limit_kbps := k |}.

(* ===================================================================== *)
(** ** [urllib.parse.urlparse] (library function called by [validate_url]) *)
(* ===================================================================== *)

(** The six components of the tuple returned by [urlparse]. *)
Record ParseResult : Type := {
  scheme : string;
  netloc : string;
  path : string;
  params : string;
  query : string;
  fragment : string
}.

(** A model of CPython 3.12's [urlsplit] / [urlparse] on ASCII input, used
    to run the validator on concrete URLs.  The validator itself takes the
    parser as an argument and its general properties hold for any parser.
    The address check on a bracketed host ([_check_bracketed_host], which
    calls the [ipaddress] module) is the argument [bracketed_host_ok]. *)
Module Urllib.

Definition is_alpha (c : ascii) : bool :=
  let n := nat_of_ascii c in
  (((65 <=? n) && (n <=? 90)) || ((97 <=? n) && (n <=? 122)))%nat.

Definition is_digit (c : ascii) : bool :=
  let n := nat_of_ascii c in ((48 <=? n) && (n <=? 57))%nat.

(** [scheme_chars]: letters, digits and [+-.]. *)
Definition scheme_char (c : ascii) : bool :=
  is_alpha c || is_digit c ||
  Ascii.eqb c "+" || Ascii.eqb c "-" || Ascii.eqb c ".".

Fixpoint forall_chars (p : ascii -> bool) (s : string) : bool :=
  match s with
  | EmptyString => true
  | String c r => p c && forall_chars p r
  end.

Fixpoint filter_chars (p : ascii -> bool) (s : string) : string :=
  match s with
  | EmptyString => EmptyString
  | String c r => if p c then String c (filter_chars p r) else filter_chars p r
  end.

Fixpoint contains (c : ascii) (s : string) : bool :=
  match s with
  | EmptyString => false
  | String a r => Ascii.eqb a c || contains c r
  end.

(** [s.partition(c)] when [c] occurs: the text before and after its first
    occurrence. *)
Fixpoint split_first (c : ascii) (s : string) : option (string * string) :=
  match s with
  | EmptyString => None
  | String a r =>
      if Ascii.eqb a c then Some (EmptyString, r)
      else match split_first c r with
           | Some (p, q) => Some (String a p, q)
           | None => None
           end
  end.

(** The text up to and including the last [c], and the text after it. *)
Fixpoint split_last (c : ascii) (s : string) : option (string * string) :=
  match s with
  | EmptyString => None
  | String a r =>
      match split_last c r with
      | Some (p, q) => Some (String a p, q)
      | None => if Ascii.eqb a c then Some (String a EmptyString, r) else None
      end
  end.

(** [url.lstrip(_WHATWG_C0_CONTROL_OR_SPACE)]. *)
Fixpoint lstrip_c0 (s : string) : string :=
  match s with
  | EmptyString => EmptyString
  | String c r => if (nat_of_ascii c <=? 32)%nat then lstrip_c0 r else s
  end.

(** Removal of [_UNSAFE_URL_BYTES_TO_REMOVE] (tab, CR, LF). *)
Definition remove_unsafe (s : string) : string :=
  filter_chars (fun c => let n := nat_of_ascii c in
                         negb ((n =? 9) || (n =? 10) || (n =? 13))%nat) s.

(** The scheme test of [urlsplit]: [url[:i]] before the first colon, when
    [i > 0], [url[0]] is a letter and all of [url[:i]] are scheme
    characters. *)
Definition split_scheme (url : string) : string * string :=
  match split_first ":" url with
  | Some (String c0 pre, rest) =>
      if is_alpha c0 && forall_chars scheme_char (String c0 pre)
      then (lower (String c0 pre), rest)
      else (EmptyString, url)
  | _ => (EmptyString, url)
  end.

(** [_splitnetloc(url, 2)] on the text after the leading [//]. *)
Fixpoint splitnetloc (s : string) : string * string :=
  match s with
  | EmptyString => (EmptyString, EmptyString)
  | String c r =>
      if Ascii.eqb c "/" || Ascii.eqb c "?" || Ascii.eqb c "#"
      then (EmptyString, s)
      else let '(n, rest) := splitnetloc r in (String c n, rest)
  end.

(** [netloc.partition('[')[2].partition(']')[0]]. *)
Definition bracketed_host (netloc : string) : string :=
  match split_first "[" netloc with
  | Some (_, after) =>
      match split_first "]" after with
      | Some (h, _) => h
      | None => after
      end
  | None => EmptyString
  end.

Definition uses_params : list string :=
  [""; "ftp"; "hdl"; "prospero"; "http"; "imap"; "https"; "shttp"; "rtsp";
   "rtspu"; "sip"; "sips"; "mms"; "sftp"; "tel"].

(** [_splitparams]. *)
Definition splitparams (url : string) : string * string :=
  match split_last "/" url with
  | Some (dir, seg) =>
      match split_first ";" seg with
      | Some (a, b) => (dir +:+ a, b)
      | None => (url, EmptyString)
      end
  | None =>
      match split_first ";" url with
      | Some (a, b) => (a, b)
      | None => (url, EmptyString)
      end
  end.

Definition urlparse (bracketed_host_ok : string -> bool) (url0 : string)
  : result ParseResult :=
  let url := remove_unsafe (lstrip_c0 url0) in
  let '(scheme, url) := split_scheme url in
  let '(netloc, url) :=
    match url with
    | String "/" (String "/" r) => splitnetloc r
    | _ => (EmptyString, url)
    end in
  let lb := contains "[" netloc in
  let rb := contains "]" netloc in
  if (lb && negb rb) || (rb && negb lb)
  then Raise (ValueError "Invalid IPv6 URL")
  else if lb && rb && negb (bracketed_host_ok (bracketed_host netloc))
  then Raise (ValueError "Invalid bracketed host")
  else
    let '(url, fragment) :=
      match split_first "#" url with
      | Some (a, b) => (a, b)
      | None => (url, EmptyString)
      end in
    let '(url, query) :=
      match split_first "?" url with
      | Some (a, b) => (a, b)
      | None => (url, EmptyString)
      end in
    let '(url, params) :=
      if str_in scheme uses_params && contains ";" url
      then splitparams url
      else (url, EmptyString) in
    Ok {| scheme := scheme; netloc := netloc; path := url;
          params := params; query := query; fragment := fragment |}.

(** A bracketed-host check that accepts every host; the URLs evaluated in
    this file contain no bracket. *)
Definition any_bracketed_host (h : string) : bool := true.


End Urllib.

(* ===================================================================== *)
(** ** URL and policy validator: [validate_url] *)
(* ===================================================================== *)

(** [str(e)] for the exceptions of the model. *)
Definition exn_str (e : exn) : string :=
  match e with
  | ZeroDivisionError => "integer division or modulo by zero"
  | ValueError msg => msg
  | RequestException msg => msg
  | OSError msg => msg
  end.

Definition suspicious_domains : list string :=
  ["localhost"; "127.0.0.1"; "0.0.0.0"].

(** The list comprehension
    [[ext for ext in CONFIG['blocked_extensions'] if path.endswith(ext)]]. *)
Definition blocked_ext_of (cfg : config) (path : string) : list string :=
  List.filter (fun ext => endswith path ext) (blocked_extensions cfg).

(** [validate_url(url)]: the pair [(is_valid, message)].  [urlparse] is the
    library parser; an exception raised by it is caught by the function's
    [except Exception] clause. *)
Definition validate_url (urlparse : string -> result ParseResult)
    (cfg : config) (url : string) : bool * string :=
  match urlparse url with
  | Raise e => (false, "URL validation error: " +:+ exn_str e)
  | Ok parsed =>
      if negb (str_in (scheme parsed) (allowed_protocols cfg))
      then (false, "Protocol '" +:+ scheme parsed +:+ "' not allowed")
      else if String.eqb (netloc parsed) ""
      then (false, "Invalid hostname")
      else if str_in (lower (netloc parsed)) suspicious_domains
              && negb (startswith url "http://localhost")
      then (false, "Suspicious domain detected")
      else
        let path := lower (path parsed) in
        match blocked_ext_of cfg path with
        | ext :: _ => (false, "Blocked file type: " +:+ ext)
        | [] => (true, "Valid URL")
        end
  end.

(* ===================================================================== *)
(** ** The world: files, clock, network, and the trace of operations *)
(* ===================================================================== *)

Inductive open_mode : Type := WB | AB | RB.

(** A request sent with [session.get]: URL, headers (in the order the
    source inserts them in the dictionary) and [session.proxies]. *)
Record request : Type := Request {
  req_url : string;
  req_headers : list (string * string);
  req_proxies : option string
}.

(** What a GET produces: either [session.get] / [raise_for_status] raises,
    or the body arrives as the chunks yielded by [iter_content], each after
    a network delay in seconds, possibly followed by an exception raised by
    the stream. *)
Inductive response : Type :=
| Refused (e : exn)
| Stream (chunks : list (Q * list byte)) (failure : option exn).

(** The operations of a run that are visible from outside. *)
Inductive event : Type :=
| EvHead (url : string)
| EvGet (r : request)
| EvOpen (path : string) (m : open_mode)
| EvWrite (path : string) (data : list byte)
| EvRemove (path : string)
| EvSleep (d : Q).

(** The entries of [file_info] read by the download functions. *)
Record file_info : Type := FileInfo {
  file_size : Z;
  supports_resume : bool;
  filename : string
}.

(** The collaborators outside the program: the server, and the interactive
    part of [professional_download] between the probe and the transfer
    (file name, disk-space check, renaming, confirmation prompt), which
    yields the destination path or [None] when the function gives up
    there. *)
Record environment : Type := Environment {
  http_head : string -> file_info + string;
  http_get : request -> response;
  prepare : file_info -> gmap string (list byte) -> option string
}.

Record world : Type := World {
  files : gmap string (list byte);
  now : Q;
  trace : list event
}.

Definition set_files (f : gmap string (list byte) -> gmap string (list byte))
    (w : world) : world :=
  {| files := f (files w); now := now w; trace := trace w |}.

Definition set_now (t : Q) (w : world) : world :=
  {| files := files w; now := t; trace := trace w |}.

Definition emit (e : event) (w : world) : world :=
  {| files := files w; now := now w; trace := trace w ++ [e] |}.

(** State-and-exception monad over the world. *)
Definition M (A : Type) : Type := world -> result A * world.

Global Instance M_ret : MRet M := fun A a w => (Ok a, w).

Global Instance M_bind : MBind M := fun A B k m w =>
  match m w with
  | (Ok a, w') => k a w'
  | (Raise e, w') => (Raise e, w')
  end.

Definition raise {A} (e : exn) : M A := fun w => (Raise e, w).

(** [try: m  except Exception: h]. *)
Definition try_except {A} (m : M A) (h : exn -> M A) : M A :=
  fun w => match m w with
           | (Ok a, w') => (Ok a, w')
           | (Raise e, w') => h e w'
           end.

(** [os.path.exists(p)]. *)
Definition path_exists (p : string) : M bool :=
  fun w => (Ok (bool_decide (is_Some (files w !! p))), w).

(** [os.path.getsize(p)]. *)
Definition getsize (p : string) : M Z :=
  fun w => match files w !! p with
           | Some c => (Ok (Z.of_nat (length c)), w)
           | None => (Raise (OSError "No such file or directory"), w)
           end.

(** [open(p, mode)]: ['wb'] creates or truncates, ['ab'] creates when
    missing, ['rb'] needs the file.  The file system of the model refuses
    nothing else: an open for writing that fails in the source (missing
    directory, permissions, full disk) has no counterpart here. *)
Definition open_file (p : string) (m : open_mode) : M unit :=
  fun w =>
    match m with
    | WB => (Ok tt, emit (EvOpen p WB) (set_files (insert p []) w))
    | AB => (Ok tt, emit (EvOpen p AB)
                      (set_files (fun fs => match fs !! p with
                                            | Some _ => fs
                                            | None => <[p := []]> fs
                                            end) w))
    | RB => match files w !! p with
            | Some _ => (Ok tt, emit (EvOpen p RB) w)
            | None => (Raise (OSError "No such file or directory"), w)
            end
    end.

(** [f.write(data)] on the file opened at [p]: the bytes go to its end.
    A write never fails in the model (no full disk). *)
Definition write (p : string) (data : list byte) : M unit :=
  fun w => (Ok tt, emit (EvWrite p data)
                     (set_files (alter (fun c => c ++ data) p) w)).

(** The whole content of the file at [p]. *)
Definition read_all (p : string) : M (list byte) :=
  fun w => match files w !! p with
           | Some c => (Ok c, w)
           | None => (Raise (OSError "No such file or directory"), w)
           end.

(** [os.remove(p)]. *)
Definition remove (p : string) : M unit :=
  fun w => match files w !! p with
           | Some _ => (Ok tt, emit (EvRemove p) (set_files (delete p) w))
           | None => (Raise (OSError "No such file or directory"), w)
           end.

(** The current state of the file system. *)
Definition current_files : M (gmap string (list byte)) :=
  fun w => (Ok (files w), w).

(** [time.time()]. *)
Definition time_time : M Q := fun w => (Ok (now w), w).

(** [time.sleep(d)]. *)
Definition sleep (d : Q) : M unit :=
  fun w => (Ok tt, emit (EvSleep d) (set_now (now w + d)%Q w)).

(** Time spent waiting for the network. *)
Definition wait (d : Q) : M unit :=
  fun w => (Ok tt, set_now (now w + d)%Q w).

(** [for x in xs: body(x)] with a loop-carried value. *)
Fixpoint for_each {A S} (xs : list A) (body : A -> S -> M S) (s : S) : M S :=
  match xs with
  | [] => mret s
  | x :: rest => s' ← body x s; for_each rest body s'
  end.

(* ===================================================================== *)
(** ** The download functions *)
(* ===================================================================== *)

(** The sink of worker [thread_id]: [f"{filepath}.part{thread_id}"]. *)
Definition part_file (filepath : string) (thread_id : Z) : string :=
  filepath +:+ ".part" +:+ pretty thread_id.

(** Truth value of a worker's result ([None] or a path). *)
Definition truthy (r : option string) : bool :=
  match r with
  | Some s => negb (String.eqb s "")
  | None => false
  end.

Section Engine.

Variable cfg : config.
Variable env : environment.

(** The [session.proxies] set up at the start of each download function. *)
Definition session_proxies : option string :=
  if proxy_enabled cfg
  then Some (proxy_type cfg +:+ "://" +:+
             (if proxy_auth cfg
              then proxy_username cfg +:+ ":" +:+ proxy_password cfg +:+ "@"
              else "") +:+
             proxy_host cfg +:+ ":" +:+ proxy_port cfg)
  else None.

(** [session.get(...)] followed by [response.raise_for_status()]: the
    request is recorded, and the chunks of the body are returned. *)
Definition session_get (r : request)
  : M (list (Q * list byte) * option exn) :=
  fun w =>
    match http_get env r with
    | Refused e => (Raise e, emit (EvGet r) w)
    | Stream chunks failure => (Ok (chunks, failure), emit (EvGet r) w)
    end.

(** The end of [for chunk in response.iter_content(...)]: the stream
    either ends or raises. *)
Definition end_of_stream (failure : option exn) : M unit :=
  match failure with
  | Some e => raise e
  | None => mret tt
  end.

(** The rate-limiting block of [simple_download_advanced], run after a
    chunk of [len] bytes was written; yields the new [last_time]. *)
Definition rate_limit (len : Z) (last_time : Q) : M Q :=
  if download_rate_limit_kbps cfg >? 0 then
    current_time ← time_time;
    let elapsed := (current_time - last_time)%Q in
    let expected_time :=
      (inject_Z len / inject_Z (download_rate_limit_kbps cfg * 1024))%Q in
    (if Qlt_le_dec elapsed expected_time
     then sleep (expected_time - elapsed)%Q
     else mret tt);;
    mret current_time
  else mret last_time.

(** The body of the chunk loop of [simple_download_advanced]: the chunk
    arrives after [delay]; a non-empty chunk is written and the rate
    limiter runs. *)
Definition store_chunk_limited (filepath : string)
    (item : Q * list byte) (last_time : Q) : M Q :=
  let '(delay, chunk) := item in
  wait delay;;
  match chunk with
  | [] => mret last_time
  | _ :: _ =>
      write filepath chunk;;
      rate_limit (Z.of_nat (length chunk)) last_time
  end.

(** The body of the chunk loop of [download_chunk]: a non-empty chunk is
    written to the sink. *)
Definition store_chunk (temp_file : string)
    (item : Q * list byte) (_ : unit) : M unit :=
  let '(delay, chunk) := item in
  wait delay;;
  match chunk with
  | [] => mret tt
  | _ :: _ => write temp_file chunk
  end.

(** [simple_download_advanced(url, filepath, file_info)]. *)
Definition simple_download_advanced (url filepath : string)
    (info : file_info) : M bool :=
  ex ← path_exists filepath;
  resume_pos ← (if ex && resume_downloads cfg
                then getsize filepath else mret 0);
  if ex && resume_downloads cfg && (resume_pos =? file_size info)
  then mret true
  else
    let headers :=
      ("User-Agent", user_agent cfg) ::
      (if resume_pos >? 0
       then [("Range", "bytes=" +:+ pretty resume_pos +:+ "-")]
       else []) in
    let mode := if resume_pos >? 0 then AB else WB in
    '(chunks, failure) ← session_get
       {| req_url := url; req_headers := headers;
          req_proxies := session_proxies |};
    last_time ← time_time;
    open_file filepath mode;;
    for_each chunks (store_chunk_limited filepath) last_time;;
    end_of_stream failure;;
    mret true.

(** The worker [download_chunk(start_byte, end_byte, thread_id)] of
    [threaded_download_advanced]. *)
Definition download_chunk (url filepath : string)
    (start_byte end_byte thread_id : Z) : M (option string) :=
  try_except
    ('(chunks, failure) ← session_get
       {| req_url := url;
          req_headers :=
            [("Range", "bytes=" +:+ pretty start_byte +:+ "-" +:+
                       pretty end_byte);
             ("User-Agent", user_agent cfg)];
          req_proxies := session_proxies |};
     let temp_file := part_file filepath thread_id in
     open_file temp_file WB;;
     for_each chunks (store_chunk temp_file) tt;;
     end_of_stream failure;;
     mret (Some temp_file))
    (fun _ => mret None).

(** The thread pool: the workers of [tasks] run to completion one after
    the other in the order [order] (indices into [tasks]); the result of
    the future of task [i] is stored at [i]. *)
Fixpoint run_workers (url filepath : string) (tasks : list task)
    (order : list nat) (results : gmap nat (option string))
  : M (gmap nat (option string)) :=
  match order with
  | [] => mret results
  | i :: rest =>
      match tasks !! i with
      | Some (start_byte, end_byte, thread_id) =>
          r ← download_chunk url filepath start_byte end_byte thread_id;
          run_workers url filepath tasks rest (<[i := r]> results)
      | None => run_workers url filepath tasks rest results
      end
  end.

(** [[f.result() for f in futures if f.result()]]. *)
Definition temp_files_of (n : nat) (results : gmap nat (option string))
  : list string :=
  omap (fun i => match results !! i with
                 | Some r => if truthy r then r else None
                 | None => None
                 end)
       (seq 0 n).

(** The body of the combining loop for index [i]. *)
Definition combine_part (filepath : string) (i : Z) : M unit :=
  ex ← path_exists (part_file filepath i);
  let temp_file := part_file filepath i in
  if (ex : bool) then
    open_file temp_file RB;;
    data ← read_all temp_file;
    write filepath data;;
    remove temp_file
  else mret tt.

(** The body of the clean-up loop for index [i]. *)
Definition discard_part (filepath : string) (i : Z) : M unit :=
  ex ← path_exists (part_file filepath i);
  let temp_file := part_file filepath i in
  if (ex : bool) then remove temp_file else mret tt.

(** The final [if len(temp_files) == num_threads: ... else: ...]. *)
Definition reassemble (filepath : string) (num_threads : Z)
    (temp_files : list string) : M bool :=
  if Z.of_nat (length temp_files) =? num_threads then
    open_file filepath WB;;
    for_each (range num_threads)
      (fun i (_ : unit) => combine_part filepath i) tt;;
    mret true
  else
    for_each (range num_threads)
      (fun i (_ : unit) => discard_part filepath i) tt;;
    mret false.

(** [threaded_download_advanced(url, filepath, file_info)], with the order
    [order] in which the pool completes the workers.
    [ThreadPoolExecutor(max_workers=n)] raises [ValueError] when
    [n <= 0]. *)
Definition threaded_download_advanced (order : list nat)
    (url filepath : string) (info : file_info) : M bool :=
  let num_threads := num_threads_of cfg in
  match plan_segments num_threads (file_size info) with
  | Raise e => raise e
  | Ok tasks =>
      if num_threads <=? 0
      then raise (ValueError "max_workers must be greater than 0")
      else
        results ← run_workers url filepath tasks order ∅;
        reassemble filepath num_threads
          (temp_files_of (length tasks) results)
  end.

(** [get_file_info_advanced(url)]: the HEAD probe. *)
Definition get_file_info_advanced (url : string) : M (file_info + string) :=
  fun w => (Ok (http_head env url), emit (EvHead url) w).

(** [professional_download(url)]: validation gate, probe, preparation of
    the destination (the environment's [prepare]), then the routing to one
    of the two download functions inside [try ... except].  The value is
    [Some b] for [return b] and [None] when the function ends without
    [return] (a download function returned [False]).  A failed probe
    carries its message, taken to be non-empty.  Statistics, history and
    the hash display after a success are not modelled. *)
Definition professional_download
    (urlparse : string -> result ParseResult) (order : list nat)
    (url : string) : M (option bool) :=
  let '(is_valid, validation_msg) := validate_url urlparse cfg url in
  if negb is_valid then mret (Some false)
  else
    probe ← get_file_info_advanced url;
    match probe with
    | inr error => mret (Some false)
    | inl info =>
        fs ← current_files;
        match prepare env info fs with
        | None => mret (Some false)
        | Some filepath =>
            try_except
              (success ←
                 (if (file_size info >? 10 * 1024 * 1024)
                     && supports_resume info
                  then threaded_download_advanced order url filepath info
                  else simple_download_advanced url filepath info);
               if (success : bool) then mret (Some true) else mret None)
              (fun _ => mret (Some false))
        end
    end.

End Engine.

(* ===================================================================== *)
(** ** Vocabulary of the statements *)
(* ===================================================================== *)

(** The bytes of a streamed body. *)
Definition body_of (chunks : list (Q * list byte)) : list byte :=
  concat (map snd chunks).

(** The chunks of a stream that are not empty. *)
Definition nonempty_chunks (chunks : list (Q * list byte)) : list (list byte) :=
  List.filter (fun c => match c with [] => false | _ :: _ => true end)
              (map snd chunks).

(** The bytes of [resource] in the inclusive range [[start_byte, end_byte]]. *)
Definition range_bytes (resource : list byte) (start_byte end_byte : Z)
  : list byte :=
  take (Z.to_nat (end_byte - start_byte + 1)) (drop (Z.to_nat start_byte) resource).

(** The contents of the sinks of the indices [l] that exist in [fs], in the
    order of [l]. *)
Definition sinks_of (fp : string) (fs : gmap string (list byte))
    (l : list Z) : list (list byte) :=
  omap (fun i => fs !! part_file fp i) l.

(** The operations of the combining loop over the indices [l] when it
    starts from the files [fs]: each existing sink is opened, copied to the
    destination and then removed. *)
Definition combine_events (fp : string) (fs : gmap string (list byte))
    (l : list Z) : list event :=
  concat (map (fun i => match fs !! part_file fp i with
                        | Some d => [EvOpen (part_file fp i) RB;
                                     EvWrite fp d;
                                     EvRemove (part_file fp i)]
                        | None => []
                        end) l).

(** The [time.sleep] calls of a trace. *)
Definition sleeps (tr : list event) : list Q :=
  omap (fun e => match e with EvSleep d => Some d | _ => None end) tr.

(** The request of a segment worker for the range [[start_byte, end_byte]]. *)
Definition range_request (cfg : config) (url : string)
    (start_byte end_byte : Z) : request :=
  {| req_url := url;
     req_headers :=
       [("Range", "bytes=" +:+ pretty start_byte +:+ "-" +:+ pretty end_byte);
        ("User-Agent", user_agent cfg)];
     req_proxies := session_proxies cfg |}.

(** The request of the single-stream download that resumes at [pos]. *)
Definition resume_request (cfg : config) (url : string) (pos : Z) : request :=
  {| req_url := url;
     req_headers :=
       [("User-Agent", user_agent cfg);
        ("Range", "bytes=" +:+ pretty pos +:+ "-")];
     req_proxies := session_proxies cfg |}.

(** The request of the single-stream download from the first byte. *)
Definition plain_request (cfg : config) (url : string) : request :=
  {| req_url := url;
     req_headers := [("User-Agent", user_agent cfg)];
     req_proxies := session_proxies cfg |}.

(** The position at which [simple_download_advanced] resumes: the length of
    the destination when it exists and resuming is enabled, else 0. *)
Definition resume_pos_of (cfg : config) (fs : gmap string (list byte))
    (fp : string) : Z :=
  match fs !! fp with
  | Some c => if resume_downloads cfg then Z.of_nat (length c) else 0
  | None => 0
  end.

(** The test "file already complete" of [simple_download_advanced]. *)
Definition already_complete (cfg : config) (fs : gmap string (list byte))
    (fp : string) (size : Z) : bool :=
  match fs !! fp with
  | Some c => resume_downloads cfg && (Z.of_nat (length c) =? size)
  | None => false
  end.

(** The request and the open mode of [simple_download_advanced] for a
    resume position. *)
Definition simple_request (cfg : config) (url : string) (pos : Z) : request :=
  if pos >? 0 then resume_request cfg url pos else plain_request cfg url.

Definition simple_mode (pos : Z) : open_mode := if pos >? 0 then AB else WB.

(** An event that writes to [fp] or sleeps. *)
Definition write_or_sleep (fp : string) (e : event) : Prop :=
  (exists d, e = EvWrite fp d) \/ (exists d, e = EvSleep d).

(* ===================================================================== *)
(** ** A small session used to run the functions *)
(* ===================================================================== *)

Module Demo.

(** A resource of seven bytes, fetched by three workers. *)
Definition resource : list byte := [x01; x02; x03; x04; x05; x06; x07]%byte.

Definition cfg : config := with_max_threads 3 DEFAULT_CONFIG.

Definition info : file_info :=
  {| file_size := 7; supports_resume := true; filename := "f.bin" |}.

Definition url : string := "https://example.com/f.bin".

Definition filepath : string := "dl/f.bin".

(** The value of a header of a request. *)
Fixpoint header (k : string) (hs : list (string * string)) : option string :=
  match hs with
  | [] => None
  | (a, b) :: rest => if String.eqb a k then Some b else header k rest
  end.

(** A server that honours the ranges asked for in this session; the
    second segment arrives in two chunks with an empty one in between. *)
Definition server (r : request) : response :=
  match header "Range" (req_headers r) with
  | None => Stream [(1 # 1000, resource)]%Q None
  | Some v =>
      if String.eqb v "bytes=0-1" then
        Stream [(1 # 1000, [x01; x02]%byte)]%Q None
      else if String.eqb v "bytes=2-3" then
        Stream [(1 # 1000, [x03]%byte); (0, []); (1 # 1000, [x04]%byte)]%Q None
      else if String.eqb v "bytes=4-6" then
        Stream [(1 # 1000, [x05; x06; x07]%byte)]%Q None
      else if String.eqb v "bytes=3-" then
        Stream [(0, [x04; x05]%byte); (0, [x06; x07]%byte)]%Q None
      else Refused (RequestException "416 Range Not Satisfiable")
  end.

(** The same server, except that the stream of the second segment breaks
    after its first byte. *)
Definition flaky_server (r : request) : response :=
  match header "Range" (req_headers r) with
  | Some v =>
      if String.eqb v "bytes=2-3" then
        Stream [(1 # 1000, [x03]%byte)]%Q (Some (RequestException "Read timed out"))
      else server r
  | None => server r
  end.

Definition env_of (srv : request -> response) : environment :=
  {| http_head := fun _ => inl info;
     http_get := srv;
     prepare := fun _ _ => Some filepath |}.



(** The probe of a resource of 16 MiB on a server with range support. *)
Definition info_big : file_info :=
  {| file_size := 16777216; supports_resume := true; filename := "f.bin" |}.

Definition env_big (srv : request -> response) : environment :=
  {| http_head := fun _ => inl info_big;
     http_get := srv;
     prepare := fun _ _ => Some filepath |}.

(** A server that refuses every request. *)
Definition refusing_server (r : request) : response :=
  Refused (RequestException "Connection refused").

(** The world before the download: no file, clock at zero. *)
Definition w0 : world := {| files := ∅; now := 0; trace := [] |}.

(** The world in which the first three bytes are already on disk. *)
Definition w_partial : world :=
  {| files := {[ filepath := [x01; x02; x03]%byte ]}; now := 0; trace := [] |}.


(** The world in which the first and the third sink exist and the second
    does not. *)
Definition w_missing_sink : world :=
  {| files := {[ part_file filepath 0 := [x01; x02]%byte;
                 part_file filepath 2 := [x05; x06; x07]%byte ]};
     now := 0; trace := [] |}.

End Demo.

(* ===================================================================== *)
(** ** Further vocabulary: workers by the answer of the server *)
(* ===================================================================== *)

(** What the worker of a task returns, read off the answer of the server. *)
Definition worker_result (cfg : config) (env : environment) (url fp : string)
    (t : task) : option string :=
  match http_get env (range_request cfg url (task_start t) (task_end t)) with
  | Stream _ None => Some (part_file fp (task_id t))
  | _ => None
  end.

(** The content of the sink that the worker of a task leaves, when it gets
    as far as opening it. *)
Definition worker_sink (cfg : config) (env : environment) (url : string)
    (t : task) : option (list byte) :=
  match http_get env (range_request cfg url (task_start t) (task_end t)) with
  | Stream chunks _ => Some (body_of chunks)
  | Refused _ => None
  end.

(** An ASCII upper-case letter. *)
Definition is_upper (c : ascii) : bool :=
  let n := nat_of_ascii c in ((65 <=? n) && (n <=? 90))%nat.

(** Does the string contain an ASCII upper-case letter? *)
Fixpoint has_upper (s : string) : bool :=
  match s with
  | EmptyString => false
  | String c r => is_upper c || has_upper r
  end.

(* ===================================================================== *)
(** ** More Python primitives: [strip], [split], [join], [int], [isdigit] *)
(* ===================================================================== *)

(** The functions of this module are Python's on ASCII text (code points
    below 128); a statement about an arbitrary input carries [ascii_text] as
    a hypothesis. *)
Module PyStr.

Definition is_ascii (c : ascii) : bool := (nat_of_ascii c <? 128)%nat.

Definition ascii_text (s : string) : bool := Urllib.forall_chars is_ascii s.

(** The ASCII characters for which [isspace()] holds, the ones that
    [strip()] removes. *)
Definition is_space (c : ascii) : bool :=
  let n := nat_of_ascii c in
  (((9 <=? n) && (n <=? 13)) || ((28 <=? n) && (n <=? 32)))%nat.

(** The characters that [int()] skips around a literal (C's [isspace]). *)
Definition is_c_space (c : ascii) : bool :=
  let n := nat_of_ascii c in
  (((9 <=? n) && (n <=? 13)) || (n =? 32))%nat.

(** Removal of the leading characters that satisfy [p]. *)
Fixpoint lstrip_by (p : ascii -> bool) (s : string) : string :=
  match s with
  | EmptyString => EmptyString
  | String c r => if p c then lstrip_by p r else s
  end.

(** Removal of the trailing characters that satisfy [p]. *)
Fixpoint rstrip_by (p : ascii -> bool) (s : string) : string :=
  match s with
  | EmptyString => EmptyString
  | String c r =>
      match rstrip_by p r with
      | EmptyString => if p c then EmptyString else String c EmptyString
      | r' => String c r'
      end
  end.

(** [s.strip()]. *)
Definition strip (s : string) : string :=
  rstrip_by is_space (lstrip_by is_space s).

(** [s.split(c)] for a one-character separator. *)
Fixpoint split (c : ascii) (s : string) : list string :=
  match s with
  | EmptyString => [EmptyString]
  | String a r =>
      if Ascii.eqb a c then EmptyString :: split c r
      else match split c r with
           | h :: t => String a h :: t
           | [] => [String a EmptyString]
           end
  end.

(** [sep.join(l)]. *)
Fixpoint join (sep : string) (l : list string) : string :=
  match l with
  | [] => EmptyString
  | [x] => x
  | x :: rest => x +:+ sep +:+ join sep rest
  end.

(** [s.isdigit()]. *)
Definition isdigit (s : string) : bool :=
  match s with
  | EmptyString => false
  | _ => Urllib.forall_chars Urllib.is_digit s
  end.

Definition digit_value (c : ascii) : option N :=
  if Urllib.is_digit c then Some (N.of_nat (nat_of_ascii c - 48)) else None.

(** The digits of a decimal literal, in which single underscores may
    separate digits; [prev_digit] tells whether the previous character was a
    digit. *)
Fixpoint parse_digits (s : string) (acc : N) (prev_digit : bool) : option N :=
  match s with
  | EmptyString => if prev_digit then Some acc else None
  | String c r =>
      match digit_value c with
      | Some d => parse_digits r (acc * 10 + d)%N true
      | None =>
          if Ascii.eqb c "_" && prev_digit then parse_digits r acc false
          else None
      end
  end.

Fixpoint count_digits (s : string) : nat :=
  match s with
  | EmptyString => 0
  | String c r => (if Urllib.is_digit c then 1 else 0) + count_digits r
  end.

(** [int(s)]: white space around the literal, an optional sign, decimal
    digits; [None] when [int] raises [ValueError] (not a literal, or more
    than 4300 digits). *)
Definition int (s : string) : option Z :=
  let t := rstrip_by is_c_space (lstrip_by is_c_space s) in
  let '(negative, body) :=
    match t with
    | String "-" r => (true, r)
    | String "+" r => (false, r)
    | _ => (false, t)
    end in
  match parse_digits body 0 false with
  | Some n =>
      if (4300 <? count_digits body)%nat then None
      else Some (if negative then - Z.of_N n else Z.of_N n)
  | None => None
  end.

(** [str(b)] for a boolean. *)
Definition str_of_bool (b : bool) : string := if b then "True" else "False".

(** [str(z)] for an integer; [None] when [str] raises [ValueError] (more
    than 4300 digits). *)
Definition str_of_int (z : Z) : option string :=
  if (4300 <? count_digits (pretty z))%nat then None else Some (pretty z).

End PyStr.

(* ===================================================================== *)
(** ** [load_config] and [save_config]: the conversions *)
(* ===================================================================== *)

(** The values of the [CONFIG] dictionary: booleans, integers, lists of
    strings and strings. *)
Inductive value : Type :=
| VBool (b : bool)
| VInt (z : Z)
| VList (l : list string)
| VStr (s : string).

(** [CONFIG] as an ordered dictionary. *)
Definition config_dict : Type := list (string * value).

(** [CONFIG[key]]. *)
Fixpoint dict_get (key : string) (d : config_dict) : option value :=
  match d with
  | [] => None
  | (k, v) :: rest => if String.eqb k key then Some v else dict_get key rest
  end.

(** The type tests of [load_config] ([isinstance] on the current value). *)
Definition same_type (a b : value) : bool :=
  match a, b with
  | VBool _, VBool _ | VInt _, VInt _ | VList _, VList _ | VStr _, VStr _ =>
      true
  | _, _ => false
  end.

(** The list expression
    [[item.strip() for item in text.split(',') if item.strip()]] of
    [load_config] and of the blocked-extension prompt of
    [configure_security]. *)
Definition parse_list (text : string) : list string :=
  List.filter (fun item => negb (String.eqb item ""))
    (map PyStr.strip (PyStr.split "," text)).

(** The conversion of [load_config] for a key whose current value is
    [current] and whose text in the file is [text]; [None] when it raises
    ([int] on a text that is no integer). *)
Definition convert (current : value) (text : string) : option value :=
  match current with
  | VBool _ => Some (VBool (str_in (lower text) ["true"; "1"; "yes"; "on"]))
  | VInt _ => z ← PyStr.int text; Some (VInt z)
  | VList _ => Some (VList (parse_list text))
  | VStr _ => Some (VStr text)
  end.

(** The section [XTERNAL] of the configuration file as [configparser]
    presents it to the loop: for a key, [None] when [key in section] is
    false, [Some None] when [section[key]] raises (an interpolation error)
    and [Some (Some text)] when it yields [text]. *)
Definition section_view : Type := string -> option (option string).

(** The loop [for key in CONFIG: if key in section: ...] of [load_config]:
    the dictionary after the loop, and whether an exception ended it (the
    keys after a failing one are not reached). *)
Fixpoint load_entries (section : section_view) (entries : config_dict)
  : config_dict * bool :=
  match entries with
  | [] => ([], false)
  | (key, current) :: rest =>
      match section key with
      | None =>
          let '(rest', failed) := load_entries section rest in
          ((key, current) :: rest', failed)
      | Some None => ((key, current) :: rest, true)
      | Some (Some text) =>
          match convert current text with
          | Some v =>
              let '(rest', failed) := load_entries section rest in
              ((key, v) :: rest', failed)
          | None => ((key, current) :: rest, true)
          end
      end
  end.

(** [load_config()]: [file] is the section [XTERNAL] of the configuration
    file, or [None] when the file is missing, cannot be parsed or has no
    such section.  An exception raised in the loop is caught and only
    reported. *)
Definition load_config (file : option section_view) (CONFIG : config_dict)
  : config_dict :=
  match file with
  | None => CONFIG
  | Some section => (load_entries section CONFIG).1
  end.

(** The text that [save_config] stores for a value; [None] when [str]
    raises. *)
Definition render (v : value) : option string :=
  match v with
  | VBool b => Some (PyStr.str_of_bool b)
  | VInt z => PyStr.str_of_int z
  | VList l => Some (PyStr.join ", " l)
  | VStr s => Some s
  end.

(** A list item that comes back from its text: not empty, no comma, no
    white space at either end. *)
Definition clean_item (item : string) : Prop :=
  item <> "" /\ Urllib.contains "," item = false /\ PyStr.strip item = item.

(** A value that comes back from its text. *)
Definition clean_value (v : value) : Prop :=
  match v with
  | VList l => Forall clean_item l
  | _ => True
  end.

(** The strings inside a value are ASCII text. *)
Definition ascii_value (v : value) : Prop :=
  match v with
  | VList l => Forall (fun item => PyStr.ascii_text item = true) l
  | VStr s => PyStr.ascii_text s = true
  | _ => True
  end.

(** The texts that the section holds for the keys of [CONFIG] are ASCII
    text. *)
Definition ascii_section (section : section_view) (CONFIG : config_dict)
  : bool :=
  forallb (fun entry => match section entry.1 with
                        | Some (Some text) => PyStr.ascii_text text
                        | _ => true
                        end) CONFIG.

(* ===================================================================== *)
(** ** Two prompts of the configuration menus *)
(* ===================================================================== *)

(** [configure_download_behavior], prompt 1:
    [if threads.isdigit(): CONFIG['max_threads'] = max(1, min(32,
    int(threads)))]; [None] when [int] raises. *)
Definition set_max_threads (threads : string) (cfg : config) : option config :=
  if PyStr.isdigit threads then
    z ← PyStr.int threads;
    Some (with_max_threads (Z.max 1 (Z.min 32 z)) cfg)
  else Some cfg.

(** [CONFIG] after [CONFIG['blocked_extensions'] = l]. *)
Definition with_blocked_extensions (l : list string) (cfg : config) : config :=
  {| max_threads := max_threads cfg;
     user_agent := user_agent cfg;
     proxy_enabled := proxy_enabled cfg;
     proxy_type := proxy_type cfg;
     proxy_auth := proxy_auth cfg;
     proxy_username := proxy_username cfg;
     proxy_password := proxy_password cfg;
     proxy_host := proxy_host cfg;
     proxy_port := proxy_port cfg;
     blocked_extensions := l;
     allowed_protocols := allowed_protocols cfg;
     resume_downloads := resume_downloads cfg;
     download_rate_limit_kbps := download_rate_limit_kbps cfg |}.

(** [configure_security], prompt 4, once the user chose to modify the list:
    [if blocked_input.strip(): CONFIG['blocked_extensions'] = [...]]. *)
Definition set_blocked_extensions (blocked_input : string) (cfg : config)
  : config :=
  if String.eqb (PyStr.strip blocked_input) "" then cfg
  else with_blocked_extensions (parse_list blocked_input) cfg.

(* ===================================================================== *)
(** ** The size label of [get_file_info_advanced] *)
(* ===================================================================== *)

(** What the last lines of [get_file_info_advanced] do about the entry
    [file_size_formatted]: the text ["Unknown"], a scaled size with its
    unit, no entry at all (the loop over the units ends without [break]),
    or an [OverflowError] (which the function's [except] turns into a
    failed probe). *)
Inductive size_label : Type :=
| SizeUnknown
| SizeScaled (v : Q) (unit : string)
| SizeMissing
| SizeOverflow.

(** The loop [for unit in [...]: if size_bytes < 1024: ...; break;
    size_bytes /= 1024]. *)
Fixpoint scale_size (size_bytes : Q) (units : list string) : size_label :=
  match units with
  | [] => SizeMissing
  | unit :: rest =>
      if Qlt_le_dec size_bytes 1024 then SizeScaled size_bytes unit
      else scale_size (size_bytes / 1024)%Q rest
  end.

(** The first [size_bytes /= 1024] divides an integer and raises
    [OverflowError] when the quotient rounds to [2 ^ 1024]. *)
Definition true_divide_overflows (size_bytes : Z) : bool :=
  2 ^ 1034 - 2 ^ 980 <=? size_bytes.

(** The label for [info['file_size']].  The divisions are floating-point
    ones; they are exact (a division by a power of two) for a size below
    [2 ^ 53], and every labelled size is below [2 ^ 40]. *)
Definition file_size_formatted (file_size : Z) : size_label :=
  if file_size >? 0 then
    if true_divide_overflows file_size then SizeOverflow
    else scale_size (inject_Z file_size) ["B"; "KB"; "MB"; "GB"]
  else SizeUnknown.

(* ===================================================================== *)
(** ** The batch mode of [main] *)
(* ===================================================================== *)

(** Truth value of what [professional_download] returns. *)
Definition succeeded (r : option bool) : bool :=
  match r with Some true => true | _ => false end.

(** The loop over the URLs of the batch file, counting the successes;
    [order_of] gives the completion order of the pool for each URL. *)
Definition batch_loop (cfg : config) (env : environment)
    (urlparse : string -> result ParseResult) (order_of : string -> list nat)
    (urls : list string) : M Z :=
  for_each urls
    (fun url successful =>
       r ← professional_download cfg env urlparse (order_of url) url;
       mret (if succeeded r then successful + 1 else successful))
    0.

(** The batch branch of [main] once the lines of the file are read: the
    exit code. *)
Definition main_batch (cfg : config) (env : environment)
    (urlparse : string -> result ParseResult) (order_of : string -> list nat)
    (urls : list string) : M Z :=
  match urls with
  | [] => mret 1
  | _ :: _ =>
      try_except
        (successful ← batch_loop cfg env urlparse order_of urls;
         mret (if successful =? Z.of_nat (length urls) then 0 else 1))
        (fun _ => mret 1)
  end.

(* ===================================================================== *)
(** ** A configuration file, for the examples *)
(* ===================================================================== *)

Module DemoConfig.

Definition CONFIG : config_dict :=
  [("verify_ssl", VBool true);
   ("max_threads", VInt 16);
   ("blocked_extensions", VList [".exe"; ".scr"]);
   ("log_level", VStr "INFO")].

(** A section that sets three of the keys; the worker count is 0. *)
Definition section : section_view := fun key =>
  if String.eqb key "verify_ssl" then Some (Some "no")
  else if String.eqb key "max_threads" then Some (Some "0")
  else if String.eqb key "blocked_extensions" then Some (Some ".zip, ,.rar ")
  else None.

(** The same section with a worker count that is no integer. *)
Definition bad_section : section_view := fun key =>
  if String.eqb key "max_threads" then Some (Some "many") else section key.

(** An answer of 4301 digits to a numeric prompt. *)
Definition long_answer : string :=
  string_of_list_ascii (repeat "1"%char 4301).

End DemoConfig.

(* ===================================================================== *)
(** * Properties *)
(* ===================================================================== *)

(** ** The segment planner *)

Section PlannerFacts.

Variables n q total : Z.

Lemma range_length : length (range n) = Z.to_nat n.
Proof. unfold range. by rewrite length_map, length_seq. Qed.

Lemma range_lookup (k : nat) :
  (k < Z.to_nat n)%nat -> range n !! k = Some (Z.of_nat k).
Proof.
  intros Hk. unfold range.
  rewrite list_lookup_fmap, lookup_seq_lt by done. done.
Qed.

Lemma range_lookup_Some (k : nat) (i : Z) :
  range n !! k = Some i -> i = Z.of_nat k /\ 0 <= i < n.
Proof.
  intros H. assert (Hk : (k < Z.to_nat n)%nat).
  { apply lookup_lt_Some in H. by rewrite range_length in H. }
  rewrite range_lookup in H by done. inversion H. lia.
Qed.

Lemma download_tasks_length :
  length (download_tasks n q total) = Z.to_nat n.
Proof. unfold download_tasks. by rewrite length_map, range_length. Qed.

(** Every planned task, by index. *)
Lemma download_tasks_lookup (i : Z) :
  0 <= i < n ->
  download_tasks n q total !! Z.to_nat i =
    Some (i * q, (if i <? n - 1 then i * q + q - 1 else total - 1), i).
Proof.
  intros Hi. unfold download_tasks.
  rewrite list_lookup_fmap, range_lookup by lia.
  simpl. by rewrite Z2Nat.id by lia.
Qed.

Lemma download_tasks_lookup_nat (k : nat) :
  (k < Z.to_nat n)%nat ->
  download_tasks n q total !! k = Some (task_of n q total (Z.of_nat k)).
Proof.
  intros Hk. unfold download_tasks.
  by rewrite list_lookup_fmap, range_lookup.
Qed.

Lemma download_tasks_lookup_Some (k : nat) (t : task) :
  download_tasks n q total !! k = Some t ->
  0 <= Z.of_nat k < n /\
  t = (Z.of_nat k * q,
       (if Z.of_nat k <? n - 1 then Z.of_nat k * q + q - 1 else total - 1),
       Z.of_nat k).
Proof.
  intros H. assert (Hk : (k < Z.to_nat n)%nat).
  { apply lookup_lt_Some in H. by rewrite download_tasks_length in H. }
  split; [lia|].
  rewrite <- (Nat2Z.id k), download_tasks_lookup in H by lia.
  by inversion H.
Qed.

End PlannerFacts.

Lemma foldr_add_shift (l : list Z) (a : Z) :
  foldr Z.add a l = foldr Z.add 0 l + a.
Proof.
  revert a. induction l as [|x l IH]; intros a; simpl; [lia|].
  rewrite IH. lia.
Qed.

Lemma total_len_app (l1 l2 : list task) :
  total_len (l1 ++ l2) = total_len l1 + total_len l2.
Proof.
  unfold total_len. rewrite map_app, foldr_app, foldr_add_shift. lia.
Qed.

(** The lengths of the first [k] regular segments add up to [k * q]. *)
Lemma regular_prefix_total (n q total : Z) (k : nat) :
  Z.of_nat k <= n - 1 ->
  total_len (map (task_of n q total) (map Z.of_nat (seq 0 k)))
  = Z.of_nat k * q.
Proof.
  induction k as [|k IH]; intros Hk; [done|].
  rewrite seq_S, !map_app, total_len_app, IH by lia.
  cbn [map total_len foldr Nat.add]. unfold task_of.
  destruct (Z.ltb_spec (Z.of_nat k) (n - 1)); [|lia].
  unfold task_len, task_end, task_start. simpl. lia.
Qed.

Lemma download_tasks_total (n total : Z) :
  1 <= n -> total_len (download_tasks n (total / n) total) = total.
Proof.
  intros Hn. unfold download_tasks, range.
  replace (Z.to_nat n) with (S (Z.to_nat (n - 1))) by lia.
  rewrite seq_S, !map_app, total_len_app, regular_prefix_total by lia.
  cbn [map total_len foldr Nat.add]. unfold task_of.
  destruct (Z.ltb_spec (Z.of_nat (Z.to_nat (n - 1))) (n - 1)); [lia|].
  unfold task_len, task_end, task_start. simpl. lia.
Qed.

(** Two planned tasks at increasing positions: the earlier one ends before
    the later one starts. *)
Lemma download_tasks_ordered (n total : Z) (j k : nat) (t t' : task) :
  1 <= n -> 0 <= total -> (j < k)%nat ->
  download_tasks n (total / n) total !! j = Some t ->
  download_tasks n (total / n) total !! k = Some t' ->
  task_end t < task_start t'.
Proof.
  intros Hn Ht Hjk Hj Hk.
  apply download_tasks_lookup_Some in Hj as [Hj ->].
  apply download_tasks_lookup_Some in Hk as [Hk ->].
  assert (0 <= total / n) by (apply Z.div_pos; lia).
  unfold task_end, task_start. simpl.
  destruct (Z.ltb_spec (Z.of_nat j) (n - 1)); [|lia]. nia.
Qed.

(** Every byte offset of the resource lies in some planned task. *)
Lemma download_tasks_cover (n total b : Z) :
  1 <= n -> 0 <= b < total ->
  exists (k : nat) (t : task),
    download_tasks n (total / n) total !! k = Some t /\
    task_start t <= b <= task_end t.
Proof.
  intros Hn Hb.
  set (q := total / n).
  assert (Hq : 0 <= q) by (apply Z.div_pos; lia).
  assert (Hnq : n * q <= total) by (apply Z.mul_div_le; lia).
  destruct (Z.lt_ge_cases b ((n - 1) * q)) as [Hlt|Hge].
  - assert (Hq0 : 0 < q) by nia.
    assert (Hi : 0 <= b / q < n - 1).
    { split; [apply Z.div_pos; lia|apply Z.div_lt_upper_bound; lia]. }
    exists (Z.to_nat (b / q)), (b / q * q, b / q * q + q - 1, b / q). split.
    + rewrite download_tasks_lookup by lia.
      destruct (Z.ltb_spec (b / q) (n - 1)); [done|lia].
    + unfold task_start, task_end. simpl.
      pose proof (Z.mul_div_le b q Hq0).
      pose proof (Z.mul_succ_div_gt b q Hq0). lia.
  - exists (Z.to_nat (n - 1)), ((n - 1) * q, total - 1, n - 1). split.
    + rewrite download_tasks_lookup by lia.
      destruct (Z.ltb_spec (n - 1) (n - 1)); [lia|done].
    + unfold task_start, task_end. simpl. lia.
Qed.

(** C1: for every [total_size > 0] and every worker count [n >= 1] (so in
    particular every count in [[1,32]]), the planned segments tile
    [[0, total_size - 1]]: segment [i < n-1] is
    [[i * (total_size / n), (i+1) * (total_size / n) - 1]], the last segment
    ends at [total_size - 1], the first starts at [0], the segments are in
    index order, each starts right after its predecessor ends, an earlier
    segment ends before a later one starts, the lengths add up to
    [total_size], and every byte offset lies in exactly one segment. *)
Theorem plan_segments_tile (n total_size : Z) :
  0 < total_size -> 1 <= n ->
  exists segs : list task,
    plan_segments n total_size = Ok segs /\
    Z.of_nat (length segs) = n /\
    (forall i, 0 <= i < n - 1 ->
       segs !! Z.to_nat i =
         Some (i * (total_size / n), (i + 1) * (total_size / n) - 1, i)) /\
    segs !! Z.to_nat (n - 1) =
      Some ((n - 1) * (total_size / n), total_size - 1, n - 1) /\
    (exists t0, segs !! 0%nat = Some t0 /\ task_start t0 = 0) /\
    (forall (k : nat) t, segs !! k = Some t ->
       task_id t = Z.of_nat k /\ 0 <= task_len t) /\
    (forall (k : nat) t t', segs !! k = Some t -> segs !! S k = Some t' ->
       task_start t' = task_end t + 1) /\
    (forall (j k : nat) t t', (j < k)%nat ->
       segs !! j = Some t -> segs !! k = Some t' ->
       task_end t < task_start t') /\
    total_len segs = total_size /\
    (forall b, 0 <= b < total_size ->
       exists (k : nat) (t : task),
         segs !! k = Some t /\ task_start t <= b <= task_end t /\
         forall (k' : nat) t', segs !! k' = Some t' ->
           task_start t' <= b <= task_end t' -> k' = k).
Proof.
  intros Htot Hn.
  set (q := total_size / n).
  assert (Hq : 0 <= q) by (apply Z.div_pos; lia).
  assert (Hnq : n * q <= total_size) by (apply Z.mul_div_le; lia).
  exists (download_tasks n q total_size).
  split.
  { unfold plan_segments, floordiv.
    destruct (Z.eqb_spec n 0); [lia|done]. }
  split. { rewrite download_tasks_length. lia. }
  split.
  { intros i Hi. rewrite download_tasks_lookup by lia.
    destruct (Z.ltb_spec i (n - 1)); [|lia]. do 3 f_equal. lia. }
  split.
  { rewrite download_tasks_lookup by lia.
    destruct (Z.ltb_spec (n - 1) (n - 1)); [lia|done]. }
  split.
  { change 0%nat with (Z.to_nat 0). rewrite download_tasks_lookup by lia.
    eexists. split; [done|]. unfold task_start. simpl. lia. }
  split.
  { intros k t Hk. apply download_tasks_lookup_Some in Hk as [Hk ->].
    unfold task_id, task_len, task_end, task_start. simpl. split; [done|].
    destruct (Z.ltb_spec (Z.of_nat k) (n - 1)); nia. }
  split.
  { intros k t t' Hk Hk'.
    apply download_tasks_lookup_Some in Hk as [Hk ->].
    apply download_tasks_lookup_Some in Hk' as [Hk' ->].
    unfold task_end, task_start. simpl.
    destruct (Z.ltb_spec (Z.of_nat k) (n - 1)); lia. }
  split.
  { intros j k t t' Hjk Hj Hk.
    eapply (download_tasks_ordered n total_size j k); eauto; lia. }
  split. { by apply download_tasks_total. }
  intros b Hb.
  destruct (download_tasks_cover n total_size b) as (k & t & Hk & Hin);
    [lia|lia|].
  exists k, t. split; [done|]. split; [done|].
  intros k' t' Hk' Hin'.
  destruct (Nat.lt_trichotomy k' k) as [Hlt|[->|Hgt]]; [|done|].
  - pose proof (download_tasks_ordered n total_size k' k t' t
                  ltac:(lia) ltac:(lia) Hlt Hk' Hk). lia.
  - pose proof (download_tasks_ordered n total_size k k' t t'
                  ltac:(lia) ltac:(lia) Hgt Hk Hk'). lia.
Qed.

(** The theorem at 4 workers and 10 bytes: segments
    [[0,1]], [[2,3]], [[4,5]], [[6,9]]. *)
Lemma plan_segments_tile_witness :
  plan_segments 4 10 = Ok [(0, 1, 0); (2, 3, 1); (4, 5, 2); (6, 9, 3)] /\
  exists segs : list task,
    plan_segments 4 10 = Ok segs /\
    Z.of_nat (length segs) = 4 /\
    (forall i, 0 <= i < 4 - 1 ->
       segs !! Z.to_nat i = Some (i * (10 / 4), (i + 1) * (10 / 4) - 1, i)) /\
    segs !! Z.to_nat (4 - 1) = Some ((4 - 1) * (10 / 4), 10 - 1, 4 - 1) /\
    (exists t0, segs !! 0%nat = Some t0 /\ task_start t0 = 0) /\
    (forall (k : nat) t, segs !! k = Some t ->
       task_id t = Z.of_nat k /\ 0 <= task_len t) /\
    (forall (k : nat) t t', segs !! k = Some t -> segs !! S k = Some t' ->
       task_start t' = task_end t + 1) /\
    (forall (j k : nat) t t', (j < k)%nat ->
       segs !! j = Some t -> segs !! k = Some t' ->
       task_end t < task_start t') /\
    total_len segs = 10 /\
    (forall b, 0 <= b < 10 ->
       exists (k : nat) (t : task),
         segs !! k = Some t /\ task_start t <= b <= task_end t /\
         forall (k' : nat) t', segs !! k' = Some t' ->
           task_start t' <= b <= task_end t' -> k' = k).
Proof.
  split; [reflexivity|].
  apply (plan_segments_tile 4 10); lia.
Defined.

(** ** The worker count *)

(** When the configured maximum is at least 1, the worker count lies in
    [[1, max_threads]] (and is at most 16), and planning succeeds. *)
Lemma num_threads_in_range (cfg : config) (total : Z) :
  1 <= max_threads cfg ->
  1 <= num_threads_of cfg <= max_threads cfg /\
  num_threads_of cfg <= 16 /\
  plan cfg total =
    Ok (download_tasks (num_threads_of cfg) (total / num_threads_of cfg) total).
Proof.
  intros H. unfold plan, plan_segments, floordiv, num_threads_of.
  destruct (Z.eqb_spec (Z.min (max_threads cfg) 16) 0); [lia|].
  repeat split; lia.
Qed.

(** C7 (the code at the failing input): with [max_threads = 0], as
    [load_config] accepts it from the configuration file, the worker count
    is [0], outside [[1, max_threads]], and [file_size // num_threads]
    raises [ZeroDivisionError] before anything else happens; with
    [max_threads = -3] the worker count is [-3], no task is planned and the
    thread pool refuses to start. *)
Theorem threaded_download_unclamped_worker_count
    (cfg : config) (env : environment) (order : list nat)
    (url filepath : string) (info : file_info) (w : world) :
  num_threads_of (with_max_threads 0 cfg) = 0 /\
  plan (with_max_threads 0 cfg) (file_size info) = Raise ZeroDivisionError /\
  threaded_download_advanced (with_max_threads 0 cfg) env order url filepath
    info w = (Raise ZeroDivisionError, w) /\
  num_threads_of (with_max_threads (-3) cfg) = -3 /\
  plan (with_max_threads (-3) cfg) (file_size info) = Ok [] /\
  threaded_download_advanced (with_max_threads (-3) cfg) env order url filepath
    info w = (Raise (ValueError "max_workers must be greater than 0"), w).
Proof. repeat split. Qed.

(** ** Strings *)

Lemma string_length_app (a b : string) :
  String.length (a +:+ b) = (String.length a + String.length b)%nat.
Proof. induction a as [|c a IH]; simpl; [done|]. by rewrite IH. Qed.

Lemma substring_all (s : string) : substring 0 (String.length s) s = s.
Proof. induction s as [|c s IH]; simpl; [done|]. by rewrite IH. Qed.

Lemma substring_app_r (a b : string) :
  substring (String.length a) (String.length b) (a +:+ b) = b.
Proof. induction a as [|c a IH]; simpl; [apply substring_all|done]. Qed.

Lemma substring_split (s : string) (k : nat) :
  (k <= String.length s)%nat ->
  s = substring 0 k s +:+ substring k (String.length s - k) s.
Proof.
  revert k. induction s as [|c s IH]; intros k Hk.
  - destruct k; simpl in *; [done|lia].
  - destruct k as [|k].
    + simpl. by rewrite substring_all.
    + simpl in Hk.
      change (String c s = String c (substring 0 k s +:+
                substring k (String.length s - k) s)).
      f_equal. apply IH. lia.
Qed.

(** [endswith] is the suffix test. *)
Lemma endswith_spec (s suf : string) :
  endswith s suf = true <-> exists pre, s = pre +:+ suf.
Proof.
  unfold endswith. rewrite andb_true_iff, Nat.leb_le, String.eqb_eq. split.
  - intros [Hlen Heq].
    exists (substring 0 (String.length s - String.length suf) s).
    pose proof (substring_split s (String.length s - String.length suf)
                  ltac:(lia)) as H.
    replace (String.length s - (String.length s - String.length suf))%nat
      with (String.length suf) in H by lia.
    by rewrite Heq in H.
  - intros [pre ->]. rewrite string_length_app. split; [lia|].
    replace (String.length pre + String.length suf - String.length suf)%nat
      with (String.length pre) by lia.
    apply substring_app_r.
Qed.

(** [startswith] is the prefix test. *)
Lemma startswith_spec (s p : string) :
  startswith s p = true <-> exists rest, s = p +:+ rest.
Proof.
  unfold startswith. revert s. induction p as [|c p IH]; intros s.
  - simpl. split; [by exists s|]. by destruct s.
  - destruct s as [|d s]; simpl.
    + split; [done|]. by intros [rest H].
    + destruct (Ascii.ascii_dec c d) as [->|Hne].
      * rewrite IH. split; intros [rest H]; exists rest; [by rewrite H|].
        by inversion H.
      * split; [done|]. intros [rest H]. inversion H. by subst.
Qed.

(** ** The URL and policy validator *)

Lemma str_in_true (x : string) (l : list string) :
  str_in x l = true <-> In x l.
Proof.
  unfold str_in. rewrite existsb_exists. split.
  - intros (y & Hy & Heq). apply String.eqb_eq in Heq. by subst.
  - intros H. exists x. split; [done|apply String.eqb_refl].
Qed.

Lemma str_in_false (x : string) (l : list string) :
  str_in x l = false <-> ~ In x l.
Proof.
  rewrite <- str_in_true. destruct (str_in x l); split; try done.
Qed.

(** The list of matching blocked extensions is empty exactly when no
    blocked extension is a suffix of the path. *)
Lemma blocked_ext_of_nil (cfg : config) (path : string) :
  blocked_ext_of cfg path = [] <->
  forall ext, In ext (blocked_extensions cfg) -> endswith path ext = false.
Proof.
  unfold blocked_ext_of. induction (blocked_extensions cfg) as [|e l IH]; simpl.
  - split; [intros _ ext []|done].
  - destruct (endswith path e) eqn:He.
    + split; [done|]. intros H. specialize (H e (or_introl eq_refl)).
      congruence.
    + rewrite IH. split.
      * intros H ext [<-|Hin]; auto.
      * intros H ext Hin. apply H. by right.
Qed.


(** A URL that the parser cannot parse is rejected with the message of the
    exception. *)
Lemma validate_url_unparsable
    (urlparse : string -> result ParseResult) (cfg : config) (url : string)
    (e : exn) :
  urlparse url = Raise e ->
  validate_url urlparse cfg url =
    (false, "URL validation error: " +:+ exn_str e).
Proof. intros H. unfold validate_url. by rewrite H. Qed.

(** The outcome of the validator, check by check. *)
Lemma validate_url_cases
    (urlparse : string -> result ParseResult) (cfg : config) (url : string)
    (p : ParseResult) :
  urlparse url = Ok p ->
  validate_url urlparse cfg url =
    if negb (str_in (scheme p) (allowed_protocols cfg))
    then (false, "Protocol '" +:+ scheme p +:+ "' not allowed")
    else if String.eqb (netloc p) ""
    then (false, "Invalid hostname")
    else if str_in (lower (netloc p)) suspicious_domains
            && negb (startswith url "http://localhost")
    then (false, "Suspicious domain detected")
    else match blocked_ext_of cfg (lower (path p)) with
         | ext :: _ => (false, "Blocked file type: " +:+ ext)
         | [] => (true, "Valid URL")
         end.
Proof. intros H. unfold validate_url. by rewrite H. Qed.








(** ** Files and loops *)

Lemma part_file_ne (fp : string) (i : Z) : part_file fp i <> fp.
Proof.
  unfold part_file. intros H. apply (f_equal String.length) in H.
  rewrite !string_length_app in H. simpl in H. lia.
Qed.

Lemma part_file_inj (fp : string) (i j : Z) :
  part_file fp i = part_file fp j -> i = j.
Proof.
  unfold part_file. intros H.
  apply (inj (String.app fp)) in H.
  apply (inj (String.app ".part")) in H.
  by apply (inj pretty) in H.
Qed.

Lemma part_file_truthy (fp : string) (i : Z) : truthy (Some (part_file fp i)) = true.
Proof.
  unfold truthy. destruct (String.eqb_spec (part_file fp i) ""); [|done].
  apply (f_equal String.length) in e. unfold part_file in e.
  rewrite !string_length_app in e. simpl in e. lia.
Qed.

Ltac unfold_m := unfold mbind, M_bind, mret, M_ret, raise, try_except in *.

Lemma for_each_cons_ok {A S} (x : A) (rest : list A) (body : A -> S -> M S)
    (s s' : S) (w w1 : world) :
  body x s w = (Ok s', w1) ->
  for_each (x :: rest) body s w = for_each rest body s' w1.
Proof. intros H. simpl. unfold_m. by rewrite H. Qed.

Lemma discard_part_run (fp : string) (i : Z) (w : world) :
  discard_part fp i w =
    (Ok tt, match files w !! part_file fp i with
            | Some _ => emit (EvRemove (part_file fp i))
                          (set_files (delete (part_file fp i)) w)
            | None => w
            end).
Proof.
  unfold discard_part, path_exists, remove. unfold_m.
  destruct (files w !! part_file fp i) eqn:E; simpl; by rewrite ?E.
Qed.

Lemma discard_loop (fp : string) (l : list Z) (w : world) :
  exists w',
    for_each l (fun i (_ : unit) => discard_part fp i) tt w = (Ok tt, w') /\
    now w' = now w /\
    (forall p, files w' !! p =
       if decide (p ∈ map (part_file fp) l) then None else files w !! p) /\
    exists removed,
      trace w' = trace w ++ map EvRemove removed /\
      forall p, p ∈ removed -> p ∈ map (part_file fp) l.
Proof.
  revert w. induction l as [|i l IH]; intros w.
  - exists w. simpl. unfold_m. split; [done|]. split; [done|]. split.
    + done.
    + exists []. simpl. rewrite app_nil_r. split; [done|].
      intros p H. by apply elem_of_nil in H.
  - pose proof (discard_part_run fp i w) as Hrun.
    set (w1 := match files w !! part_file fp i with
               | Some _ => emit (EvRemove (part_file fp i))
                             (set_files (delete (part_file fp i)) w)
               | None => w
               end) in Hrun.
    destruct (IH w1) as (w' & Hloop & Hnow & Hfiles & removed & Htr & Hrem).
    exists w'. rewrite (for_each_cons_ok _ _ _ _ _ _ _ Hrun).
    assert (Hw1 : forall p, files w1 !! p =
              if decide (p = part_file fp i) then None else files w !! p).
    { intros p. subst w1. destruct (files w !! part_file fp i) eqn:E; simpl.
      - destruct (decide (p = part_file fp i)) as [->|Hne].
        + apply lookup_delete_eq.
        + by apply lookup_delete_ne.
      - destruct (decide (p = part_file fp i)) as [->|Hne]; done. }
    split; [done|]. split.
    { rewrite Hnow. subst w1. by destruct (files w !! part_file fp i). }
    split.
    { intros p. rewrite Hfiles, Hw1. simpl.
      destruct (decide (p ∈ map (part_file fp) l)) as [Hin|Hnin].
      - rewrite decide_True; [done|]. by right.
      - destruct (decide (p = part_file fp i)) as [->|Hne].
        + rewrite decide_True; [done|]. by left.
        + rewrite decide_False; [done|].
          intros H. apply elem_of_cons in H as [?|?]; done. }
    subst w1. destruct (files w !! part_file fp i) eqn:E.
    + exists (part_file fp i :: removed). split.
      * rewrite Htr. simpl. by rewrite <- app_assoc.
      * intros p Hp. simpl. apply elem_of_cons in Hp as [->|Hp].
        -- by left.
        -- right. by apply Hrem.
    + exists removed. split; [done|].
      intros p Hp. simpl. right. by apply Hrem.
Qed.

Lemma combine_part_run (fp : string) (i : Z) (w : world) :
  combine_part fp i w =
    (Ok tt, match files w !! part_file fp i with
            | Some d =>
                {| files := delete (part_file fp i)
                              (alter (fun c => c ++ d) fp (files w));
                   now := now w;
                   trace := trace w ++ [EvOpen (part_file fp i) RB;
                                        EvWrite fp d;
                                        EvRemove (part_file fp i)] |}
            | None => w
            end).
Proof.
  unfold combine_part, path_exists, open_file, read_all, write, remove.
  unfold_m.
  destruct (files w !! part_file fp i) as [d|] eqn:E; simpl; rewrite ?E;
    [|done].
  unfold emit, set_files. simpl. rewrite E. simpl.
  rewrite lookup_alter_ne by (apply not_eq_sym, part_file_ne). rewrite E.
  by rewrite <- !app_assoc.
Qed.

Lemma sinks_of_ext (fp : string) (fs fs' : gmap string (list byte)) (l : list Z) :
  (forall i, i ∈ l -> fs' !! part_file fp i = fs !! part_file fp i) ->
  sinks_of fp fs' l = sinks_of fp fs l /\
  combine_events fp fs' l = combine_events fp fs l.
Proof.
  unfold sinks_of, combine_events. intros H. split.
  - apply list_omap_ext, Forall2_same_length_lookup_2; [done|].
    intros k x y Hx Hy. assert (x = y) as -> by congruence.
    apply H. by eapply list_elem_of_lookup_2.
  - f_equal. apply map_ext_in. intros i Hi.
    rewrite H; [done|]. by apply list_elem_of_In.
Qed.

Lemma combine_loop (fp : string) (l : list Z) (w : world) (acc : list byte) :
  NoDup l ->
  files w !! fp = Some acc ->
  exists w',
    for_each l (fun i (_ : unit) => combine_part fp i) tt w = (Ok tt, w') /\
    now w' = now w /\
    files w' !! fp = Some (acc ++ concat (sinks_of fp (files w) l)) /\
    (forall p, p <> fp -> files w' !! p =
       if decide (p ∈ map (part_file fp) l) then None else files w !! p) /\
    trace w' = trace w ++ combine_events fp (files w) l.
Proof.
  revert w acc. induction l as [|i l IH]; intros w acc Hnd Hfp.
  - exists w. simpl. unfold_m. unfold sinks_of, combine_events. simpl.
    rewrite !app_nil_r. done.
  - apply NoDup_cons in Hnd as [Hi Hnd].
    pose proof (combine_part_run fp i w) as Hrun.
    destruct (files w !! part_file fp i) as [d|] eqn:E.
    + set (w1 := {| files := delete (part_file fp i)
                               (alter (fun c => c ++ d) fp (files w));
                    now := now w;
                    trace := trace w ++ [EvOpen (part_file fp i) RB;
                                         EvWrite fp d;
                                         EvRemove (part_file fp i)] |}) in *.
      assert (Hfp1 : files w1 !! fp = Some (acc ++ d)).
      { simpl. rewrite lookup_delete_ne by apply part_file_ne.
        rewrite lookup_alter_eq, Hfp. done. }
      assert (Hother : forall p, p <> fp -> files w1 !! p =
                if decide (p = part_file fp i) then None else files w !! p).
      { intros p Hp. simpl. destruct (decide (p = part_file fp i)) as [->|Hne].
        - apply lookup_delete_eq.
        - rewrite lookup_delete_ne, lookup_alter_ne by done. done. }
      destruct (IH w1 (acc ++ d) Hnd Hfp1) as (w' & Hloop & Hnow & Hdst & Hfs & Htr).
      destruct (sinks_of_ext fp (files w) (files w1) l) as [Hs He].
      { intros j Hj. rewrite Hother by apply part_file_ne.
        rewrite decide_False; [done|].
        intros Heq. apply part_file_inj in Heq. by subst. }
      exists w'. rewrite (for_each_cons_ok _ _ _ _ _ _ _ Hrun).
      split; [done|]. split; [done|]. split.
      { rewrite Hdst, Hs. unfold sinks_of. simpl. rewrite E. simpl.
        by rewrite <- app_assoc. }
      split.
      { intros p Hp. rewrite Hfs, Hother by done. simpl.
        destruct (decide (p ∈ map (part_file fp) l)) as [Hin|Hnin].
        - rewrite decide_True; [done|]. by right.
        - destruct (decide (p = part_file fp i)) as [->|Hne].
          + rewrite decide_True; [done|]. by left.
          + rewrite decide_False; [done|].
            intros H. apply elem_of_cons in H as [?|?]; done. }
      rewrite Htr, He. unfold combine_events. simpl. rewrite E.
      by rewrite <- app_assoc.
    + destruct (IH w acc Hnd Hfp) as (w' & Hloop & Hnow & Hdst & Hfs & Htr).
      exists w'. rewrite (for_each_cons_ok _ _ _ _ _ _ _ Hrun).
      split; [done|]. split; [done|]. split.
      { rewrite Hdst. unfold sinks_of. simpl. by rewrite E. }
      split.
      { intros p Hp. rewrite Hfs by done. simpl.
        destruct (decide (p ∈ map (part_file fp) l)) as [Hin|Hnin].
        - rewrite decide_True; [done|]. by right.
        - destruct (decide (p = part_file fp i)) as [->|Hne].
          + rewrite decide_True; [done|]. by left.
          + rewrite decide_False; [done|].
            intros H. apply elem_of_cons in H as [?|?]; done. }
      rewrite Htr. unfold combine_events. simpl. by rewrite E.
Qed.

(** ** Workers, pool and reassembly *)

Lemma store_chunk_run (p : string) (delay : Q) (chunk : list byte) (w : world) :
  store_chunk p (delay, chunk) tt w =
    (Ok tt,
     {| files := match chunk with
                 | [] => files w
                 | _ :: _ => alter (fun c => c ++ chunk) p (files w)
                 end;
        now := (now w + delay)%Q;
        trace := match chunk with
                 | [] => trace w
                 | _ :: _ => trace w ++ [EvWrite p chunk]
                 end |}).
Proof.
  unfold store_chunk, wait, write. unfold_m. destruct chunk; reflexivity.
Qed.

(** The chunk loop of a worker appends the body to its sink and does
    nothing else than writing. *)
Lemma store_loop (p : string) (chunks : list (Q * list byte)) (w : world)
    (c0 : list byte) :
  files w !! p = Some c0 ->
  exists w',
    for_each chunks (store_chunk p) tt w = (Ok tt, w') /\
    files w' !! p = Some (c0 ++ body_of chunks) /\
    (forall p', p' <> p -> files w' !! p' = files w !! p') /\
    trace w' = trace w ++ map (EvWrite p) (nonempty_chunks chunks).
Proof.
  revert w c0. induction chunks as [|[delay chunk] chunks IH]; intros w c0 Hp.
  - exists w. simpl. unfold_m. unfold body_of, nonempty_chunks. simpl.
    rewrite !app_nil_r. done.
  - pose proof (store_chunk_run p delay chunk w) as Hrun.
    match type of Hrun with _ = (_, ?x) => set (w1 := x) in * end.
    assert (H1 : files w1 !! p = Some (c0 ++ chunk)).
    { simpl. destruct chunk; [by rewrite app_nil_r|].
      by rewrite lookup_alter_eq, Hp. }
    assert (H2 : forall p', p' <> p -> files w1 !! p' = files w !! p').
    { intros p' Hne. simpl. destruct chunk; [done|].
      by rewrite lookup_alter_ne. }
    destruct (IH w1 _ H1) as (w' & Hloop & Hfp & Hother & Htr).
    exists w'. rewrite (for_each_cons_ok _ _ _ _ _ _ _ Hrun).
    split; [done|]. split.
    { rewrite Hfp. unfold body_of. simpl. by rewrite <- app_assoc. }
    split.
    { intros p' Hne. rewrite Hother, H2; done. }
    rewrite Htr. unfold nonempty_chunks. simpl.
    destruct chunk; simpl; [done|]. by rewrite <- app_assoc.
Qed.

(** What a segment worker does, by the answer of the server. *)
Lemma download_chunk_run (cfg : config) (env : environment)
    (url fp : string) (s e tid : Z) (w : world) :
  match http_get env (range_request cfg url s e) with
  | Refused _ =>
      download_chunk cfg env url fp s e tid w =
        (Ok None, emit (EvGet (range_request cfg url s e)) w)
  | Stream chunks failure =>
      exists w',
        download_chunk cfg env url fp s e tid w =
          (Ok (match failure with
               | None => Some (part_file fp tid)
               | Some _ => None
               end), w') /\
        files w' !! part_file fp tid = Some (body_of chunks) /\
        (forall p, p <> part_file fp tid -> files w' !! p = files w !! p) /\
        trace w' = trace w ++
          EvGet (range_request cfg url s e) ::
          EvOpen (part_file fp tid) WB ::
          map (EvWrite (part_file fp tid)) (nonempty_chunks chunks)
  end.
Proof.
  unfold download_chunk, session_get.
  change {| req_url := url; req_headers := _; req_proxies := _ |}
    with (range_request cfg url s e).
  destruct (http_get env (range_request cfg url s e)) as [ex|chunks failure]
    eqn:Hget.
  - unfold_m. by rewrite ?Hget.
  - set (w0 := {| files := <[part_file fp tid := []]> (files w);
                  now := now w;
                  trace := (trace w ++ [EvGet (range_request cfg url s e)]) ++
                           [EvOpen (part_file fp tid) WB] |}).
    destruct (store_loop (part_file fp tid) chunks w0 [])
      as (w' & Hloop & Hfp & Hother & Htr).
    { simpl. apply lookup_insert_eq. }
    exists w'. split.
    { unfold_m. rewrite ?Hget. unfold open_file, emit, set_files. simpl.
      fold w0. rewrite Hloop. by destruct failure. }
    split; [done|]. split.
    { intros p Hne. rewrite Hother by done. simpl.
      by rewrite lookup_insert_ne. }
    rewrite Htr. simpl. by rewrite <- !app_assoc.
Qed.

Lemma sleeps_app (a b : list event) : sleeps (a ++ b) = sleeps a ++ sleeps b.
Proof. apply omap_app. Qed.

Lemma sleeps_cons (e : event) (l : list event) :
  sleeps (e :: l) =
    match e with EvSleep d => d :: sleeps l | _ => sleeps l end.
Proof. by destruct e. Qed.

Lemma sleeps_writes (p : string) (l : list (list byte)) :
  sleeps (map (EvWrite p) l) = [].
Proof. induction l as [|c l IH]; [done|]. cbn [map]. by rewrite sleeps_cons. Qed.

Lemma download_chunk_total (cfg : config) (env : environment)
    (url fp : string) (s e tid : Z) (w : world) :
  exists r w',
    download_chunk cfg env url fp s e tid w = (Ok r, w') /\
    (r = None \/ r = Some (part_file fp tid)) /\
    files w' !! fp = files w !! fp /\
    sleeps (trace w') = sleeps (trace w).
Proof.
  pose proof (download_chunk_run cfg env url fp s e tid w) as H.
  destruct (http_get env (range_request cfg url s e)) as [ex|chunks failure].
  - eexists _, _. split; [exact H|]. split; [by left|]. split; [done|].
    unfold emit. cbn [trace]. rewrite sleeps_app, sleeps_cons.
    cbn [sleeps omap list_omap]. by rewrite app_nil_r.
  - destruct H as (w' & Hrun & Hfp & Hother & Htr).
    eexists _, _. split; [exact Hrun|]. split.
    { destruct failure; auto. }
    split.
    { apply Hother. apply not_eq_sym, part_file_ne. }
    rewrite Htr, sleeps_app, !sleeps_cons, sleeps_writes.
    by rewrite app_nil_r.
Qed.

(** The pool always returns: every worker catches its own exceptions.  The
    workers leave the destination alone and never sleep. *)
Lemma run_workers_total (cfg : config) (env : environment)
    (url fp : string) (tasks : list task) (order : list nat)
    (results : gmap nat (option string)) (w : world) :
  exists results' w',
    run_workers cfg env url fp tasks order results w = (Ok results', w') /\
    files w' !! fp = files w !! fp /\
    sleeps (trace w') = sleeps (trace w) /\
    (forall i r, results' !! i = Some r ->
       results !! i = Some r \/
       exists t, tasks !! i = Some t /\
                 (r = None \/ r = Some (part_file fp (task_id t)))) /\
    (forall i, i ∈ order -> (i < length tasks)%nat -> is_Some (results' !! i)).
Proof.
  revert results w. induction order as [|i order IH]; intros results w.
  - exists results, w. simpl. unfold_m. repeat split; auto.
    intros i H. by apply elem_of_nil in H.
  - simpl. destruct (tasks !! i) as [[[s e] tid]|] eqn:Ht.
    + destruct (download_chunk_total cfg env url fp s e tid w)
        as (r & w1 & Hrun & Hr & Hfp & Hsl).
      destruct (IH (<[i := r]> results) w1)
        as (res' & w' & Hloop & Hfp' & Hsl' & Hres & Hdone).
      exists res', w'. unfold_m. rewrite Hrun. split; [done|].
      split; [congruence|]. split; [congruence|]. split.
      * intros j r' Hj. destruct (Hres j r' Hj) as [Hins|Hex]; [|by right].
        destruct (decide (j = i)) as [->|Hne].
        -- rewrite lookup_insert_eq in Hins. inversion Hins; subst r'.
           right. exists (s, e, tid). split; [done|]. exact Hr.
        -- rewrite lookup_insert_ne in Hins by done. by left.
      * intros j Hj Hlt. apply elem_of_cons in Hj as [->|Hj]; [|by apply Hdone].
        destruct (res' !! i) as [r'|] eqn:Hi; [by eexists|].
        exfalso. clear -Hloop Hi.
        assert (Hkeep : forall order results w res' w',
                  run_workers cfg env url fp tasks order results w = (Ok res', w') ->
                  forall k, is_Some (results !! k) -> is_Some (res' !! k)).
        { clear. induction order as [|j order IH]; intros results w res' w' H k Hk.
          - simpl in H. unfold_m. by inversion H; subst.
          - simpl in H. destruct (tasks !! j) as [[[s e] tid]|].
            + unfold_m.
              destruct (download_chunk cfg env url fp s e tid w) as [[r|ex] w1];
                [|done].
              eapply IH; [exact H|].
              destruct (decide (k = j)) as [->|Hne].
              * rewrite lookup_insert_eq. by eexists.
              * by rewrite lookup_insert_ne.
            + eapply IH; eauto. }
        pose proof (Hkeep _ _ _ _ _ Hloop i) as Hs.
        rewrite lookup_insert_eq, Hi in Hs.
        destruct Hs as [? Hs]; [by eexists|done].
    + destruct (IH results w)
        as (res' & w' & Hloop & Hfp' & Hsl' & Hres & Hdone).
      exists res', w'. split; [done|]. split; [done|]. split; [done|].
      split; [done|].
      intros j Hj Hlt. apply elem_of_cons in Hj as [->|Hj]; [|by apply Hdone].
      apply lookup_lt_is_Some_2 in Hlt. destruct Hlt as [x Hx].
      cbv [lookup] in Hx, Ht. congruence.
Qed.

Lemma omap_length_le {A B} (f : A -> option B) (l : list A) :
  (length (omap f l) <= length l)%nat.
Proof.
  induction l as [|x l IH]; [done|].
  change (omap f (x :: l)) with
    (match f x with Some y => y :: omap f l | None => omap f l end).
  destruct (f x); simpl; lia.
Qed.

Lemma omap_length_lt {A B} (f : A -> option B) (l : list A) (x : A) :
  x ∈ l -> f x = None -> (length (omap f l) < length l)%nat.
Proof.
  induction l as [|y l IH]; intros Hin Hx; [by apply elem_of_nil in Hin|].
  change (omap f (y :: l)) with
    (match f y with Some z => z :: omap f l | None => omap f l end).
  apply elem_of_cons in Hin as [->|Hin].
  - rewrite Hx. pose proof (omap_length_le f l). simpl. lia.
  - specialize (IH Hin Hx). destruct (f y); simpl; lia.
Qed.

Lemma omap_length_all {A B} (f : A -> option B) (l : list A) :
  (forall x, x ∈ l -> is_Some (f x)) -> length (omap f l) = length l.
Proof.
  induction l as [|y l IH]; intros H; [done|].
  change (omap f (y :: l)) with
    (match f y with Some z => z :: omap f l | None => omap f l end).
  destruct (H y) as [z ->]; [by left|]. simpl. rewrite IH; [done|].
  intros x Hx. apply H. by right.
Qed.

(** A worker without result leaves fewer sinks than workers. *)
Lemma temp_files_of_failed (n : nat) (results : gmap nat (option string))
    (i : nat) :
  (i < n)%nat -> results !! i = Some None ->
  (length (temp_files_of n results) < n)%nat.
Proof.
  intros Hi Hr. unfold temp_files_of.
  match goal with |- (length (omap ?f ?l) < _)%nat =>
    pose proof (omap_length_lt f l i) as H end.
  rewrite length_seq in H. apply H.
  - apply elem_of_seq. lia.
  - by rewrite Hr.
Qed.

(** When every worker returned its sink, there are as many sinks as
    workers. *)
Lemma temp_files_of_complete (n : nat) (results : gmap nat (option string)) :
  (forall i, (i < n)%nat -> exists s, results !! i = Some (Some s) /\ s <> "") ->
  length (temp_files_of n results) = n.
Proof.
  intros H. unfold temp_files_of.
  rewrite omap_length_all; [apply length_seq|].
  intros i Hi. apply elem_of_seq in Hi.
  destruct (H i) as (s & -> & Hs); [lia|].
  unfold truthy. destruct (String.eqb_spec s ""); [done|]. by eexists.
Qed.

Lemma range_elem (n i : Z) : i ∈ range n <-> 0 <= i < n.
Proof.
  unfold range. rewrite list_elem_of_fmap. split.
  - intros (k & -> & Hk). apply elem_of_seq in Hk. lia.
  - intros H. exists (Z.to_nat i). split; [lia|]. apply elem_of_seq. lia.
Qed.

Lemma range_NoDup (n : Z) : NoDup (range n).
Proof.
  unfold range. apply NoDup_fmap_2; [|apply NoDup_seq].
  intros a b H. lia.
Qed.

Lemma part_file_range (fp p : string) (n : Z) :
  p ∈ map (part_file fp) (range n) <->
  exists j, 0 <= j < n /\ p = part_file fp j.
Proof.
  rewrite list_elem_of_fmap. split.
  - intros (j & -> & Hj). apply range_elem in Hj. eauto.
  - intros (j & Hj & ->). exists j. split; [done|]. by apply range_elem.
Qed.

(** The clean-up branch of the reassembly: taken when the number of sinks
    returned by the workers differs from the number of workers. *)
Lemma reassemble_incomplete (fp : string) (n : Z) (temp_files : list string)
    (w : world) :
  Z.of_nat (length temp_files) <> n ->
  exists w',
    reassemble fp n temp_files w = (Ok false, w') /\
    now w' = now w /\
    (forall p, files w' !! p =
       if decide (p ∈ map (part_file fp) (range n)) then None
       else files w !! p) /\
    exists removed,
      trace w' = trace w ++ map EvRemove removed /\
      forall p, p ∈ removed -> p ∈ map (part_file fp) (range n).
Proof.
  intros Hlen. unfold reassemble.
  destruct (Z.eqb_spec (Z.of_nat (length temp_files)) n); [done|].
  destruct (discard_loop fp (range n) w) as (w' & Hloop & Hrest).
  exists w'. unfold_m. by rewrite Hloop.
Qed.

(** The combining branch of the reassembly. *)
Lemma reassemble_complete (fp : string) (n : Z) (temp_files : list string)
    (w : world) :
  Z.of_nat (length temp_files) = n ->
  exists w',
    reassemble fp n temp_files w = (Ok true, w') /\
    now w' = now w /\
    files w' !! fp = Some (concat (sinks_of fp (files w) (range n))) /\
    (forall p, p <> fp -> files w' !! p =
       if decide (p ∈ map (part_file fp) (range n)) then None
       else files w !! p) /\
    trace w' = trace w ++ EvOpen fp WB :: combine_events fp (files w) (range n).
Proof.
  intros Hlen. unfold reassemble.
  destruct (Z.eqb_spec (Z.of_nat (length temp_files)) n); [|done].
  set (w0 := {| files := <[fp := []]> (files w); now := now w;
                trace := trace w ++ [EvOpen fp WB] |}).
  destruct (combine_loop fp (range n) w0 [] (range_NoDup n))
    as (w' & Hloop & Hnow & Hdst & Hother & Htr).
  { simpl. apply lookup_insert_eq. }
  destruct (sinks_of_ext fp (files w) (files w0) (range n)) as [Hs He].
  { intros i _. simpl. rewrite lookup_insert_ne; [done|].
    apply not_eq_sym, part_file_ne. }
  exists w'. split.
  { unfold_m. unfold open_file, emit, set_files. simpl. fold w0.
    by rewrite Hloop. }
  split; [done|]. split.
  { by rewrite Hdst, Hs. }
  split.
  { intros p Hp. rewrite Hother by done. simpl.
    by rewrite lookup_insert_ne. }
  rewrite Htr, He. simpl. by rewrite <- app_assoc.
Qed.

(** [threaded_download_advanced] with at least one worker: the plan, the
    pool, then the reassembly on the sinks that the workers returned. *)
Lemma threaded_download_run (cfg : config) (env : environment)
    (order : list nat) (url fp : string) (info : file_info)
    (results : gmap nat (option string)) (w w1 : world) :
  1 <= num_threads_of cfg ->
  run_workers cfg env url fp
    (download_tasks (num_threads_of cfg)
       (file_size info / num_threads_of cfg) (file_size info))
    order ∅ w = (Ok results, w1) ->
  threaded_download_advanced cfg env order url fp info w =
    reassemble fp (num_threads_of cfg)
      (temp_files_of (Z.to_nat (num_threads_of cfg)) results) w1.
Proof.
  intros Hn Hrun. unfold threaded_download_advanced, plan_segments, floordiv.
  destruct (Z.eqb_spec (num_threads_of cfg) 0); [lia|].
  destruct (Z.leb_spec (num_threads_of cfg) 0); [lia|].
  unfold_m. rewrite Hrun. by rewrite download_tasks_length.
Qed.

(** With a server that answers every planned range with the bytes of that
    range, the pool, in whatever order, leaves every scheduled segment
    complete with the right bytes in its sink. *)
Lemma run_workers_honest (cfg : config) (env : environment)
    (url fp : string) (tasks : list task) (resource : list byte)
    (order : list nat) (results0 : gmap nat (option string)) (w : world) :
  (forall (k : nat) t, tasks !! k = Some t -> task_id t = Z.of_nat k) ->
  (forall (k : nat) t, tasks !! k = Some t ->
     exists chunks,
       http_get env (range_request cfg url (task_start t) (task_end t))
         = Stream chunks None /\
       body_of chunks = range_bytes resource (task_start t) (task_end t)) ->
  exists results w1,
    run_workers cfg env url fp tasks order results0 w = (Ok results, w1) /\
    (forall (k : nat) t, k ∈ order -> tasks !! k = Some t ->
       results !! k = Some (Some (part_file fp (task_id t))) /\
       files w1 !! part_file fp (task_id t) =
         Some (range_bytes resource (task_start t) (task_end t))) /\
    (forall k, k ∉ order -> results !! k = results0 !! k) /\
    (forall p, (forall k, k ∈ order -> p <> part_file fp (Z.of_nat k)) ->
       files w1 !! p = files w !! p).
Proof.
  intros Hid Hsrv. revert results0 w.
  induction order as [|i order IH]; intros results0 w.
  - exists results0, w. simpl. unfold_m. split; [done|]. split.
    + intros k t Hk. by apply elem_of_nil in Hk.
    + done.
  - simpl. destruct (tasks !! i) as [[[s e] tid]|] eqn:Ht.
    + destruct (Hsrv i _ Ht) as (chunks & Hget & Hbody).
      pose proof (Hid i _ Ht) as Htid. unfold task_id in Htid. simpl in Htid.
      unfold task_start, task_end in Hget, Hbody. simpl in Hget, Hbody.
      pose proof (download_chunk_run cfg env url fp s e tid w) as Hrun.
      rewrite Hget in Hrun.
      destruct Hrun as (w1 & Hrun & Hsink & Hother & _).
      destruct (IH (<[i := Some (part_file fp tid)]> results0) w1)
        as (results & w2 & Hloop & Hdone & Hkeep & Hfiles).
      exists results, w2. unfold_m. rewrite Hrun. split; [done|]. split.
      { intros k t Hk Hkt.
        destruct (decide (k ∈ order)) as [Hin|Hnin]; [by apply Hdone|].
        apply elem_of_cons in Hk as [->|Hk]; [|done].
        assert (t = (s, e, tid)) as ->
          by (cbv [lookup] in Hkt, Ht; congruence).
        unfold task_id, task_start, task_end. simpl. split.
        - rewrite Hkeep by done. apply lookup_insert_eq.
        - rewrite Hfiles, Hsink, Hbody; [done|].
          intros k Hk Heq. apply part_file_inj in Heq. subst tid.
          apply Nat2Z.inj in Heq. by subst. }
      split.
      { intros k Hk. apply not_elem_of_cons in Hk as [Hne Hk].
        rewrite Hkeep by done. by rewrite lookup_insert_ne. }
      intros p Hp. rewrite Hfiles, Hother.
      * done.
      * subst tid. apply Hp. by left.
      * intros k Hk. apply Hp. by right.
    + destruct (IH results0 w) as (results & w2 & Hloop & Hdone & Hkeep & Hfiles).
      exists results, w2. split; [done|]. split.
      { intros k t Hk Hkt. apply elem_of_cons in Hk as [->|Hk]; [|by apply Hdone].
        cbv [lookup] in Hkt, Ht. congruence. }
      split.
      { intros k Hk. apply not_elem_of_cons in Hk as [Hne Hk]. by apply Hkeep. }
      intros p Hp. apply Hfiles. intros k Hk. apply Hp. by right.
Qed.

(** With such a server and a pool that schedules every planned task, in any
    order, the state reached after the workers is the one from which the
    reassembly restores the resource. *)
Lemma run_workers_honest_plan (cfg : config) (env : environment)
    (url fp : string) (n total : Z) (resource : list byte)
    (order : list nat) (w : world) :
  order ≡ₚ seq 0 (Z.to_nat n) ->
  (forall t, t ∈ download_tasks n (total / n) total ->
     exists chunks,
       http_get env (range_request cfg url (task_start t) (task_end t))
         = Stream chunks None /\
       body_of chunks = range_bytes resource (task_start t) (task_end t)) ->
  exists results w1,
    run_workers cfg env url fp (download_tasks n (total / n) total) order ∅ w
      = (Ok results, w1) /\
    (forall (k : nat) t, download_tasks n (total / n) total !! k = Some t ->
       results !! k = Some (Some (part_file fp (task_id t))) /\
       files w1 !! part_file fp (task_id t) =
         Some (range_bytes resource (task_start t) (task_end t))) /\
    files w1 !! fp = files w !! fp.
Proof.
  intros Hperm Hsrv.
  destruct (run_workers_honest cfg env url fp
              (download_tasks n (total / n) total) resource order ∅ w)
    as (results & w1 & Hrun & Hdone & _ & Hfiles).
  - intros k t Hk. by apply download_tasks_lookup_Some in Hk as [_ ->].
  - intros k t Hk. apply Hsrv. by eapply list_elem_of_lookup_2.
  - exists results, w1. split; [done|]. split.
    + intros k t Hk. apply Hdone; [|done].
      rewrite Hperm. apply elem_of_seq.
      apply lookup_lt_Some in Hk. rewrite download_tasks_length in Hk. lia.
    + apply Hfiles. intros k _. apply not_eq_sym, part_file_ne.
Qed.

(** ** The single-stream download *)

Lemma rate_limit_run (cfg : config) (len : Z) (last_time : Q) (w : world) :
  exists t evs,
    rate_limit cfg len last_time w =
      (Ok t, {| files := files w;
                now := match evs with
                       | [EvSleep d] => (now w + d)%Q
                       | _ => now w
                       end;
                trace := trace w ++ evs |}) /\
    (evs = [] \/ exists d, evs = [EvSleep d]) /\
    (download_rate_limit_kbps cfg <= 0 -> evs = []).
Proof.
  unfold rate_limit.
  destruct (Z.gtb_spec (download_rate_limit_kbps cfg) 0).
  - unfold time_time, sleep. unfold_m.
    destruct (Qlt_le_dec _ _).
    + exists (now w). eexists [EvSleep _].
      split; [reflexivity|]. split; [eauto|lia].
    + exists (now w), []. destruct w. simpl. rewrite app_nil_r.
      split; [reflexivity|]. split; [auto|done].
  - exists last_time, []. unfold_m. destruct w. simpl. rewrite app_nil_r.
    split; [reflexivity|]. split; [auto|done].
Qed.

(** The chunk loop of the single-stream download appends the body to the
    file; apart from that it only sleeps. *)
Lemma store_limited_loop (cfg : config) (fp : string)
    (chunks : list (Q * list byte)) (last_time : Q) (w : world)
    (c0 : list byte) :
  files w !! fp = Some c0 ->
  exists t w' evs,
    for_each chunks (store_chunk_limited cfg fp) last_time w = (Ok t, w') /\
    files w' !! fp = Some (c0 ++ body_of chunks) /\
    (forall p, p <> fp -> files w' !! p = files w !! p) /\
    trace w' = trace w ++ evs /\
    Forall (write_or_sleep fp) evs /\
    (download_rate_limit_kbps cfg <= 0 ->
     evs = map (EvWrite fp) (nonempty_chunks chunks)).
Proof.
  revert last_time w c0.
  induction chunks as [|[delay chunk] chunks IH]; intros last_time w c0 Hfp.
  - exists last_time, w, []. simpl. unfold_m. unfold body_of. simpl.
    rewrite !app_nil_r. repeat split; auto.
  - destruct chunk as [|b chunk].
    + set (w1 := {| files := files w; now := (now w + delay)%Q;
                    trace := trace w |}).
      destruct (IH last_time w1 c0 Hfp) as (t & w' & evs & Hloop & H1 & H2 & H3 & H4 & H5).
      exists t, w', evs. split.
      { simpl. unfold_m. unfold wait, set_now. simpl. fold w1. exact Hloop. }
      repeat split; auto.
    + set (w1 := {| files := alter (fun c => c ++ b :: chunk) fp (files w);
                    now := (now w + delay)%Q;
                    trace := trace w ++ [EvWrite fp (b :: chunk)] |}).
      destruct (rate_limit_run cfg (Z.of_nat (length (b :: chunk))) last_time w1)
        as (t1 & evs1 & Hrl & Hevs1 & Hoff).
      match type of Hrl with _ = (_, ?x) => set (w2 := x) in * end.
      assert (Hfp2 : files w2 !! fp = Some (c0 ++ b :: chunk)).
      { simpl. by rewrite lookup_alter_eq, Hfp. }
      destruct (IH t1 w2 _ Hfp2) as (t & w' & evs & Hloop & H1 & H2 & H3 & H4 & H5).
      exists t, w', (EvWrite fp (b :: chunk) :: evs1 ++ evs). split.
      { cbn [for_each]. unfold store_chunk_limited. unfold_m.
        unfold wait, write, emit, set_files, set_now. cbn [files now trace].
        fold w1. rewrite Hrl. exact Hloop. }
      split.
      { rewrite H1. unfold body_of. simpl. by rewrite <- app_assoc. }
      split.
      { intros p Hp. rewrite H2 by done. simpl. by rewrite lookup_alter_ne. }
      split.
      { rewrite H3. simpl. by rewrite <- !app_assoc. }
      split.
      { constructor; [left; eauto|]. apply Forall_app. split; [|done].
        destruct Hevs1 as [->|[d ->]]; [constructor|].
        constructor; [right; eauto|constructor]. }
      intros Hk. rewrite (Hoff Hk), (H5 Hk). reflexivity.
Qed.

(** [simple_download_advanced], by the state of the destination and the
    answer of the server. *)
Lemma simple_download_run (cfg : config) (env : environment)
    (url fp : string) (info : file_info) (w : world) :
  let pos := resume_pos_of cfg (files w) fp in
  let req := simple_request cfg url pos in
  if already_complete cfg (files w) fp (file_size info)
  then simple_download_advanced cfg env url fp info w = (Ok true, w)
  else
    match http_get env req with
    | Refused e =>
        simple_download_advanced cfg env url fp info w =
          (Raise e, emit (EvGet req) w)
    | Stream chunks failure =>
        exists w' evs,
          simple_download_advanced cfg env url fp info w =
            (match failure with None => Ok true | Some e => Raise e end, w') /\
          files w' !! fp =
            Some ((if pos >? 0 then default [] (files w !! fp) else [])
                  ++ body_of chunks) /\
          (forall p, p <> fp -> files w' !! p = files w !! p) /\
          trace w' = trace w ++
            EvGet req :: EvOpen fp (simple_mode pos) :: evs /\
          Forall (write_or_sleep fp) evs /\
          (download_rate_limit_kbps cfg <= 0 ->
           evs = map (EvWrite fp) (nonempty_chunks chunks))
    end.
Proof.
  intros pos req. subst pos req.
  unfold already_complete, resume_pos_of, simple_download_advanced.
  unfold path_exists, getsize, session_get. unfold_m.
  destruct (files w !! fp) as [old|] eqn:Hold; cbn [default].
  - rewrite bool_decide_eq_true_2 by eauto. cbn [andb].
    destruct (resume_downloads cfg) eqn:Hres; cbn [andb].
    + rewrite Hold.
      destruct (Z.eqb_spec (Z.of_nat (length old)) (file_size info)); [done|].
      unfold simple_request, simple_mode.
      destruct (Z.gtb_spec (Z.of_nat (length old)) 0) as [Hpos|Hpos].
      * change {| req_url := url; req_headers := _; req_proxies := _ |}
          with (resume_request cfg url (Z.of_nat (length old))).
        destruct (http_get env _) as [ex|chunks failure]; [done|].
        unfold time_time, open_file, emit, set_files.
        cbn [files now trace]. rewrite Hold.
        match goal with |- context [for_each chunks _ _ ?x] => set (w1 := x) end.
        destruct (store_limited_loop cfg fp chunks (now w) w1 old Hold)
          as (t & w' & evs & Hloop & H1 & H2 & H3 & H4 & H5).
        exists w', evs. rewrite Hloop. split; [by destruct failure|].
        split; [done|]. split; [done|]. split; [|done].
        rewrite H3. subst w1. cbn [trace]. by rewrite <- !app_assoc.
      * change {| req_url := url; req_headers := _; req_proxies := _ |}
          with (plain_request cfg url).
        destruct (http_get env _) as [ex|chunks failure]; [done|].
        unfold time_time, open_file, emit, set_files.
        cbn [files now trace].
        match goal with |- context [for_each chunks _ _ ?x] => set (w1 := x) end.
        destruct (store_limited_loop cfg fp chunks (now w) w1 [])
          as (t & w' & evs & Hloop & H1 & H2 & H3 & H4 & H5).
        { subst w1. cbn [files]. apply lookup_insert_eq. }
        exists w', evs. rewrite Hloop. split; [by destruct failure|].
        split; [done|]. split.
        { intros p Hp. rewrite H2 by done. subst w1. cbn [files].
          by rewrite lookup_insert_ne. }
        split; [|done].
        rewrite H3. subst w1. cbn [trace]. by rewrite <- !app_assoc.
    + unfold simple_request, simple_mode. cbn [Z.gtb Z.compare].
      change {| req_url := url; req_headers := _; req_proxies := _ |}
        with (plain_request cfg url).
      destruct (http_get env _) as [ex|chunks failure]; [done|].
      unfold time_time, open_file, emit, set_files.
      cbn [files now trace].
      match goal with |- context [for_each chunks _ _ ?x] => set (w1 := x) end.
      destruct (store_limited_loop cfg fp chunks (now w) w1 [])
        as (t & w' & evs & Hloop & H1 & H2 & H3 & H4 & H5).
      { subst w1. cbn [files]. apply lookup_insert_eq. }
      exists w', evs. rewrite Hloop. split; [by destruct failure|].
      split; [done|]. split.
      { intros p Hp. rewrite H2 by done. subst w1. cbn [files].
        by rewrite lookup_insert_ne. }
      split; [|done].
      rewrite H3. subst w1. cbn [trace]. by rewrite <- !app_assoc.
  - rewrite bool_decide_eq_false_2 by (by intros [? ?]). cbn [andb].
    unfold simple_request, simple_mode. cbn [Z.gtb Z.compare].
    change {| req_url := url; req_headers := _; req_proxies := _ |}
      with (plain_request cfg url).
    destruct (http_get env _) as [ex|chunks failure]; [done|].
    unfold time_time, open_file, emit, set_files.
    cbn [files now trace].
    match goal with |- context [for_each chunks _ _ ?x] => set (w1 := x) end.
    destruct (store_limited_loop cfg fp chunks (now w) w1 [])
      as (t & w' & evs & Hloop & H1 & H2 & H3 & H4 & H5).
    { subst w1. cbn [files]. apply lookup_insert_eq. }
    exists w', evs. rewrite Hloop. split; [by destruct failure|].
    split; [done|]. split.
    { intros p Hp. rewrite H2 by done. subst w1. cbn [files].
      by rewrite lookup_insert_ne. }
    split; [|done].
    rewrite H3. subst w1. cbn [trace]. by rewrite <- !app_assoc.
Qed.

(** ** Segmented download: failure and success *)

Lemma plan_ok (cfg : config) (total : Z) (tasks : list task) :
  1 <= num_threads_of cfg ->
  plan cfg total = Ok tasks ->
  tasks = download_tasks (num_threads_of cfg) (total / num_threads_of cfg) total.
Proof.
  intros Hn Hp. destruct (num_threads_in_range cfg total) as (_ & _ & Heq).
  { unfold num_threads_of in Hn. lia. }
  congruence.
Qed.

(** C2: when some worker of a multi-segment download returned no sink
    (its segment failed), [threaded_download_advanced] returns [False];
    after the workers it only removes sink files, so the destination is
    neither opened nor written and is as it was before the call; and no sink
    [filepath.part<j>], for any worker index [j], is left. *)
Theorem failed_segment_voids_session
    (cfg : config) (env : environment) (order : list nat)
    (url fp : string) (info : file_info) (tasks : list task)
    (results : gmap nat (option string)) (w w1 : world) (i : nat) :
  1 <= num_threads_of cfg ->
  plan cfg (file_size info) = Ok tasks ->
  run_workers cfg env url fp tasks order ∅ w = (Ok results, w1) ->
  (i < length tasks)%nat ->
  results !! i = Some None ->
  exists w2,
    threaded_download_advanced cfg env order url fp info w = (Ok false, w2) /\
    (exists removed,
       trace w2 = trace w1 ++ map EvRemove removed /\
       forall p, p ∈ removed ->
         exists j, 0 <= j < num_threads_of cfg /\ p = part_file fp j) /\
    files w2 !! fp = files w !! fp /\
    (forall j, 0 <= j < num_threads_of cfg ->
       files w2 !! part_file fp j = None) /\
    (forall p, (forall j, 0 <= j < num_threads_of cfg -> p <> part_file fp j) ->
       files w2 !! p = files w1 !! p).
Proof.
  intros Hn Hplan Hrun Hi Hfail.
  apply plan_ok in Hplan as ->; [|done].
  rewrite download_tasks_length in Hi.
  rewrite (threaded_download_run _ _ _ _ _ _ _ _ _ Hn Hrun).
  pose proof (temp_files_of_failed _ _ _ Hi Hfail) as Hlen.
  destruct (reassemble_incomplete fp (num_threads_of cfg)
              (temp_files_of (Z.to_nat (num_threads_of cfg)) results) w1)
    as (w2 & Hre & _ & Hfiles & removed & Htr & Hrem); [lia|].
  destruct (run_workers_total cfg env url fp
              (download_tasks (num_threads_of cfg)
                 (file_size info / num_threads_of cfg) (file_size info))
              order ∅ w) as (r' & w1' & Hrun' & Hfp & _).
  rewrite Hrun in Hrun'. inversion Hrun'; subst r' w1'.
  exists w2. split; [done|]. split.
  { exists removed. split; [done|]. intros p Hp.
    by apply part_file_range, Hrem. }
  split.
  { rewrite Hfiles, decide_False; [done|].
    intros H. apply part_file_range in H as (j & _ & Heq).
    symmetry in Heq. by apply part_file_ne in Heq. }
  split.
  { intros j Hj. rewrite Hfiles, decide_True; [done|].
    apply part_file_range. eauto. }
  intros p Hp. rewrite Hfiles, decide_False; [done|].
  intros H. apply part_file_range in H as (j & Hj & Heq). by apply (Hp j).
Qed.

(** The theorem in the demo session with a server that breaks the stream
    of the second segment: the result is [False] and no file is left, not
    even the partial sink of the failed segment. *)
Lemma failed_segment_voids_session_witness :
  exists w2,
    threaded_download_advanced Demo.cfg (Demo.env_of Demo.flaky_server)
      [2; 0; 1]%nat Demo.url Demo.filepath Demo.info Demo.w0 = (Ok false, w2) /\
    files w2 = ∅.
Proof.
  destruct (failed_segment_voids_session Demo.cfg
              (Demo.env_of Demo.flaky_server) [2; 0; 1]%nat Demo.url
              Demo.filepath Demo.info
              [(0, 1, 0); (2, 3, 1); (4, 6, 2)]
              (<[1%nat := None]>
                 (<[0%nat := Some (part_file Demo.filepath 0)]>
                    (<[2%nat := Some (part_file Demo.filepath 2)]> ∅)))
              Demo.w0
              (run_workers Demo.cfg (Demo.env_of Demo.flaky_server) Demo.url
                 Demo.filepath [(0, 1, 0); (2, 3, 1); (4, 6, 2)]
                 [2; 0; 1]%nat ∅ Demo.w0).2
              1%nat)
    as (w2 & Hrun & _ & _ & _ & _).
  - vm_compute. discriminate.
  - reflexivity.
  - vm_compute. reflexivity.
  - simpl. lia.
  - reflexivity.
  - exists w2. split; [exact Hrun|].
    vm_compute in Hrun. inversion Hrun. reflexivity.
Defined.

(** The slices of the first [k] regular segments, concatenated, are the
    first [k * q] bytes. *)
Lemma regular_prefix_bytes (resource : list byte) (n q total : Z) (k : nat) :
  0 <= q -> Z.of_nat k <= n - 1 ->
  concat (map (fun t : task => range_bytes resource (task_start t) (task_end t))
              (map (task_of n q total) (map Z.of_nat (seq 0 k))))
  = take (k * Z.to_nat q) resource.
Proof.
  intros Hq. induction k as [|k IH]; intros Hk; [done|].
  rewrite seq_S, !map_app, concat_app, IH by lia.
  cbn [map concat Nat.add]. unfold task_of.
  destruct (Z.ltb_spec (Z.of_nat k) (n - 1)); [|lia].
  unfold range_bytes, task_start, task_end. cbn [fst snd].
  rewrite app_nil_r.
  replace (Z.to_nat (Z.of_nat k * q + q - 1 - Z.of_nat k * q + 1))
    with (Z.to_nat q) by lia.
  replace (Z.to_nat (Z.of_nat k * q)) with (k * Z.to_nat q)%nat by nia.
  rewrite take_take_drop. f_equal. lia.
Qed.

(** The planned slices, concatenated in index order, are the resource. *)
Lemma download_tasks_bytes (resource : list byte) (n : Z) :
  1 <= n ->
  concat (map (fun t : task => range_bytes resource (task_start t) (task_end t))
              (download_tasks n (Z.of_nat (length resource) / n)
                 (Z.of_nat (length resource))))
  = resource.
Proof.
  intros Hn. set (total := Z.of_nat (length resource)).
  set (q := total / n).
  assert (Hq : 0 <= q) by (apply Z.div_pos; lia).
  assert (Hnq : n * q <= total) by (apply Z.mul_div_le; lia).
  unfold download_tasks, range.
  replace (Z.to_nat n) with (S (Z.to_nat (n - 1))) by lia.
  rewrite seq_S, !map_app, concat_app, regular_prefix_bytes by lia.
  cbn [map concat Nat.add]. unfold task_of.
  destruct (Z.ltb_spec (Z.of_nat (Z.to_nat (n - 1))) (n - 1)); [lia|].
  unfold range_bytes, task_start, task_end. cbn [fst snd].
  rewrite app_nil_r.
  replace (Z.to_nat (Z.of_nat (Z.to_nat (n - 1)) * q))
    with (Z.to_nat (n - 1) * Z.to_nat q)%nat by nia.
  rewrite (take_ge (drop _ _)).
  - apply take_drop.
  - rewrite length_drop. subst total. nia.
Qed.

Lemma sinks_of_all (fp : string) (fs : gmap string (list byte)) (l : list Z)
    (g : Z -> list byte) :
  (forall i, i ∈ l -> fs !! part_file fp i = Some (g i)) ->
  sinks_of fp fs l = map g l /\
  combine_events fp fs l =
    concat (map (fun i => [EvOpen (part_file fp i) RB; EvWrite fp (g i);
                           EvRemove (part_file fp i)]) l).
Proof.
  unfold sinks_of, combine_events. induction l as [|i l IH]; intros H; [done|].
  destruct IH as [IH1 IH2]. { intros j Hj. apply H. by right. }
  change (omap (fun i0 => fs !! part_file fp i0) (i :: l)) with
    (match fs !! part_file fp i with
     | Some y => y :: omap (fun i0 => fs !! part_file fp i0) l
     | None => omap (fun i0 => fs !! part_file fp i0) l
     end).
  cbn [map concat]. rewrite (H i) by (by left). rewrite IH1, IH2. done.
Qed.

(** A single-stream download to a destination that does not exist yet
    stores the body of the response. *)
Lemma simple_download_fresh (cfg : config) (env : environment)
    (url fp : string) (info : file_info) (w : world)
    (chunks : list (Q * list byte)) :
  files w !! fp = None ->
  http_get env (plain_request cfg url) = Stream chunks None ->
  exists w' evs,
    simple_download_advanced cfg env url fp info w = (Ok true, w') /\
    files w' !! fp = Some (body_of chunks) /\
    (forall p, p <> fp -> files w' !! p = files w !! p) /\
    trace w' = trace w ++
      EvGet (plain_request cfg url) :: EvOpen fp WB :: evs /\
    Forall (write_or_sleep fp) evs.
Proof.
  intros Hnone Hget.
  pose proof (simple_download_run cfg env url fp info w) as H.
  unfold already_complete, resume_pos_of, simple_request, simple_mode in H.
  rewrite Hnone in H. cbn [Z.gtb Z.compare default] in H.
  rewrite Hget in H. destruct H as (w' & evs & H1 & H2 & H3 & H4 & H5 & _).
  exists w', evs. repeat split; auto.
Qed.

(** C3: whatever the order in which the pool completed the workers, when
    every segment is complete (its worker returned its sink) and the sink of
    each segment holds exactly the bytes of the resource in the planned
    range of that segment, [threaded_download_advanced] returns [True] and
    the destination holds the resource, byte for byte what a single-stream
    download of the same resource into a fresh file stores; the sinks are
    read in ascending index order, each one is removed right after it was
    copied, and none is left.  ([run_workers_honest_plan] shows that a
    server honouring the ranges leads to such a state for every order that
    schedules all the workers.) *)
Theorem reassembly_restores_resource
    (cfg : config) (env : environment) (order : list nat)
    (url fp : string) (info : file_info) (resource : list byte)
    (tasks : list task) (results : gmap nat (option string))
    (w w1 : world) :
  1 <= num_threads_of cfg ->
  Z.of_nat (length resource) = file_size info ->
  plan cfg (file_size info) = Ok tasks ->
  run_workers cfg env url fp tasks order ∅ w = (Ok results, w1) ->
  (forall (k : nat) t, tasks !! k = Some t ->
     results !! k = Some (Some (part_file fp (task_id t))) /\
     files w1 !! part_file fp (task_id t) =
       Some (range_bytes resource (task_start t) (task_end t))) ->
  exists w2,
    threaded_download_advanced cfg env order url fp info w = (Ok true, w2) /\
    files w2 !! fp = Some resource /\
    (forall j, 0 <= j < num_threads_of cfg ->
       files w2 !! part_file fp j = None) /\
    (forall p, p <> fp ->
       (forall j, 0 <= j < num_threads_of cfg -> p <> part_file fp j) ->
       files w2 !! p = files w1 !! p) /\
    trace w2 = trace w1 ++ EvOpen fp WB ::
      concat (map (fun t => [EvOpen (part_file fp (task_id t)) RB;
                             EvWrite fp (range_bytes resource (task_start t)
                                                     (task_end t));
                             EvRemove (part_file fp (task_id t))]) tasks) /\
    (forall env' w' chunks,
       files w' !! fp = None ->
       http_get env' (plain_request cfg url) = Stream chunks None ->
       body_of chunks = resource ->
       exists w'',
         simple_download_advanced cfg env' url fp info w' = (Ok true, w'') /\
         files w'' !! fp = files w2 !! fp).
Proof.
  intros Hn Hlen Hplan Hrun Hsinks.
  apply plan_ok in Hplan; [|done]. subst tasks.
  set (n := num_threads_of cfg) in *.
  set (q := file_size info / n) in *.
  rewrite (threaded_download_run _ _ _ _ _ _ _ _ _ Hn Hrun). fold n.
  assert (Hsink : forall i, i ∈ range n ->
            files w1 !! part_file fp i =
              Some (range_bytes resource
                      (task_start (task_of n q (file_size info) i))
                      (task_end (task_of n q (file_size info) i)))).
  { intros i Hi. apply range_elem in Hi.
    destruct (Hsinks (Z.to_nat i) (task_of n q (file_size info) i)) as [_ H].
    - rewrite download_tasks_lookup_nat by lia. by rewrite Z2Nat.id by lia.
    - exact H. }
  destruct (sinks_of_all fp (files w1) (range n) _ Hsink) as [Hs He].
  destruct (reassemble_complete fp n (temp_files_of (Z.to_nat n) results) w1)
    as (w2 & Hre & _ & Hdst & Hother & Htr).
  { rewrite temp_files_of_complete; [lia|].
    intros i Hi.
    destruct (Hsinks i (task_of n q (file_size info) (Z.of_nat i))) as [Hr _].
    - by apply download_tasks_lookup_nat.
    - eexists. split; [exact Hr|].
      intros Heq. pose proof (part_file_truthy fp (Z.of_nat i)) as Ht.
      unfold task_id, task_of in Heq. cbn [snd] in Heq.
      unfold truthy in Ht. rewrite Heq in Ht. done. }
  assert (Hres : files w2 !! fp = Some resource).
  { rewrite Hdst, Hs. f_equal.
    etransitivity; [|apply (download_tasks_bytes resource n Hn)].
    rewrite Hlen. fold q. unfold download_tasks. by rewrite map_map. }
  exists w2. split; [done|]. split; [done|]. split.
  { intros j Hj. rewrite Hother by apply part_file_ne.
    rewrite decide_True; [done|]. apply part_file_range. eauto. }
  split.
  { intros p Hp Hnp. rewrite Hother by done. rewrite decide_False; [done|].
    intros H. apply part_file_range in H as (j & Hj & ->). by apply (Hnp j). }
  split.
  { rewrite Htr, He. do 2 f_equal. unfold download_tasks.
    rewrite map_map. reflexivity. }
  intros env' w' chunks Hnone Hget Hbody.
  destruct (simple_download_fresh cfg env' url fp info w' chunks Hnone Hget)
    as (w'' & evs & Hrun' & Hfp' & _).
  exists w''. split; [done|]. by rewrite Hfp', Hres, Hbody.
Qed.

(** The theorem in the demo session: three workers completing in the order
    2, 0, 1. *)
Lemma reassembly_restores_resource_witness :
  exists w2,
    threaded_download_advanced Demo.cfg (Demo.env_of Demo.server)
      [2; 0; 1]%nat Demo.url Demo.filepath Demo.info Demo.w0 = (Ok true, w2) /\
    files w2 !! Demo.filepath = Some Demo.resource /\
    files w2 !! part_file Demo.filepath 1 = None.
Proof.
  destruct (reassembly_restores_resource Demo.cfg
              (Demo.env_of Demo.server) [2; 0; 1]%nat Demo.url
              Demo.filepath Demo.info Demo.resource
              [(0, 1, 0); (2, 3, 1); (4, 6, 2)]
              (<[1%nat := Some (part_file Demo.filepath 1)]>
                 (<[0%nat := Some (part_file Demo.filepath 0)]>
                    (<[2%nat := Some (part_file Demo.filepath 2)]> ∅)))
              Demo.w0
              (run_workers Demo.cfg (Demo.env_of Demo.server) Demo.url
                 Demo.filepath [(0, 1, 0); (2, 3, 1); (4, 6, 2)]
                 [2; 0; 1]%nat ∅ Demo.w0).2)
    as (w2 & Hrun & Hdst & Hparts & _).
  - vm_compute. discriminate.
  - reflexivity.
  - reflexivity.
  - vm_compute. reflexivity.
  - intros [|[|[|k]]] t H; cbn in H; [..|done];
      injection H as <-; split; vm_compute; reflexivity.
  - exists w2. split; [exact Hrun|]. split; [exact Hdst|].
    apply Hparts. change (num_threads_of Demo.cfg) with 3. lia.
Defined.

(** C6 (amended): the reassembly is guarded by a count, not by an
    exception: a worker without result makes the number of returned sinks
    differ from the number of workers; in that case the function returns
    [False], leaves the destination as it is and only removes sinks.  When
    the count matches, the destination is truncated and receives, in index
    order, the contents of the sinks that exist (a sink that does not exist
    is skipped), each sink being removed after its copy. *)
Theorem reassembly_guard (fp : string) (n : Z) (w : world) :
  (forall (results : gmap nat (option string)) (i : nat),
     (i < Z.to_nat n)%nat -> results !! i = Some None ->
     Z.of_nat (length (temp_files_of (Z.to_nat n) results)) <> n) /\
  (forall temp_files, Z.of_nat (length temp_files) <> n ->
     exists w',
       reassemble fp n temp_files w = (Ok false, w') /\
       files w' !! fp = files w !! fp /\
       (forall j, 0 <= j < n -> files w' !! part_file fp j = None) /\
       exists removed,
         trace w' = trace w ++ map EvRemove removed /\
         forall p, p ∈ removed -> exists j, 0 <= j < n /\ p = part_file fp j) /\
  (forall temp_files, Z.of_nat (length temp_files) = n ->
     exists w',
       reassemble fp n temp_files w = (Ok true, w') /\
       files w' !! fp = Some (concat (sinks_of fp (files w) (range n))) /\
       (forall j, 0 <= j < n -> files w' !! part_file fp j = None) /\
       trace w' = trace w ++
         EvOpen fp WB :: combine_events fp (files w) (range n)).
Proof.
  split; [|split].
  - intros results i Hi Hr.
    pose proof (temp_files_of_failed _ _ _ Hi Hr). lia.
  - intros temp_files Hlen.
    destruct (reassemble_incomplete fp n temp_files w Hlen)
      as (w' & Hre & _ & Hfiles & removed & Htr & Hrem).
    exists w'. split; [done|]. split.
    { rewrite Hfiles, decide_False; [done|].
      intros H. apply part_file_range in H as (j & _ & Heq).
      symmetry in Heq. by apply part_file_ne in Heq. }
    split.
    { intros j Hj. rewrite Hfiles, decide_True; [done|].
      apply part_file_range. eauto. }
    exists removed. split; [done|].
    intros p Hp. by apply part_file_range, Hrem.
  - intros temp_files Hlen.
    destruct (reassemble_complete fp n temp_files w Hlen)
      as (w' & Hre & _ & Hdst & Hother & Htr).
    exists w'. split; [done|]. split; [done|]. split; [|done].
    intros j Hj. rewrite Hother by apply part_file_ne.
    rewrite decide_True; [done|]. apply part_file_range. eauto.
Qed.

(** The theorem in a world where the second of three sinks is missing, with
    two and with three returned sinks. *)
Lemma reassembly_guard_witness :
  (exists w',
     reassemble Demo.filepath 3
       [part_file Demo.filepath 0; part_file Demo.filepath 2]
       Demo.w_missing_sink = (Ok false, w') /\
     files w' = ∅) /\
  (exists w',
     reassemble Demo.filepath 3
       [part_file Demo.filepath 0; part_file Demo.filepath 1;
        part_file Demo.filepath 2]
       Demo.w_missing_sink = (Ok true, w') /\
     files w' !! Demo.filepath = Some [x01; x02; x05; x06; x07]%byte).
Proof.
  destruct (reassembly_guard Demo.filepath 3 Demo.w_missing_sink)
    as (_ & Hfail & Hok).
  split.
  - destruct (Hfail [part_file Demo.filepath 0; part_file Demo.filepath 2])
      as (w' & Hre & _).
    + simpl. lia.
    + exists w'. split; [exact Hre|].
      vm_compute in Hre. inversion Hre. reflexivity.
  - destruct (Hok [part_file Demo.filepath 0; part_file Demo.filepath 1;
                   part_file Demo.filepath 2])
      as (w' & Hre & Hdst & _).
    + simpl. lia.
    + exists w'. split; [exact Hre|]. rewrite Hdst. reflexivity.
Defined.

(** C6 as stated fails: with a failed segment the function returns [False]
    (a normal return, no exception of any kind); and when three sinks were
    returned but the second is missing on disk, the reassembly succeeds and
    writes the destination without it. *)
Lemma reassembly_guard_counterexample :
  (exists w',
     threaded_download_advanced Demo.cfg (Demo.env_of Demo.flaky_server)
       [0; 1; 2]%nat Demo.url Demo.filepath Demo.info Demo.w0
       = (Ok false, w')) /\
  Demo.w_missing_sink.(files) !! part_file Demo.filepath 1 = None /\
  (exists w',
     reassemble Demo.filepath 3
       [part_file Demo.filepath 0; part_file Demo.filepath 1;
        part_file Demo.filepath 2]
       Demo.w_missing_sink = (Ok true, w') /\
     files w' !! Demo.filepath = Some [x01; x02; x05; x06; x07]%byte).
Proof.
  split; [|split].
  - eexists. vm_compute. reflexivity.
  - reflexivity.
  - eexists. split; vm_compute; reflexivity.
Qed.

(** ** Resume, rate limit and unknown size *)




(** C5 (the code against the claim): a segment worker never sleeps,
    whatever the configured rate limit: the [time.sleep] calls of the trace
    are the same before and after it.  At the failing input (limit 1 KB/s,
    three bytes arriving within a millisecond) the worker gets, opens and
    writes, and nothing else; the single-stream download, under the same
    limit and a body arriving as fast, sleeps the deficit. *)
Theorem worker_never_sleeps :
  (forall cfg env url fp s e tid w,
     sleeps (trace (download_chunk cfg env url fp s e tid w).2)
       = sleeps (trace w)) /\
  trace (download_chunk (with_rate_limit 1 Demo.cfg)
           (Demo.env_of Demo.server) Demo.url Demo.filepath 4 6 2 Demo.w0).2
    = [EvGet (range_request (with_rate_limit 1 Demo.cfg) Demo.url 4 6);
       EvOpen (part_file Demo.filepath 2) WB;
       EvWrite (part_file Demo.filepath 2) [x05; x06; x07]%byte] /\
  sleeps (trace (simple_download_advanced (with_rate_limit 1 Demo.cfg)
                   (Demo.env_of Demo.server) Demo.url Demo.filepath
                   Demo.info Demo.w0).2)
    = [(5976 # 1024000)%Q].
Proof.
  split; [|split].
  - intros cfg env url fp s e tid w.
    destruct (download_chunk_total cfg env url fp s e tid w)
      as (r & w' & Hrun & _ & _ & Hsl).
    by rewrite Hrun.
  - vm_compute. reflexivity.
  - vm_compute. reflexivity.
Qed.




(* ===================================================================== *)
(** * Further properties of the download engine *)
(* ===================================================================== *)

Lemma task_lookup_functional (l : list task) (i : nat) (t t' : task) :
  l !! i = Some t -> l !! i = Some t' -> t' = t.
Proof. congruence. Qed.

Lemma task_lookup_not_both (l : list task) (i : nat) (t : task) :
  l !! i = Some t -> l !! i = None -> False.
Proof. congruence. Qed.

Lemma download_chunk_effect (cfg : config) (env : environment)
    (url fp : string) (t : task) (w : world) :
  exists w',
    download_chunk cfg env url fp (task_start t) (task_end t) (task_id t) w
      = (Ok (worker_result cfg env url fp t), w') /\
    files w' !! part_file fp (task_id t) =
      match worker_sink cfg env url t with
      | Some b => Some b
      | None => files w !! part_file fp (task_id t)
      end /\
    (forall p, p <> part_file fp (task_id t) -> files w' !! p = files w !! p) /\
    exists evs, trace w' = trace w ++ evs.
Proof.
  pose proof (download_chunk_run cfg env url fp (task_start t) (task_end t)
                (task_id t) w) as H.
  unfold worker_result, worker_sink.
  destruct (http_get env _) as [ex|chunks failure].
  - eexists. split; [exact H|]. split; [done|]. split; [done|].
    by eexists [_].
  - destruct H as (w' & Hrun & Hsink & Hother & Htr).
    exists w'. split; [by destruct failure|]. split; [done|]. split; [done|].
    eauto.
Qed.

(** The pool, in terms of the server alone: the result stored for a
    scheduled task, the sink it leaves, and nothing else changed. *)
Lemma run_workers_effect (cfg : config) (env : environment)
    (url fp : string) (tasks : list task) (order : list nat)
    (results0 : gmap nat (option string)) (w : world) :
  (forall (k : nat) t, tasks !! k = Some t -> task_id t = Z.of_nat k) ->
  exists results w',
    run_workers cfg env url fp tasks order results0 w = (Ok results, w') /\
    (forall (k : nat) t, k ∈ order -> tasks !! k = Some t ->
       results !! k = Some (worker_result cfg env url fp t) /\
       files w' !! part_file fp (Z.of_nat k) =
         match worker_sink cfg env url t with
         | Some b => Some b
         | None => files w !! part_file fp (Z.of_nat k)
         end) /\
    (forall k, (k ∉ order \/ tasks !! k = None) ->
       results !! k = results0 !! k) /\
    (forall p, (forall k, k ∈ order -> is_Some (tasks !! k) ->
                          p <> part_file fp (Z.of_nat k)) ->
       files w' !! p = files w !! p) /\
    exists evs, trace w' = trace w ++ evs.
Proof.
  intros Hid. revert results0 w.
  induction order as [|i order IH]; intros results0 w.
  - exists results0, w. cbn [run_workers]. unfold_m.
    split; [done|]. split.
    { intros k t Hk. by apply elem_of_nil in Hk. }
    split; [done|]. split; [done|]. exists []. by rewrite app_nil_r.
  - cbn [run_workers]. destruct (tasks !! i) as [t|] eqn:Ht.
    + pose proof (Hid i t Ht) as Htid.
      destruct (download_chunk_effect cfg env url fp t w)
        as (w1 & Hrun & Hsink & Hother & evs1 & Htr1).
      destruct (IH (<[i := worker_result cfg env url fp t]> results0) w1)
        as (results & w2 & Hloop & Hdone & Hkeep & Hfiles & evs2 & Htr2).
      exists results, w2. split.
      { destruct t as [[s e] tid]. unfold task_start, task_end, task_id in Hrun.
        cbn [fst snd] in Hrun. unfold_m. by rewrite Hrun. }
      split.
      { intros k t' Hk Hkt.
        destruct (decide (k ∈ order)) as [Hin|Hnin].
        - destruct (Hdone k t' Hin Hkt) as [Hr Hf]. split; [done|].
          rewrite Hf. destruct (worker_sink cfg env url t') eqn:Hws; [done|].
          destruct (decide (k = i)) as [->|Hne].
          + assert (t' = t) as -> by exact (task_lookup_functional _ _ _ _ Ht Hkt).
            by rewrite <- Htid, Hsink, Hws.
          + apply Hother. rewrite Htid. intros Heq.
            apply part_file_inj, Nat2Z.inj in Heq. done.
        - apply elem_of_cons in Hk as [->|Hk]; [|done].
          assert (t' = t) as -> by exact (task_lookup_functional _ _ _ _ Ht Hkt). split.
          + rewrite Hkeep by auto. apply lookup_insert_eq.
          + rewrite Hfiles.
            * by rewrite <- Htid.
            * intros k Hk _ Heq. apply part_file_inj, Nat2Z.inj in Heq.
              by subst. }
      split.
      { intros k Hk. rewrite Hkeep.
        - apply lookup_insert_ne. intros <-.
          destruct Hk as [Hk|Hk];
            [|by destruct (task_lookup_not_both _ _ _ Ht Hk)].
          apply Hk. by left.
        - destruct Hk as [Hk|Hk]; [|by right].
          left. intros Hin. apply Hk. by right. }
      split.
      { intros p Hp. rewrite Hfiles, Hother.
        - done.
        - rewrite Htid. apply Hp; [by left|by eexists].
        - intros k Hk Hs. apply Hp; [by right|done]. }
      exists (evs1 ++ evs2). by rewrite Htr2, Htr1, app_assoc.
    + destruct (IH results0 w)
        as (results & w2 & Hloop & Hdone & Hkeep & Hfiles & evs2 & Htr2).
      exists results, w2. split; [done|]. split.
      { intros k t' Hk Hkt. apply elem_of_cons in Hk as [->|Hk];
          [by destruct (task_lookup_not_both _ _ _ Hkt Ht)|by apply Hdone]. }
      split.
      { intros k Hk. apply Hkeep.
        destruct (decide (k = i)) as [->|Hne]; [by right|].
        destruct Hk as [Hk|Hk]; [|by right].
        left. intros Hin. apply Hk. by right. }
      split.
      { intros p Hp. apply Hfiles. intros k Hk Hs. apply Hp; [by right|done]. }
      eauto.
Qed.

Lemma download_tasks_ids (n q total : Z) (k : nat) (t : task) :
  download_tasks n q total !! k = Some t -> task_id t = Z.of_nat k.
Proof. intros H. by apply download_tasks_lookup_Some in H as [_ ->]. Qed.

(** The outcome of the reassembly depends on the files only, not on the
    clock or on the trace. *)
Lemma reassemble_files_determined (fp : string) (n : Z)
    (temp_files : list string) (wa wb : world) :
  files wa = files wb ->
  (reassemble fp n temp_files wa).1 = (reassemble fp n temp_files wb).1 /\
  files (reassemble fp n temp_files wa).2 =
    files (reassemble fp n temp_files wb).2.
Proof.
  intros Heq.
  destruct (decide (Z.of_nat (length temp_files) = n)) as [Hlen|Hlen].
  - destruct (reassemble_complete fp n temp_files wa Hlen)
      as (wa' & Ha & _ & Hda & Hoa & _).
    destruct (reassemble_complete fp n temp_files wb Hlen)
      as (wb' & Hb & _ & Hdb & Hob & _).
    rewrite Ha, Hb. split; [done|]. cbn [snd]. apply map_eq. intros p.
    destruct (decide (p = fp)) as [->|Hne].
    + by rewrite Hda, Hdb, Heq.
    + by rewrite Hoa, Hob, Heq.
  - destruct (reassemble_incomplete fp n temp_files wa Hlen)
      as (wa' & Ha & _ & Hfa & _).
    destruct (reassemble_incomplete fp n temp_files wb Hlen)
      as (wb' & Hb & _ & Hfb & _).
    rewrite Ha, Hb. split; [done|]. cbn [snd]. apply map_eq. intros p.
    by rewrite Hfa, Hfb, Heq.
Qed.

(** The run of the segmented download in the model, whose file system never
    refuses an operation: the value, the sinks, the other files and the
    destination. *)
Lemma threaded_download_outcome
    (cfg : config) (env : environment) (order : list nat)
    (url fp : string) (info : file_info) (w : world) :
  1 <= num_threads_of cfg ->
  exists (b : bool) (w' : world),
    threaded_download_advanced cfg env order url fp info w = (Ok b, w') /\
    (forall j, 0 <= j < num_threads_of cfg ->
       files w' !! part_file fp j = None) /\
    (forall p, p <> fp ->
       (forall j, 0 <= j < num_threads_of cfg -> p <> part_file fp j) ->
       files w' !! p = files w !! p) /\
    (b = false -> files w' !! fp = files w !! fp) /\
    (b = true -> is_Some (files w' !! fp)).
Proof.
  intros Hn.
  set (n := num_threads_of cfg) in *.
  set (tasks := download_tasks n (file_size info / n) (file_size info)).
  destruct (run_workers_effect cfg env url fp tasks order ∅ w)
    as (results & w1 & Hrun & _ & _ & Hframe & _).
  { apply download_tasks_ids. }
  rewrite (threaded_download_run _ _ _ _ _ _ _ _ _ Hn Hrun). fold n.
  assert (Hw1 : forall p, (forall j, 0 <= j < n -> p <> part_file fp j) ->
            files w1 !! p = files w !! p).
  { intros p Hp. apply Hframe. intros k _ [t Hk]. apply Hp.
    apply lookup_lt_Some in Hk. unfold tasks in Hk.
    rewrite download_tasks_length in Hk. lia. }
  destruct (decide (Z.of_nat (length (temp_files_of (Z.to_nat n) results)) = n))
    as [Hlen|Hlen].
  - destruct (reassemble_complete fp n _ w1 Hlen)
      as (w2 & Hre & _ & Hdst & Hother & _).
    exists true, w2. split; [done|]. split.
    { intros j Hj. rewrite Hother by apply part_file_ne.
      rewrite decide_True; [done|]. apply part_file_range. eauto. }
    split.
    { intros p Hp Hnp. rewrite Hother by done. rewrite decide_False.
      - by apply Hw1.
      - intros H. apply part_file_range in H as (j & Hj & ->). by apply (Hnp j). }
    split; [done|]. intros _. rewrite Hdst. by eexists.
  - destruct (reassemble_incomplete fp n _ w1 Hlen)
      as (w2 & Hre & _ & Hfiles & _).
    exists false, w2. split; [done|]. split.
    { intros j Hj. rewrite Hfiles, decide_True; [done|].
      apply part_file_range. eauto. }
    split.
    { intros p Hp Hnp. rewrite Hfiles, decide_False.
      - by apply Hw1.
      - intros H. apply part_file_range in H as (j & Hj & ->). by apply (Hnp j). }
    split; [|done]. intros _. rewrite Hfiles, decide_False.
    + apply Hw1. intros j _. apply not_eq_sym, part_file_ne.
    + intros H. apply part_file_range in H as (j & _ & Heq).
      symmetry in Heq. by apply part_file_ne in Heq.
Qed.

(** X1: whenever the segmented download of at least one worker returns,
    with [True] or with [False], no sink is left, the destination exists
    after [True] and is as it was after [False]; and however the call ends,
    no file other than the destination and the sinks is touched.  Whether
    the call returns is not part of the statement: the reassembly and the
    clean-up of the source are outside any [try], so an [OSError] there
    propagates, which the file system of the model never raises. *)
Theorem threaded_download_leaves_no_sink
    (cfg : config) (env : environment) (order : list nat)
    (url fp : string) (info : file_info) (w w' : world) (r : result bool) :
  1 <= num_threads_of cfg ->
  threaded_download_advanced cfg env order url fp info w = (r, w') ->
  (forall p, p <> fp ->
     (forall j, 0 <= j < num_threads_of cfg -> p <> part_file fp j) ->
     files w' !! p = files w !! p) /\
  (forall b, r = Ok b ->
     (forall j, 0 <= j < num_threads_of cfg ->
        files w' !! part_file fp j = None) /\
     (b = false -> files w' !! fp = files w !! fp) /\
     (b = true -> is_Some (files w' !! fp))).
Proof.
  intros Hn Hrun.
  destruct (threaded_download_outcome cfg env order url fp info w Hn)
    as (b0 & w0 & Hrun0 & Hparts & Hframe & Hfalse & Htrue).
  rewrite Hrun0 in Hrun. inversion Hrun; subst r w'.
  split; [exact Hframe|]. intros b [= <-]. by repeat split.
Qed.

Lemma threaded_download_leaves_no_sink_witness :
  (forall p, p <> Demo.filepath ->
     (forall j, 0 <= j < num_threads_of Demo.cfg ->
        p <> part_file Demo.filepath j) ->
     files (threaded_download_advanced Demo.cfg
              (Demo.env_of Demo.flaky_server) [1; 2; 0]%nat Demo.url
              Demo.filepath Demo.info Demo.w_partial).2 !! p
       = files Demo.w_partial !! p) /\
  (forall b, Ok false = Ok b ->
     (forall j, 0 <= j < num_threads_of Demo.cfg ->
        files (threaded_download_advanced Demo.cfg
                 (Demo.env_of Demo.flaky_server) [1; 2; 0]%nat Demo.url
                 Demo.filepath Demo.info Demo.w_partial).2
          !! part_file Demo.filepath j = None) /\
     (b = false ->
      files (threaded_download_advanced Demo.cfg
               (Demo.env_of Demo.flaky_server) [1; 2; 0]%nat Demo.url
               Demo.filepath Demo.info Demo.w_partial).2 !! Demo.filepath
        = files Demo.w_partial !! Demo.filepath) /\
     (b = true ->
      is_Some (files (threaded_download_advanced Demo.cfg
                        (Demo.env_of Demo.flaky_server) [1; 2; 0]%nat
                        Demo.url Demo.filepath Demo.info Demo.w_partial).2
                 !! Demo.filepath))).
Proof.
  apply (threaded_download_leaves_no_sink Demo.cfg
           (Demo.env_of Demo.flaky_server) [1; 2; 0]%nat Demo.url
           Demo.filepath Demo.info Demo.w_partial).
  - vm_compute. discriminate.
  - vm_compute. reflexivity.
Defined.

(** X2: the outcome of the segmented download does not depend on the order in
    which the pool completes the workers. *)
Theorem threaded_download_order_independent
    (cfg : config) (env : environment) (order1 order2 : list nat)
    (url fp : string) (info : file_info) (w : world) :
  1 <= num_threads_of cfg ->
  order1 ≡ₚ order2 ->
  (threaded_download_advanced cfg env order1 url fp info w).1 =
    (threaded_download_advanced cfg env order2 url fp info w).1 /\
  files (threaded_download_advanced cfg env order1 url fp info w).2 =
    files (threaded_download_advanced cfg env order2 url fp info w).2.
Proof.
  intros Hn Hperm.
  set (n := num_threads_of cfg) in *.
  set (tasks := download_tasks n (file_size info / n) (file_size info)).
  destruct (run_workers_effect cfg env url fp tasks order1 ∅ w)
    as (r1 & w1 & Hrun1 & Hdone1 & Hkeep1 & Hframe1 & _).
  { apply download_tasks_ids. }
  destruct (run_workers_effect cfg env url fp tasks order2 ∅ w)
    as (r2 & w2 & Hrun2 & Hdone2 & Hkeep2 & Hframe2 & _).
  { apply download_tasks_ids. }
  rewrite (threaded_download_run _ _ _ _ _ _ _ _ _ Hn Hrun1).
  rewrite (threaded_download_run _ _ _ _ _ _ _ _ _ Hn Hrun2). fold n.
  assert (Hres : r1 = r2).
  { apply map_eq. intros k.
    destruct (tasks !! k) as [t|] eqn:Hk.
    - destruct (decide (k ∈ order1)) as [Hin|Hnin].
      + destruct (Hdone1 k t Hin Hk) as [-> _].
        rewrite Hperm in Hin. by destruct (Hdone2 k t Hin Hk) as [-> _].
      + rewrite Hkeep1 by auto. rewrite Hperm in Hnin.
        by rewrite Hkeep2 by auto.
    - by rewrite Hkeep1, Hkeep2 by auto. }
  assert (Hfiles : files w1 = files w2).
  { apply map_eq. intros p.
    destruct (decide (Exists (fun k => is_Some (tasks !! k) /\
                                       p = part_file fp (Z.of_nat k)) order1))
      as [Hex|Hnex].
    - apply Exists_exists in Hex as (k & Hin & [t Hk] & ->).
      destruct (Hdone1 k t Hin Hk) as [_ ->].
      rewrite Hperm in Hin. by destruct (Hdone2 k t Hin Hk) as [_ ->].
    - rewrite Hframe1, Hframe2; [done| |].
      + intros k Hin Hs Heq. apply Hnex, Exists_exists.
        exists k. rewrite Hperm. done.
      + intros k Hin Hs Heq. apply Hnex, Exists_exists. by exists k. }
  subst r2. by apply reassemble_files_determined.
Qed.

Lemma threaded_download_order_independent_witness :
  (threaded_download_advanced Demo.cfg (Demo.env_of Demo.server)
     [2; 0; 1]%nat Demo.url Demo.filepath Demo.info Demo.w0).1 =
  (threaded_download_advanced Demo.cfg (Demo.env_of Demo.server)
     [0; 1; 2]%nat Demo.url Demo.filepath Demo.info Demo.w0).1 /\
  files (threaded_download_advanced Demo.cfg (Demo.env_of Demo.server)
     [2; 0; 1]%nat Demo.url Demo.filepath Demo.info Demo.w0).2 =
  files (threaded_download_advanced Demo.cfg (Demo.env_of Demo.server)
     [0; 1; 2]%nat Demo.url Demo.filepath Demo.info Demo.w0).2.
Proof.
  apply threaded_download_order_independent.
  - vm_compute. discriminate.
  - apply (Permutation_cons_append [0; 1]%nat 2%nat).
Defined.

(** X3: the single-stream download touches no file other than its
    destination, whatever the server does and however the call ends. *)
Theorem simple_download_touches_only_destination
    (cfg : config) (env : environment) (url fp : string) (info : file_info)
    (w : world) (p : string) :
  p <> fp ->
  files (simple_download_advanced cfg env url fp info w).2 !! p
    = files w !! p.
Proof.
  intros Hp.
  pose proof (simple_download_run cfg env url fp info w) as H. cbv zeta in H.
  destruct (already_complete cfg (files w) fp (file_size info)).
  - by rewrite H.
  - destruct (http_get env _) as [e|chunks failure].
    + by rewrite H.
    + destruct H as (w' & evs & -> & _ & Hother & _). by apply Hother.
Qed.

Lemma simple_download_touches_only_destination_witness :
  files (simple_download_advanced Demo.cfg (Demo.env_of Demo.server) Demo.url
           "dl/other.bin" Demo.info Demo.w_partial).2 !! Demo.filepath
    = Some [x01; x02; x03]%byte.
Proof.
  rewrite simple_download_touches_only_destination; [reflexivity|].
  discriminate.
Defined.

(** X4: when the server refuses the request (connection error or error
    status), the single-stream download raises that exception with the file
    system untouched: an existing partial destination is neither truncated
    nor removed.  When the stream breaks after some chunks, it raises too,
    and the destination keeps what arrived (after the old bytes when
    resuming). *)
Theorem simple_download_failure_modes
    (cfg : config) (env : environment) (url fp : string) (info : file_info)
    (w : world) :
  already_complete cfg (files w) fp (file_size info) = false ->
  (forall e,
     http_get env (simple_request cfg url (resume_pos_of cfg (files w) fp))
       = Refused e ->
     exists w',
       simple_download_advanced cfg env url fp info w = (Raise e, w') /\
       files w' = files w) /\
  (forall chunks e,
     http_get env (simple_request cfg url (resume_pos_of cfg (files w) fp))
       = Stream chunks (Some e) ->
     exists w',
       simple_download_advanced cfg env url fp info w = (Raise e, w') /\
       files w' !! fp =
         Some ((if resume_pos_of cfg (files w) fp >? 0
                then default [] (files w !! fp) else []) ++ body_of chunks)).
Proof.
  intros Hnc.
  pose proof (simple_download_run cfg env url fp info w) as H. cbv zeta in H.
  rewrite Hnc in H. split.
  - intros e Hget. rewrite Hget in H. eexists. split; [exact H|done].
  - intros chunks e Hget. rewrite Hget in H.
    destruct H as (w' & evs & Hrun & Hfp & _). by exists w'.
Qed.

Lemma simple_download_failure_modes_witness :
  exists w',
    simple_download_advanced Demo.cfg
      (Demo.env_of (fun _ => Refused (RequestException "Connection refused")))
      Demo.url Demo.filepath Demo.info Demo.w_partial
      = (Raise (RequestException "Connection refused"), w') /\
    files w' = files Demo.w_partial.
Proof.
  destruct (simple_download_failure_modes Demo.cfg
              (Demo.env_of (fun _ => Refused (RequestException "Connection refused")))
              Demo.url Demo.filepath Demo.info Demo.w_partial eq_refl)
    as [Href _].
  exact (Href _ eq_refl).
Defined.

(** X5: a download that broke after the first [k > 0] bytes is completed by
    the next call: with resuming enabled the second call asks for
    [bytes=k-], appends, and the destination ends up equal to the
    resource. *)
Theorem interrupted_download_resumes
    (cfg : config) (env1 env2 : environment) (url fp : string)
    (info : file_info) (resource : list byte) (k : nat)
    (chunks1 chunks2 : list (Q * list byte)) (e : exn) (w : world) :
  resume_downloads cfg = true ->
  files w !! fp = None ->
  Z.of_nat (length resource) = file_size info ->
  (0 < k < length resource)%nat ->
  http_get env1 (plain_request cfg url) = Stream chunks1 (Some e) ->
  body_of chunks1 = take k resource ->
  http_get env2 (resume_request cfg url (Z.of_nat k)) = Stream chunks2 None ->
  body_of chunks2 = drop k resource ->
  exists w1 w2,
    simple_download_advanced cfg env1 url fp info w = (Raise e, w1) /\
    files w1 !! fp = Some (take k resource) /\
    simple_download_advanced cfg env2 url fp info w1 = (Ok true, w2) /\
    files w2 !! fp = Some resource.
Proof.
  intros Hres Hnone Hsize Hk Hget1 Hb1 Hget2 Hb2.
  pose proof (simple_download_run cfg env1 url fp info w) as H1.
  unfold already_complete, resume_pos_of, simple_request, simple_mode in H1.
  rewrite Hnone in H1. cbn [Z.gtb Z.compare default] in H1.
  rewrite Hget1 in H1.
  destruct H1 as (w1 & evs1 & Hrun1 & Hfp1 & _).
  rewrite Hb1 in Hfp1. cbn [app] in Hfp1.
  pose proof (simple_download_run cfg env2 url fp info w1) as H2.
  unfold already_complete, resume_pos_of, simple_request, simple_mode in H2.
  rewrite Hfp1, Hres in H2. cbn [andb default] in H2.
  assert (Hlen : length (take k resource) = k) by (rewrite length_take; lia).
  rewrite Hlen in H2.
  assert ((Z.of_nat k =? file_size info) = false) as Hne by lia.
  assert ((Z.of_nat k >? 0) = true) as Hgt by lia.
  rewrite Hne, Hgt, Hget2 in H2.
  destruct H2 as (w2 & evs2 & Hrun2 & Hfp2 & _).
  exists w1, w2. split; [done|]. split; [done|]. split; [done|].
  rewrite Hfp2, Hb2. unfold id. by rewrite take_drop.
Qed.

Lemma interrupted_download_resumes_witness :
  exists w1 w2,
    simple_download_advanced Demo.cfg
      (Demo.env_of (fun _ => Stream [(0, [x01; x02; x03]%byte)]%Q
                               (Some (RequestException "Read timed out"))))
      Demo.url Demo.filepath Demo.info Demo.w0
      = (Raise (RequestException "Read timed out"), w1) /\
    files w1 !! Demo.filepath = Some [x01; x02; x03]%byte /\
    simple_download_advanced Demo.cfg (Demo.env_of Demo.server) Demo.url
      Demo.filepath Demo.info w1 = (Ok true, w2) /\
    files w2 !! Demo.filepath = Some Demo.resource.
Proof.
  apply (interrupted_download_resumes Demo.cfg _ (Demo.env_of Demo.server)
           Demo.url Demo.filepath Demo.info Demo.resource 3
           [(0, [x01; x02; x03]%byte)]%Q
           [(0, [x04; x05]%byte); (0, [x06; x07]%byte)]%Q).
  - reflexivity.
  - reflexivity.
  - reflexivity.
  - simpl. lia.
  - reflexivity.
  - reflexivity.
  - reflexivity.
  - reflexivity.
Defined.

(** X6: the segments are balanced: every segment but the last has exactly
    [total // n] bytes and the last has at least as many and fewer than
    [total // n + n]; with at least as many bytes as workers no segment is
    empty. *)
Theorem plan_segments_balanced (n total : Z) (k : nat) (t : task) :
  1 <= n -> 0 <= total ->
  download_tasks n (total / n) total !! k = Some t ->
  (Z.of_nat k < n - 1 -> task_len t = total / n) /\
  (Z.of_nat k = n - 1 -> total / n <= task_len t < total / n + n) /\
  (n <= total -> 1 <= task_len t).
Proof.
  intros Hn Ht Hk.
  apply download_tasks_lookup_Some in Hk as [Hk ->].
  assert (Hq : 0 <= total / n) by (apply Z.div_pos; lia).
  pose proof (Z.mul_div_le total n ltac:(lia)) as Hle.
  pose proof (Z.mul_succ_div_gt total n ltac:(lia)) as Hgt.
  unfold task_len, task_end, task_start. cbn [fst snd].
  destruct (Z.ltb_spec (Z.of_nat k) (n - 1)).
  - split; [lia|]. split; [lia|]. intros Hnt.
    assert (1 <= total / n) by (apply Z.div_le_lower_bound; lia). lia.
  - split; [lia|]. split; [nia|]. intros Hnt.
    assert (1 <= total / n) by (apply Z.div_le_lower_bound; lia). nia.
Qed.

Lemma plan_segments_balanced_witness :
  (Z.of_nat 3 < 4 - 1 -> task_len (6, 9, 3) = 10 / 4) /\
  (Z.of_nat 3 = 4 - 1 -> 10 / 4 <= task_len (6, 9, 3) < 10 / 4 + 4) /\
  (4 <= 10 -> 1 <= task_len (6, 9, 3)).
Proof.
  apply (plan_segments_balanced 4 10 3 (6, 9, 3)); [lia|lia|reflexivity].
Defined.

(** X7: with fewer bytes than workers the chunk size is 0: every worker but
    the last is given the empty range [[0, -1]] (and asks the server for
    [bytes=0--1]), the last one the whole resource. *)
Theorem plan_segments_fewer_bytes_than_workers (n total : Z) (k : nat) (t : task) :
  1 <= n -> 0 <= total < n ->
  download_tasks n (total / n) total !! k = Some t ->
  (Z.of_nat k < n - 1 -> t = (0, -1, Z.of_nat k)) /\
  (Z.of_nat k = n - 1 -> t = (0, total - 1, n - 1)).
Proof.
  intros Hn Ht Hk.
  apply download_tasks_lookup_Some in Hk as [Hk ->].
  rewrite Z.div_small by lia.
  destruct (Z.ltb_spec (Z.of_nat k) (n - 1)).
  - split; [|lia]. intros _. do 2 f_equal; lia.
  - split; [lia|]. intros Hlast. rewrite Hlast. do 2 f_equal. lia.
Qed.

Lemma plan_segments_fewer_bytes_than_workers_witness :
  plan_segments 3 2 = Ok [(0, -1, 0); (0, -1, 1); (0, 1, 2)] /\
  (Z.of_nat 1 < 3 - 1 -> ((0, -1, 1) : task) = (0, -1, Z.of_nat 1)) /\
  (Z.of_nat 1 = 3 - 1 -> ((0, -1, 1) : task) = (0, 2 - 1, 3 - 1)).
Proof.
  split; [reflexivity|].
  apply (plan_segments_fewer_bytes_than_workers 3 2 1 (0, -1, 1));
    [lia|lia|reflexivity].
Defined.

(** [professional_download] for a resource of more than 10 MiB on a server
    with range support: the probe, then the segmented download inside
    [try ... except]. *)
Lemma professional_download_segmented
    (cfg : config) (env : environment)
    (urlparse : string -> result ParseResult) (order : list nat)
    (url fp : string) (info : file_info) (w : world) :
  (validate_url urlparse cfg url).1 = true ->
  http_head env url = inl info ->
  10 * 1024 * 1024 < file_size info ->
  supports_resume info = true ->
  prepare env info (files w) = Some fp ->
  professional_download cfg env urlparse order url w =
    try_except
      (success ← threaded_download_advanced cfg env order url fp info;
       if (success : bool) then mret (Some true) else mret None)
      (fun _ => mret (Some false)) (emit (EvHead url) w).
Proof.
  intros Hvalid Hhead Hsize Hres Hprep.
  unfold professional_download.
  destruct (validate_url urlparse cfg url) as [v msg]. simpl in Hvalid.
  subst v. cbn [negb].
  unfold get_file_info_advanced, current_files. unfold_m.
  rewrite Hhead. unfold emit at 1. cbn [files].
  rewrite Hprep, Hres.
  destruct (Z.gtb_spec (file_size info) (10 * 1024 * 1024)); [|lia].
  reflexivity.
Qed.

(** X8: a worker count of 0 does not escape [professional_download]: for a
    resource of more than 10 MiB (and less than 1 TiB, so that the probe has
    a size label) on a server with range support, the
    [ZeroDivisionError] of the planner is caught, the function returns
    [False], and nothing happened but the probe. *)
Theorem professional_download_zero_threads
    (cfg : config) (env : environment)
    (urlparse : string -> result ParseResult) (order : list nat)
    (url fp : string) (info : file_info) (w : world) :
  max_threads cfg = 0 ->
  (validate_url urlparse cfg url).1 = true ->
  http_head env url = inl info ->
  10 * 1024 * 1024 < file_size info < 1024 ^ 4 ->
  supports_resume info = true ->
  prepare env info (files w) = Some fp ->
  professional_download cfg env urlparse order url w =
    (Ok (Some false), emit (EvHead url) w).
Proof.
  intros Hmax Hvalid Hhead [Hsize _] Hres Hprep.
  rewrite (professional_download_segmented _ _ _ _ _ fp info)
    by done.
  unfold threaded_download_advanced, plan_segments, floordiv, num_threads_of.
  rewrite Hmax. reflexivity.
Qed.

Lemma professional_download_zero_threads_witness :
  professional_download (with_max_threads 0 DEFAULT_CONFIG)
    (Demo.env_big Demo.refusing_server)
    (Urllib.urlparse Urllib.any_bracketed_host) [] Demo.url Demo.w0 =
    (Ok (Some false), emit (EvHead Demo.url) Demo.w0).
Proof.
  apply (professional_download_zero_threads
           (with_max_threads 0 DEFAULT_CONFIG)
           (Demo.env_big Demo.refusing_server)
           (Urllib.urlparse Urllib.any_bracketed_host) [] Demo.url
           Demo.filepath Demo.info_big Demo.w0).
  - reflexivity.
  - vm_compute. reflexivity.
  - reflexivity.
  - simpl. lia.
  - reflexivity.
  - reflexivity.
Defined.

(** X9: when the worker of a scheduled segment fails (resource of more than
    10 MiB and less than 1 TiB, server with range support),
    [professional_download] ends without [return] (value [None], which its
    callers read as failure): the destination is as before and no sink is
    left. *)
Theorem professional_download_failed_segment
    (cfg : config) (env : environment)
    (urlparse : string -> result ParseResult) (order : list nat)
    (url fp : string) (info : file_info) (w : world)
    (tasks : list task) (k : nat) (t : task) :
  1 <= num_threads_of cfg ->
  (validate_url urlparse cfg url).1 = true ->
  http_head env url = inl info ->
  10 * 1024 * 1024 < file_size info < 1024 ^ 4 ->
  supports_resume info = true ->
  prepare env info (files w) = Some fp ->
  plan cfg (file_size info) = Ok tasks ->
  tasks !! k = Some t ->
  k ∈ order ->
  worker_result cfg env url fp t = None ->
  exists w',
    professional_download cfg env urlparse order url w = (Ok None, w') /\
    files w' !! fp = files w !! fp /\
    (forall j, 0 <= j < num_threads_of cfg ->
       files w' !! part_file fp j = None).
Proof.
  intros Hn Hvalid Hhead [Hsize _] Hres Hprep Hplan Hk Hin Hfail.
  rewrite (professional_download_segmented _ _ _ _ _ fp info) by done.
  apply plan_ok in Hplan; [|done]. subst tasks.
  set (n := num_threads_of cfg) in *.
  set (w0 := emit (EvHead url) w).
  destruct (run_workers_effect cfg env url fp
              (download_tasks n (file_size info / n) (file_size info))
              order ∅ w0)
    as (results & w1 & Hrun & Hdone & _ & Hframe & _).
  { apply download_tasks_ids. }
  destruct (Hdone k t Hin Hk) as [Hr _]. rewrite Hfail in Hr.
  assert (Hlt : (k < Z.to_nat n)%nat).
  { apply lookup_lt_Some in Hk. by rewrite download_tasks_length in Hk. }
  pose proof (temp_files_of_failed _ _ _ Hlt Hr) as Hlen.
  destruct (reassemble_incomplete fp n
              (temp_files_of (Z.to_nat n) results) w1)
    as (w2 & Hre & _ & Hfiles & _); [lia|].
  exists w2. split.
  { unfold_m. rewrite (threaded_download_run _ _ _ _ _ _ _ _ _ Hn Hrun).
    fold n. by rewrite Hre. }
  split.
  { rewrite Hfiles, decide_False.
    - rewrite Hframe; [done|]. intros j _ _. apply not_eq_sym, part_file_ne.
    - intros H. apply part_file_range in H as (j & _ & Heq).
      symmetry in Heq. by apply part_file_ne in Heq. }
  intros j Hj. rewrite Hfiles, decide_True; [done|].
  apply part_file_range. eauto.
Qed.

Lemma professional_download_failed_segment_witness :
  exists w',
    professional_download Demo.cfg (Demo.env_big Demo.refusing_server)
      (Urllib.urlparse Urllib.any_bracketed_host) [0; 1; 2]%nat Demo.url
      Demo.w0 = (Ok None, w') /\
    files w' !! Demo.filepath = files Demo.w0 !! Demo.filepath /\
    (forall j, 0 <= j < num_threads_of Demo.cfg ->
       files w' !! part_file Demo.filepath j = None).
Proof.
  apply (professional_download_failed_segment Demo.cfg
           (Demo.env_big Demo.refusing_server)
           (Urllib.urlparse Urllib.any_bracketed_host) [0; 1; 2]%nat Demo.url
           Demo.filepath Demo.info_big Demo.w0
           (download_tasks 3 5592405 16777216) 1%nat
           (5592405, 11184809, 1)).
  - vm_compute. discriminate.
  - vm_compute. reflexivity.
  - reflexivity.
  - simpl. lia.
  - reflexivity.
  - reflexivity.
  - vm_compute. reflexivity.
  - vm_compute. reflexivity.
  - apply list_elem_of_further, list_elem_of_here.
  - vm_compute. reflexivity.
Defined.

Lemma lower_ascii_not_upper (c : ascii) : is_upper (lower_ascii c) = false.
Proof. destruct c as [[] [] [] [] [] [] [] []]; reflexivity. Qed.

Lemma lower_no_upper (s : string) : has_upper (lower s) = false.
Proof.
  induction s as [|c s IH]; [done|]. simpl.
  by rewrite lower_ascii_not_upper, IH.
Qed.

Lemma has_upper_app (a b : string) :
  has_upper (a +:+ b) = has_upper a || has_upper b.
Proof.
  induction a as [|c a IH]; [done|]. simpl. by rewrite IH, orb_assoc.
Qed.

Lemma endswith_lower_no_upper (path ext : string) :
  has_upper ext = true -> endswith (lower path) ext = false.
Proof.
  intros Hup. destruct (endswith (lower path) ext) eqn:He; [|done].
  apply endswith_spec in He as [pre He].
  pose proof (lower_no_upper path) as Hl.
  rewrite He, has_upper_app, Hup, orb_true_r in Hl. done.
Qed.

Lemma blocked_ext_of_In (cfg : config) (path ext : string) :
  In ext (blocked_ext_of cfg path) <->
  In ext (blocked_extensions cfg) /\ endswith path ext = true.
Proof. unfold blocked_ext_of. apply filter_In. Qed.

(** X10: the path is lower-cased before the comparison and the configured
    extensions are not: a blocked extension that contains an upper-case
    letter never matches, and a block list made of such extensions blocks
    nothing. *)
Theorem validate_url_upper_case_extension
    (urlparse : string -> result ParseResult) (cfg : config) (url : string)
    (p : ParseResult) :
  urlparse url = Ok p ->
  (forall ext, has_upper ext = true ->
     validate_url urlparse cfg url <> (false, "Blocked file type: " +:+ ext)) /\
  ((forall ext, In ext (blocked_extensions cfg) -> has_upper ext = true) ->
   In (scheme p) (allowed_protocols cfg) ->
   netloc p <> "" ->
   ~ In (lower (netloc p)) suspicious_domains ->
   validate_url urlparse cfg url = (true, "Valid URL")).
Proof.
  intros Hp. split.
  - intros ext Hup. rewrite (validate_url_cases _ _ _ p Hp).
    destruct (negb _).
    { intros H. apply (f_equal snd) in H. cbn in H. discriminate H. }
    destruct (String.eqb _ _); [discriminate|].
    destruct (_ && _); [discriminate|].
    destruct (blocked_ext_of cfg (lower (path p))) as [|e l] eqn:Hb;
      [discriminate|].
    intros H. injection H as H. apply (inj (String.app _)) in H. subst e.
    assert (Hin : In ext (blocked_ext_of cfg (lower (path p))))
      by (rewrite Hb; by left).
    apply blocked_ext_of_In in Hin as [_ Hend].
    by rewrite endswith_lower_no_upper in Hend.
  - intros Hall Hs Hn Hsus. rewrite (validate_url_cases _ _ _ p Hp).
    apply str_in_true in Hs. apply str_in_false in Hsus.
    rewrite Hs, Hsus. cbn [negb andb].
    destruct (String.eqb_spec (netloc p) ""); [done|].
    assert (blocked_ext_of cfg (lower (path p)) = []) as ->; [|done].
    apply blocked_ext_of_nil. intros ext Hin.
    apply endswith_lower_no_upper. by apply Hall.
Qed.

Lemma validate_url_upper_case_extension_witness :
  validate_url (Urllib.urlparse Urllib.any_bracketed_host)
    {| max_threads := 16; user_agent := "UA"; proxy_enabled := false;
       proxy_type := "http"; proxy_auth := false; proxy_username := "";
       proxy_password := ""; proxy_host := ""; proxy_port := "8080";
       blocked_extensions := [".EXE"];
       allowed_protocols := ["http"; "https"];
       resume_downloads := true; download_rate_limit_kbps := 0 |}
    "https://example.com/SETUP.EXE" = (true, "Valid URL").
Proof.
  match goal with |- validate_url ?u ?c ?l = _ =>
    destruct (validate_url_upper_case_extension u c l _ eq_refl) as [_ H] end.
  apply H.
  - intros ext [<-|[]]. reflexivity.
  - simpl. tauto.
  - discriminate.
  - simpl. intros [H1|[H1|[H1|[]]]]; discriminate H1.
Defined.

Lemma contains_colon_lower (s : string) :
  Urllib.contains ":" (lower s) = Urllib.contains ":" s.
Proof.
  induction s as [|c s IH]; [done|]. simpl. rewrite IH. f_equal.
  destruct c as [[] [] [] [] [] [] [] []]; reflexivity.
Qed.

(** X11: the suspicious-domain check compares the whole [netloc]: as soon as
    the [netloc] carries a port, the check does not fire, and a URL to
    [localhost], [127.0.0.1] or [0.0.0.0] with an explicit port is accepted
    like any other. *)
Theorem validate_url_port_defeats_domain_check
    (urlparse : string -> result ParseResult) (cfg : config) (url : string)
    (p : ParseResult) :
  urlparse url = Ok p ->
  Urllib.contains ":" (netloc p) = true ->
  In (scheme p) (allowed_protocols cfg) ->
  (forall ext, In ext (blocked_extensions cfg) ->
               endswith (lower (path p)) ext = false) ->
  validate_url urlparse cfg url = (true, "Valid URL").
Proof.
  intros Hp Hcolon Hs Hb. rewrite (validate_url_cases _ _ _ p Hp).
  apply str_in_true in Hs. rewrite Hs. cbn [negb].
  destruct (String.eqb_spec (netloc p) "") as [He|_].
  { rewrite He in Hcolon. discriminate Hcolon. }
  assert (str_in (lower (netloc p)) suspicious_domains = false) as ->.
  { apply str_in_false. intros Hin.
    rewrite <- contains_colon_lower in Hcolon.
    simpl in Hin. destruct Hin as [H|[H|[H|[]]]]; rewrite <- H in Hcolon;
      discriminate Hcolon. }
  cbn [andb]. apply blocked_ext_of_nil in Hb. by rewrite Hb.
Qed.

Lemma validate_url_port_defeats_domain_check_witness :
  validate_url (Urllib.urlparse Urllib.any_bracketed_host) DEFAULT_CONFIG
    "https://127.0.0.1:8443/file.zip" = (true, "Valid URL").
Proof.
  apply (validate_url_port_defeats_domain_check
           (Urllib.urlparse Urllib.any_bracketed_host) DEFAULT_CONFIG
           "https://127.0.0.1:8443/file.zip" _ eq_refl).
  - reflexivity.
  - simpl. tauto.
  - intros ext [<-|[<-|[<-|[<-|[]]]]]; reflexivity.
Defined.

Lemma substring_zero_len (n : nat) (s : string) : substring n 0 s = "".
Proof.
  revert n. induction s as [|c s IH]; intros [|n]; simpl; auto.
Qed.

Lemma endswith_empty (s : string) : endswith s "" = true.
Proof. unfold endswith. simpl. by rewrite substring_zero_len. Qed.

(** X12: an empty string in the block list is a suffix of every path: with it
    no URL is ever accepted. *)
Theorem validate_url_empty_extension_blocks_all
    (urlparse : string -> result ParseResult) (cfg : config) (url : string) :
  In "" (blocked_extensions cfg) ->
  (validate_url urlparse cfg url).1 = false.
Proof.
  intros Hin. destruct (urlparse url) as [p|e] eqn:Hp.
  - rewrite (validate_url_cases _ _ _ p Hp).
    destruct (negb _); [done|]. destruct (String.eqb _ _); [done|].
    destruct (_ && _); [done|].
    destruct (blocked_ext_of cfg (lower (path p))) eqn:Hb; [|done].
    assert (In "" (blocked_ext_of cfg (lower (path p)))) as H.
    { apply blocked_ext_of_In. split; [done|apply endswith_empty]. }
    rewrite Hb in H. destruct H.
  - by rewrite (validate_url_unparsable _ _ _ e Hp).
Qed.

Lemma validate_url_empty_extension_blocks_all_witness :
  (validate_url (Urllib.urlparse Urllib.any_bracketed_host)
     {| max_threads := 16; user_agent := "UA"; proxy_enabled := false;
        proxy_type := "http"; proxy_auth := false; proxy_username := "";
        proxy_password := ""; proxy_host := ""; proxy_port := "8080";
        blocked_extensions := [".exe"; ""];
        allowed_protocols := ["http"; "https"];
        resume_downloads := true; download_rate_limit_kbps := 0 |}
     "https://example.com/file.zip").1 = false.
Proof.
  apply validate_url_empty_extension_blocks_all. simpl. tauto.
Defined.

(* ===================================================================== *)
(** * The configuration file, the prompts, the size label, the batch mode *)
(* ===================================================================== *)

(** ** Text primitives *)

Lemma string_app_assoc (a b c : string) : (a +:+ b) +:+ c = a +:+ (b +:+ c).
Proof.
  induction a as [|x a IH]; [done|].
  change (String x ((a +:+ b) +:+ c) = String x (a +:+ (b +:+ c))).
  by rewrite IH.
Qed.

Lemma digit_value_pretty (d : N) :
  (d < 10)%N -> PyStr.digit_value (pretty_N_char d) = Some d.
Proof.
  intros Hd.
  assert (d = 0 \/ d = 1 \/ d = 2 \/ d = 3 \/ d = 4 \/ d = 5 \/ d = 6 \/
          d = 7 \/ d = 8 \/ d = 9)%N as H by lia.
  destruct H as [->|[->|[->|[->|[->|[->|[->|[->|[->| ->]]]]]]]]]; reflexivity.
Qed.

Lemma is_digit_pretty (d : N) : Urllib.is_digit (pretty_N_char d) = true.
Proof. unfold pretty_N_char. by repeat case_match. Qed.

(** Reading the digits of [x > 0] continues the number read so far. *)
Lemma parse_digits_pretty (x : N) :
  (0 < x)%N ->
  exists k : N, forall s acc pd,
    PyStr.parse_digits (pretty_N_go x s) acc pd =
      PyStr.parse_digits s (acc * 10 ^ k + x)%N true.
Proof.
  induction (N.lt_wf_0 x) as [x _ IH]; intros Hx.
  destruct (decide (x `div` 10 = 0)%N) as [Hz|Hnz].
  - exists 1%N. intros s acc pd.
    rewrite pretty_N_go_step, Hz, pretty_N_go_0 by done.
    cbn [PyStr.parse_digits].
    rewrite digit_value_pretty by (apply N.mod_lt; lia).
    f_equal. rewrite N.pow_1_r.
    pose proof (N.div_mod x 10 ltac:(lia)) as H.
    rewrite Hz, N.mul_0_r, N.add_0_l in H. by rewrite <- H.
  - destruct (IH (x `div` 10)%N) as [k Hk].
    { apply N.div_lt; lia. }
    { apply N.neq_0_lt_0, Hnz. }
    exists (k + 1)%N. intros s acc pd.
    rewrite pretty_N_go_step, Hk by done.
    cbn [PyStr.parse_digits].
    rewrite digit_value_pretty by (apply N.mod_lt; lia).
    f_equal. rewrite N.pow_add_r, N.pow_1_r.
    pose proof (N.div_mod x 10 ltac:(lia)). lia.
Qed.

Lemma parse_digits_pretty_N (x : N) :
  PyStr.parse_digits (pretty x) 0 false = Some x.
Proof.
  unfold pretty, pretty_N. destruct (decide (x = 0)%N) as [->|Hx]; [done|].
  destruct (parse_digits_pretty x ltac:(lia)) as [k Hk].
  rewrite Hk. cbn [PyStr.parse_digits]. by rewrite N.mul_0_l, N.add_0_l.
Qed.

(** Every character of the text of a natural number is a digit. *)
Lemma pretty_N_go_digits (x : N) (s : string) :
  Urllib.forall_chars Urllib.is_digit s = true ->
  Urllib.forall_chars Urllib.is_digit (pretty_N_go x s) = true.
Proof.
  revert s. induction (N.lt_wf_0 x) as [x _ IH]; intros s Hs.
  destruct (decide (x = 0)%N) as [->|Hx]; [done|].
  rewrite pretty_N_go_step by lia. apply IH; [apply N.div_lt; lia|].
  cbn. by rewrite is_digit_pretty, Hs.
Qed.

Lemma pretty_N_digits (x : N) :
  PyStr.isdigit (pretty x) = true.
Proof.
  assert (Urllib.forall_chars Urllib.is_digit (pretty x) = true) as H.
  { unfold pretty, pretty_N. destruct (decide (x = 0)%N); [done|].
    by apply pretty_N_go_digits. }
  unfold PyStr.isdigit. destruct (pretty x) eqn:E; [|done].
  exfalso. revert E. unfold pretty, pretty_N.
  destruct (decide (x = 0)%N); [done|].
  assert (forall y s, s <> "" -> pretty_N_go y s <> "") as Hne.
  { intros y. induction (N.lt_wf_0 y) as [y _ IH]; intros s Hs.
    destruct (decide (y = 0)%N) as [->|Hy]; [done|].
    rewrite pretty_N_go_step by lia. apply IH; [apply N.div_lt; lia|done]. }
  rewrite pretty_N_go_step by lia. by apply Hne.
Qed.

(** *** Stripping *)

Lemma lstrip_by_head (p : ascii -> bool) (c : ascii) (s : string) :
  p c = false -> PyStr.lstrip_by p (String c s) = String c s.
Proof. intros H. cbn. by rewrite H. Qed.

Lemma rstrip_by_cons (p : ascii -> bool) (c : ascii) (s : string) :
  PyStr.rstrip_by p s <> "" ->
  PyStr.rstrip_by p (String c s) = String c (PyStr.rstrip_by p s).
Proof. intros H. cbn. by destruct (PyStr.rstrip_by p s). Qed.

Lemma lstrip_by_idemp (p : ascii -> bool) (s : string) :
  PyStr.lstrip_by p (PyStr.lstrip_by p s) = PyStr.lstrip_by p s.
Proof.
  induction s as [|c s IH]; [done|]. cbn.
  destruct (p c) eqn:E; [done|]. cbn. by rewrite E.
Qed.

Lemma rstrip_by_idemp (p : ascii -> bool) (s : string) :
  PyStr.rstrip_by p (PyStr.rstrip_by p s) = PyStr.rstrip_by p s.
Proof.
  induction s as [|c s IH]; [done|]. cbn.
  destruct (PyStr.rstrip_by p s) as [|d r] eqn:E.
  - destruct (p c) eqn:Ec; [done|]. cbn. by rewrite Ec.
  - rewrite rstrip_by_cons; rewrite IH; done.
Qed.

Lemma strip_by_comm (p : ascii -> bool) (s : string) :
  PyStr.lstrip_by p (PyStr.rstrip_by p s) =
    PyStr.rstrip_by p (PyStr.lstrip_by p s).
Proof.
  induction s as [|c s IH]; [done|].
  destruct (p c) eqn:Ec.
  - cbn [PyStr.lstrip_by]. rewrite Ec, <- IH. cbn [PyStr.rstrip_by].
    destruct (PyStr.rstrip_by p s) as [|d r]; rewrite ?Ec; [done|].
    cbn [PyStr.lstrip_by]. by rewrite Ec.
  - rewrite (lstrip_by_head p c s Ec). cbn [PyStr.rstrip_by].
    destruct (PyStr.rstrip_by p s) as [|d r]; rewrite ?Ec;
      by rewrite lstrip_by_head.
Qed.

(** [strip] is idempotent. *)
Lemma strip_idemp (s : string) : PyStr.strip (PyStr.strip s) = PyStr.strip s.
Proof.
  unfold PyStr.strip.
  by rewrite strip_by_comm, rstrip_by_idemp, lstrip_by_idemp.
Qed.

Lemma contains_lstrip_by (p : ascii -> bool) (c : ascii) (s : string) :
  Urllib.contains c s = false -> Urllib.contains c (PyStr.lstrip_by p s) = false.
Proof.
  induction s as [|a s IH]; [done|]. cbn.
  intros [Ha Hs]%orb_false_iff. destruct (p a); [by apply IH|].
  cbn. by rewrite Ha, Hs.
Qed.

Lemma contains_rstrip_by (p : ascii -> bool) (c : ascii) (s : string) :
  Urllib.contains c s = false -> Urllib.contains c (PyStr.rstrip_by p s) = false.
Proof.
  induction s as [|a s IH]; [done|]. cbn.
  intros [Ha Hs]%orb_false_iff. specialize (IH Hs).
  destruct (PyStr.rstrip_by p s) as [|d r].
  - destruct (p a); [done|]. cbn. by rewrite Ha.
  - cbn in *. by rewrite Ha, IH.
Qed.

(** A string whose characters all fail [p] is left as it is. *)
Lemma rstrip_by_none (p q : ascii -> bool) (s : string) :
  (forall c, q c = true -> p c = false) ->
  Urllib.forall_chars q s = true -> PyStr.rstrip_by p s = s.
Proof.
  intros Hpq. induction s as [|c s IH]; [done|]. cbn.
  intros [Hc Hs]%andb_true_iff.
  rewrite (IH Hs). destruct s; [|done]. by rewrite (Hpq c Hc).
Qed.

Lemma lstrip_by_none (p q : ascii -> bool) (s : string) :
  (forall c, q c = true -> p c = false) ->
  Urllib.forall_chars q s = true -> PyStr.lstrip_by p s = s.
Proof.
  intros Hpq. destruct s as [|c s]; [done|]. cbn.
  intros [Hc _]%andb_true_iff. by rewrite (Hpq c Hc).
Qed.

Lemma digit_not_c_space (c : ascii) :
  Urllib.is_digit c = true -> PyStr.is_c_space c = false.
Proof. destruct c as [[] [] [] [] [] [] [] []]; done. Qed.

Lemma sign_match_digit (c : ascii) (r : string) :
  Urllib.is_digit c = true ->
  match String c r with
  | String "-" r' => (true, r')
  | String "+" r' => (false, r')
  | _ => (false, String c r)
  end = (false, String c r).
Proof. destruct c as [[] [] [] [] [] [] [] []]; done. Qed.

(** [int] on a string of digits. *)
Lemma int_digits (s : string) :
  PyStr.isdigit s = true ->
  PyStr.int s =
    match PyStr.parse_digits s 0 false with
    | Some n =>
        if (4300 <? PyStr.count_digits s)%nat then None else Some (Z.of_N n)
    | None => None
    end.
Proof.
  intros Hs. unfold PyStr.int. unfold PyStr.isdigit in Hs.
  destruct s as [|c s]; [done|].
  rewrite (lstrip_by_none _ _ _ digit_not_c_space Hs).
  rewrite (rstrip_by_none _ _ _ digit_not_c_space Hs).
  cbn in Hs. apply andb_true_iff in Hs as [Hc _].
  by rewrite (sign_match_digit c s Hc).
Qed.

(** Digits always make a number. *)
Lemma parse_digits_total (s : string) (acc : N) (pd : bool) :
  PyStr.isdigit s = true ->
  exists n, PyStr.parse_digits s acc pd = Some n.
Proof.
  unfold PyStr.isdigit. destruct s as [|c s]; [done|].
  revert c acc pd. induction s as [|d s IH]; intros c acc pd H.
  - cbn in *. unfold PyStr.digit_value.
    apply andb_true_iff in H as [-> _]. eauto.
  - cbn [Urllib.forall_chars] in H. apply andb_true_iff in H as [Hc H].
    cbn [PyStr.parse_digits]. unfold PyStr.digit_value at 1. rewrite Hc.
    by apply IH.
Qed.

Lemma count_digits_length (s : string) :
  Urllib.forall_chars Urllib.is_digit s = true ->
  PyStr.count_digits s = String.length s.
Proof.
  induction s as [|c s IH]; [done|]. cbn.
  intros [-> Hs]%andb_true_iff. by rewrite IH.
Qed.

(** [int(str(z)) = z] for an integer of at most 4300 digits. *)
Lemma int_pretty (z : Z) :
  (PyStr.count_digits (pretty z) <= 4300)%nat ->
  PyStr.int (pretty z) = Some z.
Proof.
  intros Hlim. destruct z as [|p|p]; [done| |].
  - change (pretty (Z.pos p)) with (pretty (N.pos p)) in *.
    rewrite int_digits by apply pretty_N_digits.
    rewrite parse_digits_pretty_N.
    destruct (Nat.ltb_spec 4300 (PyStr.count_digits (pretty (N.pos p))));
      [lia|done].
  - change (pretty (Z.neg p)) with ("-" +:+ pretty (N.pos p)) in *.
    pose proof (pretty_N_digits (N.pos p)) as Hd.
    unfold PyStr.isdigit in Hd.
    destruct (pretty (N.pos p)) as [|c r] eqn:E; [done|].
    unfold PyStr.int.
    change ("-" +:+ String c r) with (String "-" (String c r)) in *.
    rewrite lstrip_by_head by done.
    rewrite rstrip_by_cons.
    2:{ rewrite (rstrip_by_none _ _ _ digit_not_c_space Hd). done. }
    rewrite (rstrip_by_none _ _ _ digit_not_c_space Hd).
    rewrite <- E, parse_digits_pretty_N, E.
    cbn [PyStr.count_digits] in Hlim.
    change (Urllib.is_digit "-") with false in Hlim.
    destruct (Nat.ltb_spec 4300 (PyStr.count_digits (String c r)));
      [|done].
    cbn [PyStr.count_digits] in *. lia.
Qed.

(** *** Splitting and joining *)

Lemma split_nonempty (c : ascii) (s : string) : PyStr.split c s <> [].
Proof.
  destruct s as [|a s]; [done|]. cbn.
  destruct (Ascii.eqb a c); [done|]. by destruct (PyStr.split c s).
Qed.

Lemma split_no_sep (c : ascii) (a : string) :
  Urllib.contains c a = false -> PyStr.split c a = [a].
Proof.
  induction a as [|x a IH]; [done|]. cbn.
  intros [Hx Ha]%orb_false_iff. by rewrite Hx, (IH Ha).
Qed.

Lemma split_app (c : ascii) (a b : string) :
  Urllib.contains c a = false ->
  PyStr.split c (a +:+ String c b) = a :: PyStr.split c b.
Proof.
  induction a as [|x a IH].
  - intros _. change ("" +:+ String c b) with (String c b).
    cbn. by rewrite Ascii.eqb_refl.
  - cbn [Urllib.contains]. intros [Hx Ha]%orb_false_iff.
    change (String x a +:+ String c b) with (String x (a +:+ String c b)).
    cbn [PyStr.split]. by rewrite Hx, (IH Ha).
Qed.

(** No piece of a split contains the separator. *)
Lemma split_pieces (c : ascii) (s : string) :
  Forall (fun piece => Urllib.contains c piece = false) (PyStr.split c s).
Proof.
  induction s as [|a s IH]; [by repeat constructor|]. cbn.
  destruct (Ascii.eqb a c) eqn:E; [by constructor|].
  destruct (PyStr.split c s) as [|h t]; [by repeat constructor; cbn; rewrite E|].
  inversion IH; subst. constructor; [|done]. cbn. by rewrite E.
Qed.

(** The characters of the pieces are characters of the text. *)
Lemma split_chars (q : ascii -> bool) (c : ascii) (s : string) :
  Urllib.forall_chars q s = true ->
  Forall (fun piece => Urllib.forall_chars q piece = true) (PyStr.split c s).
Proof.
  induction s as [|a s IH]; [by repeat constructor|]. cbn.
  intros [Ha Hs]%andb_true_iff. specialize (IH Hs).
  destruct (Ascii.eqb a c); [by constructor|].
  destruct (PyStr.split c s) as [|h t];
    [by repeat constructor; cbn; rewrite Ha|].
  inversion IH; subst. constructor; [|done]. cbn. by rewrite Ha.
Qed.

Lemma parse_list_elem (text item : string) :
  item ∈ parse_list text ->
  item <> "" /\
  exists piece, piece ∈ PyStr.split "," text /\ item = PyStr.strip piece.
Proof.
  unfold parse_list. rewrite list_elem_of_In, filter_In, <- list_elem_of_In.
  intros [Hin Hne]. split.
  { intros ->. done. }
  apply list_elem_of_fmap in Hin as (piece & -> & Hp). eauto.
Qed.

Lemma parse_list_clean (text : string) : Forall clean_item (parse_list text).
Proof.
  apply Forall_forall. intros item (Hne & piece & Hp & ->)%parse_list_elem.
  split; [done|]. split; [|apply strip_idemp].
  apply contains_rstrip_by, contains_lstrip_by.
  pose proof (split_pieces "," text) as H.
  rewrite Forall_forall in H. by apply H.
Qed.

Lemma strip_space_cons (s : string) :
  PyStr.strip (String " " s) = PyStr.strip s.
Proof. done. Qed.

Lemma filter_nonempty_clean (l : list string) :
  Forall clean_item l ->
  List.filter (fun item => negb (String.eqb item "")) l = l.
Proof.
  induction 1 as [|x l [Hx _] _ IH]; [done|]. cbn.
  apply String.eqb_neq in Hx. by rewrite Hx, IH.
Qed.

Lemma map_strip_clean (l : list string) :
  Forall clean_item l -> map PyStr.strip l = l.
Proof.
  induction 1 as [|x l (_ & _ & Hx) _ IH]; [done|]. cbn. by rewrite Hx, IH.
Qed.

(** The pieces of a joined list of clean items are the items, each but the
    first after one blank. *)
Lemma split_join (x : string) (l : list string) :
  Forall clean_item (x :: l) ->
  map PyStr.strip (PyStr.split "," (PyStr.join ", " (x :: l))) = x :: l.
Proof.
  revert x. induction l as [|y l IH]; intros x H.
  - inversion H as [|? ? (Hne & Hc & Hs) _]; subst. cbn [PyStr.join].
    rewrite split_no_sep by done. cbn. by rewrite Hs.
  - inversion H as [|? ? (Hne & Hc & Hs) Hrest]; subst.
    change (PyStr.join ", " (x :: y :: l))
      with (x +:+ ", " +:+ PyStr.join ", " (y :: l)).
    change (x +:+ ", " +:+ PyStr.join ", " (y :: l))
      with (x +:+ String "," (String " " (PyStr.join ", " (y :: l)))).
    rewrite split_app by done. cbn [map]. rewrite Hs. f_equal.
    specialize (IH y Hrest).
    assert (forall s, map PyStr.strip (PyStr.split "," (String " " s)) =
                      map PyStr.strip (PyStr.split "," s)) as Hsp.
    { intros s. cbn [PyStr.split].
      change (Ascii.eqb " " ",") with false. cbv iota.
      pose proof (split_nonempty "," s).
      destruct (PyStr.split "," s) as [|h t]; [done|].
      cbn [map]. by rewrite strip_space_cons. }
    by rewrite Hsp.
Qed.

Lemma parse_list_join (l : list string) :
  Forall clean_item l -> parse_list (PyStr.join ", " l) = l.
Proof.
  intros H. destruct l as [|x l]; [done|].
  unfold parse_list. rewrite split_join by done.
  by apply filter_nonempty_clean.
Qed.

(** *** The conversions of the configuration file *)

(** X13: the conversion that [load_config] applies to the text that
    [save_config] formats gives the value back exactly when the value is
    clean: every boolean, every integer that [str] can format, every
    string, and the lists whose items are not empty, hold no comma and no
    white space at their ends.  (What [configparser] does to the text
    between the two is not part of the statement.) *)
Theorem convert_render (current v : value) (text : string) :
  render v = Some text ->
  same_type current v = true ->
  ascii_value v ->
  convert current text = Some v <-> clean_value v.
Proof.
  intros Hr Ht Hascii.
  destruct v as [b|z|l|s], current as [b'|z'|l'|s']; try done;
    cbn in Hr; cbn [convert clean_value].
  - inversion Hr; subst. by destruct b.
  - unfold PyStr.str_of_int in Hr.
    destruct (Nat.ltb_spec 4300 (PyStr.count_digits (pretty z))); [done|].
    inversion Hr; subst. by rewrite int_pretty.
  - inversion Hr; subst. split.
    + intros [= <-]. apply parse_list_clean.
    + intros H. by rewrite parse_list_join.
  - by inversion Hr; subst.
Qed.

Lemma convert_render_witness :
  convert (VList []) ".zip, .tar.gz" = Some (VList [".zip"; ".tar.gz"]) <->
  clean_value (VList [".zip"; ".tar.gz"]).
Proof.
  apply (convert_render (VList []) (VList [".zip"; ".tar.gz"]) ".zip, .tar.gz").
  - reflexivity.
  - reflexivity.
  - repeat constructor.
Defined.

(** X14: whatever the ASCII text, the items of a list read by [load_config]
    or entered at the blocked-extension prompt are not empty, hold no comma,
    and neither begin nor end with white space. *)
Theorem parse_list_items_clean (text item : string) :
  PyStr.ascii_text text = true ->
  item ∈ parse_list text ->
  item <> "" /\ Urllib.contains "," item = false /\ PyStr.strip item = item.
Proof.
  intros _ Hin. pose proof (parse_list_clean text) as H.
  rewrite Forall_forall in H. by apply H.
Qed.

Lemma parse_list_items_clean_witness :
  ".exe" <> "" /\ Urllib.contains "," ".exe" = false /\
  PyStr.strip ".exe" = ".exe".
Proof.
  apply (parse_list_items_clean " .exe ,, .bat" ".exe").
  - reflexivity.
  - vm_compute. apply list_elem_of_here.
Defined.

(** *** [load_config] *)

Lemma load_entries_shape_aux (section : section_view) (d : config_dict) :
  map fst (load_entries section d).1 = map fst d /\
  Forall2 (fun old new => same_type old.2 new.2 = true)
    d (load_entries section d).1.
Proof.
  assert (forall d : config_dict,
            Forall2 (fun old new : string * value =>
                       same_type old.2 new.2 = true) d d) as Hrefl.
  { intros d0. induction d0 as [|[k v] d0 IH]; constructor; [|done].
    by destruct v. }
  induction d as [|[k cur] d [IHk IHt]]; [by split; [|constructor]|].
  cbn [load_entries].
  destruct (section k) as [[text|]|].
  - destruct (convert cur text) as [v|] eqn:Ec.
    + destruct (load_entries section d) as [rest' failed]. cbn in *.
      split; [by rewrite IHk|]. constructor; [|done]. cbn.
      destruct cur; cbn in Ec; try (by inversion Ec).
      destruct (PyStr.int text); by inversion Ec.
    + cbn. split; [done|]. apply Hrefl.
  - cbn. split; [done|]. apply Hrefl.
  - destruct (load_entries section d) as [rest' failed]. cbn in *.
    split; [by rewrite IHk|]. constructor; [|done]. by destruct cur.
Qed.

(** X15: whether it succeeds or stops at an error, [load_config] leaves the
    keys of [CONFIG] and their order as they are, and never changes the
    type of a value. *)
Theorem load_config_keeps_keys_and_types
    (file : option section_view) (CONFIG : config_dict) :
  map fst (load_config file CONFIG) = map fst CONFIG /\
  Forall2 (fun old new => same_type old.2 new.2 = true)
    CONFIG (load_config file CONFIG).
Proof.
  destruct file as [section|]; cbn [load_config].
  - apply load_entries_shape_aux.
  - split; [done|]. induction CONFIG as [|[k v] d IH]; constructor; [|done].
    by destruct v.
Qed.

(** X16: when the loop of [load_config] ends without an exception, every key
    of [CONFIG] that the section has holds the converted text, and every
    other key holds its former value. *)
Theorem load_config_success
    (section : section_view) (CONFIG CONFIG' : config_dict)
    (key : string) (current : value) :
  ascii_section section CONFIG = true ->
  load_entries section CONFIG = (CONFIG', false) ->
  dict_get key CONFIG = Some current ->
  match section key with
  | None => dict_get key CONFIG' = Some current
  | Some None => False
  | Some (Some text) =>
      exists v, convert current text = Some v /\ dict_get key CONFIG' = Some v
  end.
Proof.
  intros _. revert CONFIG'.
  induction CONFIG as [|[k cur] d IH]; intros d' Hload Hget; [done|].
  cbn [load_entries] in Hload. cbn [dict_get] in Hget.
  destruct (String.eqb_spec k key) as [->|Hne].
  - inversion Hget; subst cur.
    destruct (section key) as [[text|]|]; [| |].
    + destruct (convert current text) as [v|]; [|by inversion Hload].
      destruct (load_entries section d) as [rest' failed].
      inversion Hload; subst. exists v. split; [done|].
      cbn. by rewrite String.eqb_refl.
    + by inversion Hload.
    + destruct (load_entries section d) as [rest' failed].
      inversion Hload; subst. cbn. by rewrite String.eqb_refl.
  - assert (exists rest', load_entries section d = (rest', false) /\
              dict_get key d' = dict_get key rest') as (rest' & Hrest & Hd').
    { destruct (section k) as [[text|]|].
      - destruct (convert cur text) as [v|]; [|by inversion Hload].
        destruct (load_entries section d) as [rest' failed].
        inversion Hload; subst. exists rest'. split; [done|].
        cbn. apply String.eqb_neq in Hne. by rewrite Hne.
      - by inversion Hload.
      - destruct (load_entries section d) as [rest' failed].
        inversion Hload; subst. exists rest'. split; [done|].
        cbn. apply String.eqb_neq in Hne. by rewrite Hne. }
    specialize (IH rest' Hrest Hget).
    destruct (section key) as [[text|]|]; by rewrite ?Hd'.
Qed.

Lemma load_config_success_witness :
  exists v,
    convert (VInt 16) "0" = Some v /\
    dict_get "max_threads"
      (load_entries DemoConfig.section DemoConfig.CONFIG).1 = Some v.
Proof.
  apply (load_config_success DemoConfig.section DemoConfig.CONFIG
           (load_entries DemoConfig.section DemoConfig.CONFIG).1
           "max_threads" (VInt 16)).
  - reflexivity.
  - vm_compute. reflexivity.
  - reflexivity.
Defined.

(** X17: [load_config] is not atomic.  When the loop ends with an exception,
    it is at the first key whose lookup raises or whose current value is an
    integer and whose text [int] refuses: the keys before it have been
    loaded, that key and all the keys after it keep their current values. *)
Theorem load_config_stops_at_first_error
    (section : section_view) (CONFIG CONFIG' : config_dict) :
  ascii_section section CONFIG = true ->
  load_entries section CONFIG = (CONFIG', true) ->
  exists before key current after,
    CONFIG = before ++ (key, current) :: after /\
    (section key = Some None \/
     exists text z, section key = Some (Some text) /\ current = VInt z /\
                    PyStr.int text = None) /\
    (load_entries section before).2 = false /\
    CONFIG' = (load_entries section before).1 ++ (key, current) :: after.
Proof.
  intros _. revert CONFIG'.
  induction CONFIG as [|[k cur] d IH]; intros d' Hload; [by inversion Hload|].
  cbn [load_entries] in Hload.
  assert (forall rest' failed v,
            load_entries section d = (rest', failed) ->
            d' = (k, v) :: rest' -> failed = true ->
            (section k = None /\ v = cur \/
             exists text, section k = Some (Some text) /\
                          convert cur text = Some v) ->
            exists before key current after,
              (k, cur) :: d = before ++ (key, current) :: after /\
              (section key = Some None \/
               exists text z, section key = Some (Some text) /\
                              current = VInt z /\ PyStr.int text = None) /\
              (load_entries section before).2 = false /\
              d' = (load_entries section before).1 ++ (key, current) :: after)
    as Hstep.
  { intros rest' failed v Hrest -> -> Hk.
    destruct (IH rest' Hrest) as (before & key & current & after & -> & Hkey
                                  & Hok & ->).
    exists ((k, cur) :: before), key, current, after.
    split; [done|]. split; [done|].
    cbn [load_entries]. destruct Hk as [[-> ->]|(text & -> & ->)];
      destruct (load_entries section before) as [b' f']; cbn in *; by subst. }
  destruct (section k) as [[text|]|] eqn:Hk.
  - destruct (convert cur text) as [v|] eqn:Ec.
    + destruct (load_entries section d) as [rest' failed] eqn:Hrest.
      inversion Hload; subst. eapply Hstep; eauto.
    + inversion Hload; subst. exists [], k, cur, d.
      split; [done|]. split; [|done]. right.
      destruct cur as [b|z|l|s]; try done. cbn in Ec.
      exists text, z. split; [done|]. split; [done|].
      by destruct (PyStr.int text).
  - inversion Hload; subst. exists [], k, cur, d. by eauto.
  - destruct (load_entries section d) as [rest' failed] eqn:Hrest.
    inversion Hload; subst. eapply Hstep; eauto.
Qed.

Lemma load_config_stops_at_first_error_witness :
  exists before key current after,
    DemoConfig.CONFIG = before ++ (key, current) :: after /\
    (DemoConfig.bad_section key = Some None \/
     exists text z, DemoConfig.bad_section key = Some (Some text) /\
                    current = VInt z /\ PyStr.int text = None) /\
    (load_entries DemoConfig.bad_section before).2 = false /\
    [("verify_ssl", VBool false); ("max_threads", VInt 16);
     ("blocked_extensions", VList [".exe"; ".scr"]);
     ("log_level", VStr "INFO")] =
      (load_entries DemoConfig.bad_section before).1
        ++ (key, current) :: after.
Proof.
  apply (load_config_stops_at_first_error DemoConfig.bad_section
           DemoConfig.CONFIG).
  - reflexivity.
  - vm_compute. reflexivity.
Defined.

(** ** The size label *)

Ltac qnorm :=
  unfold Qdiv in *; change (/ 1024)%Q with (1 # 1024)%Q in *.

Lemma inject_Z_ge (a z : Z) : a <= z -> (inject_Z a <= inject_Z z)%Q.
Proof. by rewrite <- Zle_Qle. Qed.

Lemma inject_Z_lt_inv (a z : Z) : (inject_Z z < inject_Z a)%Q -> z < a.
Proof. by rewrite <- Zlt_Qlt. Qed.

(** X18: the size label of the probe, by the size.  No size: ["Unknown"].
    Below 1 TiB: the size divided by the power of 1024 of its unit, a
    number from 1 up to, not including, 1024.  From 1 TiB on the loop over
    the four units ends without a label (the entry that
    [professional_download] prints is missing), and from about [2 ^ 1034]
    on the first division overflows. *)
Theorem file_size_label (size : Z) :
  match file_size_formatted size with
  | SizeUnknown => size <= 0
  | SizeScaled v unit =>
      0 < size < 1024 ^ 4 /\ (1 <= v < 1024)%Q /\
      exists k : nat,
        ["B"; "KB"; "MB"; "GB"] !! k = Some unit /\
        (v * inject_Z (1024 ^ Z.of_nat k) == inject_Z size)%Q
  | SizeMissing => 1024 ^ 4 <= size < 2 ^ 1034 - 2 ^ 980
  | SizeOverflow => 2 ^ 1034 - 2 ^ 980 <= size
  end.
Proof.
  unfold file_size_formatted, true_divide_overflows.
  destruct (Z.gtb_spec size 0) as [Hpos|]; [|done].
  destruct (Z.leb_spec (2 ^ 1034 - 2 ^ 980) size) as [|Hsmall]; [done|].
  pose proof (inject_Z_ge 1 size ltac:(lia)) as H1.
  change (inject_Z 1) with 1%Q in H1.
  cbn [scale_size].
  destruct (Qlt_le_dec (inject_Z size) 1024) as [Ha|Ha].
  { split; [|split; [lra|]].
    - split; [done|]. apply (inject_Z_lt_inv 1024) in Ha. lia.
    - exists 0%nat. split; [done|].
      change (inject_Z (1024 ^ Z.of_nat 0)) with 1%Q. lra. }
  destruct (Qlt_le_dec (inject_Z size / 1024) 1024) as [Hb|Hb].
  { split; [|split; [qnorm; lra|]].
    - split; [done|]. apply (inject_Z_lt_inv (1024 ^ 4)).
      change (inject_Z (1024 ^ 4)) with (1099511627776 # 1)%Q. qnorm. lra.
    - exists 1%nat. split; [done|].
      change (inject_Z (1024 ^ Z.of_nat 1)) with (1024 # 1)%Q. qnorm. lra. }
  destruct (Qlt_le_dec (inject_Z size / 1024 / 1024) 1024) as [Hc|Hc].
  { split; [|split; [qnorm; lra|]].
    - split; [done|]. apply (inject_Z_lt_inv (1024 ^ 4)).
      change (inject_Z (1024 ^ 4)) with (1099511627776 # 1)%Q. qnorm. lra.
    - exists 2%nat. split; [done|].
      change (inject_Z (1024 ^ Z.of_nat 2)) with (1048576 # 1)%Q. qnorm. lra. }
  destruct (Qlt_le_dec (inject_Z size / 1024 / 1024 / 1024) 1024) as [Hd|Hd].
  { split; [|split; [qnorm; lra|]].
    - split; [done|]. apply (inject_Z_lt_inv (1024 ^ 4)).
      change (inject_Z (1024 ^ 4)) with (1099511627776 # 1)%Q. qnorm. lra.
    - exists 3%nat. split; [done|].
      change (inject_Z (1024 ^ Z.of_nat 3)) with (1073741824 # 1)%Q.
      qnorm. lra. }
  split; [|done]. rewrite Zle_Qle.
  change (inject_Z (1024 ^ 4)) with (1099511627776 # 1)%Q. qnorm. lra.
Qed.

(** ** The prompts *)

Lemma set_max_threads_digits (threads : string) (cfg : config) :
  PyStr.isdigit threads = true ->
  exists n : N,
    set_max_threads threads cfg =
      if (4300 <? String.length threads)%nat then None
      else Some (with_max_threads (Z.max 1 (Z.min 32 (Z.of_N n))) cfg).
Proof.
  intros Hd. unfold set_max_threads. rewrite Hd, int_digits by done.
  destruct (parse_digits_total threads 0 false Hd) as [n ->]. exists n.
  rewrite count_digits_length.
  2:{ unfold PyStr.isdigit in Hd. by destruct threads. }
  by destruct (4300 <? String.length threads)%nat.
Qed.

(** X19: after an answer made of at most 4300 digits at the prompt for the
    number of threads, [max_threads] lies between 1 and 32 and the planner
    divides by a worker count between 1 and 16: the plan exists, whatever
    the size. *)
Theorem max_threads_prompt_then_plan
    (threads : string) (cfg : config) (file_size : Z) :
  PyStr.isdigit threads = true ->
  (String.length threads <= 4300)%nat ->
  exists cfg' tasks,
    set_max_threads threads cfg = Some cfg' /\
    1 <= max_threads cfg' <= 32 /\
    plan cfg' file_size = Ok tasks /\
    (1 <= length tasks <= 16)%nat.
Proof.
  intros Hd Hlen. destruct (set_max_threads_digits threads cfg Hd) as [n Hn].
  destruct (Nat.ltb_spec 4300 (String.length threads)); [lia|].
  set (m := Z.max 1 (Z.min 32 (Z.of_N n))) in *.
  exists (with_max_threads m cfg),
    (download_tasks (Z.min m 16) (file_size / Z.min m 16) file_size).
  split; [done|]. split; [cbn; lia|]. split.
  - unfold plan, plan_segments, floordiv, num_threads_of. cbn [max_threads with_max_threads].
    destruct (Z.eqb_spec (Z.min m 16) 0); [lia|done].
  - rewrite download_tasks_length. lia.
Qed.

Lemma max_threads_prompt_then_plan_witness :
  exists cfg' tasks,
    set_max_threads "0" DEFAULT_CONFIG = Some cfg' /\
    1 <= max_threads cfg' <= 32 /\
    plan cfg' 16777216 = Ok tasks /\
    (1 <= length tasks <= 16)%nat.
Proof.
  apply (max_threads_prompt_then_plan "0" DEFAULT_CONFIG 16777216).
  - reflexivity.
  - simpl. lia.
Defined.

(** X20: an answer of more than 4300 digits passes [isdigit()] and makes
    [int()] raise [ValueError], which the prompt does not catch. *)
Theorem max_threads_prompt_raises (threads : string) (cfg : config) :
  PyStr.isdigit threads = true ->
  (4300 < String.length threads)%nat ->
  set_max_threads threads cfg = None.
Proof.
  intros Hd Hlen. destruct (set_max_threads_digits threads cfg Hd) as [n ->].
  by destruct (Nat.ltb_spec 4300 (String.length threads)); [|lia].
Qed.

Lemma max_threads_prompt_raises_witness :
  set_max_threads DemoConfig.long_answer DEFAULT_CONFIG = None.
Proof.
  apply (max_threads_prompt_raises DemoConfig.long_answer DEFAULT_CONFIG).
  - vm_compute. reflexivity.
  - apply Nat.ltb_lt. vm_compute. reflexivity.
Defined.

(** *** The blocked-extension prompt *)

Lemma contains_lstrip_by_true (p : ascii -> bool) (c : ascii) (s : string) :
  p c = false -> Urllib.contains c s = true ->
  Urllib.contains c (PyStr.lstrip_by p s) = true.
Proof.
  intros Hp. induction s as [|a s IH]; [done|]. cbn.
  destruct (Ascii.eqb_spec a c) as [->|Hne]; [by rewrite Hp; cbn; rewrite Ascii.eqb_refl|].
  cbn. intros Hs. destruct (p a); [by apply IH|].
  cbn. rewrite Hs. by rewrite orb_true_r.
Qed.

Lemma contains_rstrip_by_true (p : ascii -> bool) (c : ascii) (s : string) :
  p c = false -> Urllib.contains c s = true ->
  Urllib.contains c (PyStr.rstrip_by p s) = true.
Proof.
  intros Hp. induction s as [|a s IH]; [done|]. cbn.
  destruct (Ascii.eqb_spec a c) as [->|Hne].
  - intros _. destruct (PyStr.rstrip_by p s); rewrite ?Hp; cbn;
      by rewrite Ascii.eqb_refl.
  - cbn. intros Hs. specialize (IH Hs).
    destruct (PyStr.rstrip_by p s) as [|d r]; [done|].
    cbn in *. rewrite IH. by rewrite orb_true_r.
Qed.

Lemma lstrip_by_all (p : ascii -> bool) (s : string) :
  Urllib.forall_chars p s = true -> PyStr.lstrip_by p s = "".
Proof.
  induction s as [|a s IH]; [done|]. cbn.
  intros [-> Hs]%andb_true_iff. by apply IH.
Qed.

Lemma parse_list_separators (text : string) :
  Urllib.forall_chars (fun c => Ascii.eqb c "," || PyStr.is_space c) text
    = true ->
  parse_list text = [].
Proof.
  intros H. unfold parse_list.
  pose proof (split_chars _ "," text H) as Hchars.
  pose proof (split_pieces "," text) as Hpieces.
  induction (PyStr.split "," text) as [|piece l IH]; [done|].
  inversion Hchars as [|? ? Hc Hcs]; inversion Hpieces as [|? ? Hp Hps]; subst.
  cbn [map List.filter].
  assert (PyStr.strip piece = "") as ->.
  { unfold PyStr.strip. rewrite lstrip_by_all; [done|].
    clear -Hc Hp. induction piece as [|a s IH]; [done|].
    cbn in *. apply andb_true_iff in Hc as [Ha Hs].
    apply orb_false_iff in Hp as [Hne Hp]. rewrite Hne in Ha.
    cbn in Ha. rewrite Ha. by apply IH. }
  cbn. by apply IH.
Qed.

(** X21: an answer to the blocked-extension prompt that holds a comma and
    otherwise only commas and white space empties the list: afterwards no
    path has a blocked extension. *)
Theorem blocked_extensions_prompt_clears
    (blocked_input : string) (cfg : config) (path : string) :
  PyStr.ascii_text blocked_input = true ->
  Urllib.contains "," blocked_input = true ->
  Urllib.forall_chars (fun c => Ascii.eqb c "," || PyStr.is_space c)
    blocked_input = true ->
  blocked_extensions (set_blocked_extensions blocked_input cfg) = [] /\
  blocked_ext_of (set_blocked_extensions blocked_input cfg) path = [].
Proof.
  intros _ Hcomma Hsep.
  assert (blocked_extensions (set_blocked_extensions blocked_input cfg) = [])
    as Hb.
  { unfold set_blocked_extensions.
    destruct (String.eqb_spec (PyStr.strip blocked_input) "") as [He|_].
    - exfalso. unfold PyStr.strip in He.
      pose proof (contains_rstrip_by_true PyStr.is_space ","
                    (PyStr.lstrip_by PyStr.is_space blocked_input) eq_refl
                    (contains_lstrip_by_true PyStr.is_space "," blocked_input
                       eq_refl Hcomma)) as H.
      rewrite He in H. discriminate H.
    - cbn. by apply parse_list_separators. }
  split; [done|]. unfold blocked_ext_of. by rewrite Hb.
Qed.

Lemma blocked_extensions_prompt_clears_witness :
  blocked_extensions (set_blocked_extensions " , " DEFAULT_CONFIG) = [] /\
  blocked_ext_of (set_blocked_extensions " , " DEFAULT_CONFIG) "/setup.exe"
    = [].
Proof.
  apply (blocked_extensions_prompt_clears " , " DEFAULT_CONFIG "/setup.exe");
    reflexivity.
Defined.

(** ** The batch mode *)

Lemma professional_download_returns
    (cfg : config) (env : environment)
    (urlparse : string -> result ParseResult) (order : list nat)
    (url : string) (w : world) :
  exists r w', professional_download cfg env urlparse order url w = (Ok r, w').
Proof.
  unfold professional_download.
  destruct (validate_url urlparse cfg url) as [[] msg]; cbn [negb];
    [|by eexists _, _].
  unfold get_file_info_advanced, current_files. unfold_m.
  destruct (http_head env url) as [info|err]; [|by eexists _, _].
  destruct (prepare env info _) as [fp|]; [|by eexists _, _].
  match goal with |- context [match ?m with _ => _ end] => destruct m as [[[]|e] w1] end;
    by eexists _, _.
Qed.

Lemma batch_loop_count
    (cfg : config) (env : environment)
    (urlparse : string -> result ParseResult) (order_of : string -> list nat)
    (urls : list string) (acc : Z) (w : world) :
  exists n w',
    for_each urls
      (fun url successful =>
         r ← professional_download cfg env urlparse (order_of url) url;
         mret (if succeeded r then successful + 1 else successful))
      acc w = (Ok n, w') /\
    acc <= n <= acc + Z.of_nat (length urls) /\
    (n = acc + Z.of_nat (length urls) ->
     Forall (fun url => (validate_url urlparse cfg url).1 = true) urls).
Proof.
  revert acc w. induction urls as [|url urls IH]; intros acc w.
  { exists acc, w. split; [done|]. split; [cbn; lia|]. by constructor. }
  cbn [for_each].
  destruct (professional_download_returns cfg env urlparse (order_of url) url w)
    as (r & w1 & Hr).
  destruct (IH (if succeeded r then acc + 1 else acc) w1)
    as (n & w' & Hrest & Hn & Hall).
  exists n, w'. split.
  { unfold_m. by rewrite Hr. }
  assert (succeeded r = true -> (validate_url urlparse cfg url).1 = true)
    as Hvalid.
  { intros Hs. destruct (validate_url urlparse cfg url) as [[] msg] eqn:Ev;
      [done|].
    unfold professional_download in Hr. rewrite Ev in Hr.
    cbn in Hr. inversion Hr; subst. done. }
  cbn [length]. destruct (succeeded r).
  - split; [lia|]. intros Heq. constructor; [by apply Hvalid|].
    apply Hall. lia.
  - split; [lia|]. intros Heq. lia.
Qed.

(** X22: the batch mode ends with the exit code 0 or 1, and with 0 only when
    the file named at least one URL and every URL of the file passed the
    validator. *)
Theorem main_batch_exit_code
    (cfg : config) (env : environment)
    (urlparse : string -> result ParseResult) (order_of : string -> list nat)
    (urls : list string) (w w' : world) (code : result Z) :
  main_batch cfg env urlparse order_of urls w = (code, w') ->
  (code = Ok 0 \/ code = Ok 1) /\
  (code = Ok 0 ->
   urls <> [] /\
   Forall (fun url => (validate_url urlparse cfg url).1 = true) urls).
Proof.
  unfold main_batch. destruct urls as [|url urls].
  { intros [= <- <-]. split; [by right|done]. }
  destruct (batch_loop_count cfg env urlparse order_of (url :: urls) 0 w)
    as (n & w1 & Hloop & Hn & Hall).
  unfold batch_loop. unfold_m. rewrite Hloop.
  destruct (Z.eqb_spec n (Z.of_nat (length (url :: urls)))) as [Heq|Hne];
    intros [= <- <-].
  - split; [by left|]. intros _. split; [done|]. apply Hall. lia.
  - split; [by right|done].
Qed.

Lemma main_batch_exit_code_witness :
  (Ok 0 = Ok 0 \/ @Ok Z 0 = Ok 1) /\
  (@Ok Z 0 = Ok 0 ->
   [Demo.url] <> [] /\
   Forall (fun url =>
             (validate_url (Urllib.urlparse Urllib.any_bracketed_host)
                Demo.cfg url).1 = true) [Demo.url]).
Proof.
  apply (main_batch_exit_code Demo.cfg (Demo.env_of Demo.server)
           (Urllib.urlparse Urllib.any_bracketed_host) (fun _ => [])
           [Demo.url] Demo.w0
           (main_batch Demo.cfg (Demo.env_of Demo.server)
              (Urllib.urlparse Urllib.any_bracketed_host) (fun _ => [])
              [Demo.url] Demo.w0).2).
  vm_compute. reflexivity.
Defined.

